(** * zabbix-review-export: a shallow embedding of [backup.py]

    The program exports the configuration of a Zabbix server into one file
    per object.  This development embeds the serializer ([remove_none],
    [order_data], [dumps_json], [convert_to_object_without_none],
    [dump_xml]) and the connection resolver ([get_zabbix_connection]) and
    proves the properties the specification states about them.

    Conventions.
    - A Python [str] is a [string]: the sequence of the bytes of its UTF-8
      encoding.  Both regular expressions of the program and the literal
      given to [str.replace] are ASCII, and no byte of a multi-byte UTF-8
      sequence is ASCII, so matching on bytes and matching on code points
      agree; byte-wise lexicographic order is code point order.
    - Library functions the program calls ([json.dumps], [anymarkup.parse],
      [yaml.dump], [xml.dom.minidom], [os.path.abspath], the Zabbix client)
      are parameters, gathered in records. *)

From Stdlib Require Import ZArith List Ascii String Permutation Sorted.
From stdpp Require Import base strings gmap pretty.

Open Scope string_scope.
Open Scope list_scope.

(** ** Regular expressions, as far as the program uses them *)

Module Re.

(** A compiled pattern is its matcher: applied to the text that starts at
    the current position, it gives the length of the match that starts
    there, if there is one. *)
Definition matcher := string -> option nat.

(** [re.sub(pattern, repl, s)]: scan from the left; where the pattern
    matches, emit [repl] and resume after the match, otherwise copy one
    character.  [skip] counts the characters of the current match that are
    still to be passed over.  None of the patterns below matches the empty
    string, and a match of length 0 is treated as no match. *)
Fixpoint sub_aux (m : matcher) (repl : string) (skip : nat) (s : string)
  : string :=
  match s with
  | EmptyString => EmptyString
  | String c t =>
      match skip with
      | S k => sub_aux m repl k t
      | O =>
          match m s with
          | Some (S n) => repl +:+ sub_aux m repl n t
          | _ => String c (sub_aux m repl 0 t)
          end
      end
  end.

Definition sub (m : matcher) (repl s : string) : string :=
  sub_aux m repl 0 s.

(** Length of the longest prefix made of characters of the class. *)
Fixpoint span (cls : ascii -> bool) (s : string) : nat :=
  match s with
  | String c t => if cls c then S (span cls t) else 0
  | EmptyString => 0
  end.

(** The pattern [[...]+]: a greedy, non-empty run of characters of a
    class. *)
Definition class_plus (cls : ascii -> bool) : matcher :=
  fun s => match span cls s with 0 => None | n => Some n end.

(** Text after the prefix [p], when [s] starts with [p]. *)
Fixpoint strip_prefix (p s : string) : option string :=
  match p, s with
  | EmptyString, _ => Some s
  | String a p', String b s' =>
      if Ascii.eqb a b then strip_prefix p' s' else None
  | String _ _, EmptyString => None
  end.

Definition starts_with (p s : string) : bool :=
  match strip_prefix p s with Some _ => true | None => false end.

(** A literal pattern. *)
Definition literal (p : string) : matcher :=
  fun s => if starts_with p s then Some (String.length p) else None.

Definition newline : ascii := "010"%char.

(** What [.*] can cover at most: [.] matches every character but the
    line feed (no DOTALL flag is given). *)
Fixpoint line_prefix (s : string) : string :=
  match s with
  | EmptyString => EmptyString
  | String c t =>
      if Ascii.eqb c newline then EmptyString else String c (line_prefix t)
  end.

(** Position of the last occurrence of [p] in [s]. *)
Fixpoint find_last (p s : string) : option nat :=
  match s with
  | EmptyString => if starts_with p EmptyString then Some 0 else None
  | String _ t =>
      match find_last p t with
      | Some i => Some (S i)
      | None => if starts_with p s then Some 0 else None
      end
  end.

(** The pattern [open.*close] for two literals: [open], then as many
    characters of the line as possible (greedy [.*]) such that [close]
    still follows. *)
Definition enclosed (open close : string) : matcher :=
  fun s =>
    match strip_prefix open s with
    | Some rest =>
        match find_last close (line_prefix rest) with
        | Some i => Some (String.length open + i + String.length close)
        | None => None
        end
    | None => None
    end.

End Re.

(** [str.replace(old, new)]: every non-overlapping occurrence, from the
    left. *)
Definition str_replace (old new s : string) : string :=
  Re.sub (Re.literal old) new s.

(** The double quote character. *)
Definition dquote : ascii := "034"%char.

(** The character class of the pattern used for file names: backslash,
    slash, colon, double quote, star, question mark, less-than,
    greater-than and vertical bar. *)
Definition forbidden_chars : list ascii :=
  ["\"; "/"; ":"; dquote; "*"; "?"; "<"; ">"; "|"]%char.

Definition forbidden (c : ascii) : bool :=
  existsb (Ascii.eqb c) forbidden_chars.
Global Arguments forbidden : simpl never.

(** [name = re.sub(class+, ' ', name)], lines 117 and 153: every run of
    characters of the class becomes one space. *)
Definition sanitize (name : string) : string :=
  Re.sub (Re.class_plus forbidden) " " name.

Definition date_open : string := "<date>".
Definition date_close : string := "</date>".

(** [txt = re.sub(r'<date>.*<\/date>', '', txt)], line 160. *)
Definition strip_date (txt : string) : string :=
  Re.sub (Re.enclosed date_open date_close) "" txt.

(** ** Python objects *)

Inductive dict_type := Dict | OrderedDict.

(** The objects the program handles: what the API client and the parsers
    return ([None], booleans, integers, strings, lists and mappings) and the
    other two containers [remove_none] tests for (tuples and sets).  A
    mapping keeps its items in insertion order; a set is listed in the order
    in which its elements were added (Python leaves the iteration order of a
    set unspecified).  The keys of a mapping and the elements of a set are
    hashable objects ([None], booleans, integers, strings, tuples of
    hashable objects), pairwise different.

    These are all the objects of the development: the containers are of the
    exact types [list], [tuple], [set], [dict] and
    [collections.OrderedDict], and what is not a container is [None], a
    boolean, an integer or a string.  Outside are the objects of any other
    type (floating point numbers, frozensets, ...), which line 31 of
    [remove_none] returns as they are whatever they hold, and the other
    subclasses of the four containers (named tuples, [defaultdict],
    [Counter], ...), for which the call [type(obj)(...)] of lines 26 and 28
    need not build a container of these elements.  A statement about every
    object is a statement about the objects of this type. *)
Unset Elimination Schemes.
Inductive pyval :=
| PNone
| PBool (b : bool)
| PInt (n : Z)
| PStr (s : string)
| PList (l : list pyval)
| PTuple (l : list pyval)
| PSet (l : list pyval)
| PDict (t : dict_type) (kvs : list (pyval * pyval)).
Set Elimination Schemes.

Definition item : Type := pyval * pyval.

(** Induction on objects: the elements of a container, and the keys and
    values of a mapping, are smaller objects. *)

Section pyval_induction.

Variable P : pyval -> Prop.
Hypothesis HNone : P PNone.
Hypothesis HBool : forall b, P (PBool b).
Hypothesis HInt : forall n, P (PInt n).
Hypothesis HStr : forall s, P (PStr s).
Hypothesis HList : forall l, Forall P l -> P (PList l).
Hypothesis HTuple : forall l, Forall P l -> P (PTuple l).
Hypothesis HSet : forall l, Forall P l -> P (PSet l).
Hypothesis HDict : forall t kvs,
    Forall (fun kv => P (fst kv) /\ P (snd kv)) kvs -> P (PDict t kvs).

Fixpoint pyval_ind (v : pyval) : P v :=
  let all :=
    fix all (l : list pyval) : Forall P l :=
      match l with
      | [] => List.Forall_nil P
      | x :: r => List.Forall_cons P x r (pyval_ind x) (all r)
      end in
  match v with
  | PNone => HNone
  | PBool b => HBool b
  | PInt n => HInt n
  | PStr s => HStr s
  | PList l => HList l (all l)
  | PTuple l => HTuple l (all l)
  | PSet l => HSet l (all l)
  | PDict t kvs =>
      HDict t kvs
        ((fix entries (l : list item)
            : Forall (fun kv => P (fst kv) /\ P (snd kv)) l :=
            match l with
            | [] => List.Forall_nil _
            | (k, x) :: r =>
                List.Forall_cons _ (k, x) r
                  (conj (pyval_ind k) (pyval_ind x)) (entries r)
            end) kvs)
  end.

End pyval_induction.

(** [x is None] *)
Definition is_none (x : pyval) : bool :=
  match x with PNone => true | _ => false end.

Definition Z_of_bool (b : bool) : Z := if b then 1%Z else 0%Z.

(** [a == b] for hashable objects, the equality mappings and sets use for
    their keys: [True == 1] and [False == 0], tuples are compared element by
    element.  Lists, sets and mappings are not hashable and never are keys. *)
Fixpoint key_eqb (a b : pyval) : bool :=
  match a, b with
  | PNone, PNone => true
  | PBool x, PBool y => Bool.eqb x y
  | PBool x, PInt y => Z.eqb (Z_of_bool x) y
  | PInt x, PBool y => Z.eqb x (Z_of_bool y)
  | PInt x, PInt y => Z.eqb x y
  | PStr x, PStr y => String.eqb x y
  | PTuple l, PTuple m =>
      (fix go (l m : list pyval) : bool :=
         match l, m with
         | [], [] => true
         | x :: l', y :: m' => key_eqb x y && go l' m'
         | _, _ => false
         end) l m
  | _, _ => false
  end.

(** [d[k] = v] on the items of a mapping: the value of an existing key is
    replaced in place, a new key goes to the end. *)
Fixpoint dict_set (k v : pyval) (kvs : list item) : list item :=
  match kvs with
  | [] => [(k, v)]
  | (k', v') :: r =>
      if key_eqb k' k then (k', v) :: r else (k', v') :: dict_set k v r
  end.

(** [dict(iterable)] and [OrderedDict(iterable)] for an iterable of pairs. *)
Definition dict_of_items (items : list item) : list item :=
  fold_left (fun d kv => dict_set (fst kv) (snd kv) d) items [].

(** [d.get(k)] *)
Fixpoint dict_get (k : pyval) (kvs : list item) : option pyval :=
  match kvs with
  | [] => None
  | (k', v) :: r => if key_eqb k' k then Some v else dict_get k r
  end.

(** [s.add(x)] and [set(iterable)]. *)
Definition set_add (x : pyval) (l : list pyval) : list pyval :=
  if existsb (fun y => key_eqb y x) l then l else l ++ [x].

Definition set_of_list (xs : list pyval) : list pyval :=
  fold_left (fun s x => set_add x s) xs [].

(** ** [remove_none], lines 18-31 *)

Fixpoint remove_none (obj : pyval) : pyval :=
  let elements :=
    fix elements (l : list pyval) : list pyval :=
      match l with
      | [] => []
      | x :: r =>
          if is_none x then elements r else remove_none x :: elements r
      end in
  match obj with
  | PList l => PList (elements l)
  | PTuple l => PTuple (elements l)
  | PSet l => PSet (set_of_list (elements l))
  | PDict t kvs =>
      PDict t (dict_of_items
        ((fix items (l : list item) : list item :=
            match l with
            | [] => []
            | (k, v) :: r =>
                if is_none k || is_none v then items r
                else (remove_none k, remove_none v) :: items r
            end) kvs))
  | _ => obj
  end.

(** ** Exceptions and results *)

Inductive exn :=
| KeyError (key : pyval)
| TypeError (msg : string)
| LibraryError (msg : string)     (* raised inside a library call *)
| Exception (msg : string).       (* [raise Exception(msg)] *)

Inductive result (A : Type) :=
| Ok (a : A)
| Raise (e : exn).
Arguments Ok {A} a.
Arguments Raise {A} e.

(** Sequencing with propagation of the exception: [x ← c; k]. *)
Global Instance result_ret : MRet result := fun A a => Ok a.
Global Instance result_bind : MBind result := fun A B f r =>
  match r with Ok a => f a | Raise e => Raise e end.

(** ** [order_data], lines 86-94 *)

Definition int_value (v : pyval) : option Z :=
  match v with
  | PBool b => Some (Z_of_bool b)
  | PInt n => Some n
  | _ => None
  end.

(** [a < b] on keys: integers (and booleans) by value, strings by code
    points, tuples lexicographically on the first pair of elements that are
    not equal; anything else is a [TypeError]. *)
Fixpoint key_lt (a b : pyval) : result bool :=
  match a, b with
  | PStr x, PStr y => Ok (String.ltb x y)
  | PTuple l, PTuple m =>
      (fix go (l m : list pyval) : result bool :=
         match l, m with
         | [], [] => Ok false
         | [], _ :: _ => Ok true
         | _ :: _, [] => Ok false
         | x :: l', y :: m' => if key_eqb x y then go l' m' else key_lt x y
         end) l m
  | _, _ =>
      match int_value a, int_value b with
      | Some x, Some y => Ok (Z.ltb x y)
      | _, _ => Raise (TypeError "'<' not supported")
      end
  end.

(** [sorted(data.items())].  The keys of a mapping are pairwise different,
    so two items compare as their keys do.  Python's sort is stable, and so
    is this insertion sort; with keys that cannot be compared both raise
    [TypeError]. *)
Fixpoint insert_item (x : item) (l : list item) : result (list item) :=
  match l with
  | [] => Ok [x]
  | y :: r =>
      b ← key_lt (fst y) (fst x);
      if (b : bool) then (r' ← insert_item x r; Ok (y :: r'))
      else Ok (x :: y :: r)
  end.

Fixpoint sorted_items (l : list item) : result (list item) :=
  match l with
  | [] => Ok []
  | x :: r => r' ← sorted_items r; insert_item x r'
  end.

(** The value returned by [order_data].  The loop over [data.items()] also
    stores each ordered value back into the argument, see
    [after_order_data]. *)
Fixpoint order_data (data : pyval) : result pyval :=
  match data with
  | PDict _ kvs =>
      kvs' ← (fix values (l : list item) : result (list item) :=
                 match l with
                 | [] => Ok []
                 | (k, v) :: r =>
                     v' ← order_data v;
                     r' ← values r;
                     Ok ((k, v') :: r')
                 end) kvs;
      s ← sorted_items kvs';
      Ok (PDict OrderedDict s)
  | PList l =>
      l' ← (fix elements (l : list pyval) : result (list pyval) :=
               match l with
               | [] => Ok []
               | x :: r =>
                   x' ← order_data x;
                   r' ← elements r;
                   Ok (x' :: r')
               end) l;
      Ok (PList l')
  | _ => Ok data
  end.

(** The two loops of [order_data], over the items of a mapping and over
    the elements of a list. *)
Fixpoint order_values (l : list item) : result (list item) :=
  match l with
  | [] => Ok []
  | (k, v) :: r =>
      v' ← order_data v;
      r' ← order_values r;
      Ok ((k, v') :: r')
  end.

Fixpoint order_elements (l : list pyval) : result (list pyval) :=
  match l with
  | [] => Ok []
  | x :: r =>
      x' ← order_data x;
      r' ← order_elements r;
      Ok (x' :: r')
  end.

Definition value_or (d : pyval) (r : result pyval) : pyval :=
  match r with Ok v => v | Raise _ => d end.

(** The argument of a call of [order_data] that returned, as the call
    leaves it: a mapping has kept its type and the order of its keys and
    holds the ordered values ([data[key] = order_data(value)]); a list is the
    same list object, whose elements were passed to [order_data] in turn. *)
Fixpoint after_order_data (data : pyval) : pyval :=
  match data with
  | PDict t kvs =>
      PDict t (map (fun kv => (fst kv, value_or (snd kv) (order_data (snd kv)))) kvs)
  | PList l => PList (map after_order_data l)
  | _ => data
  end.

(** ** The world the program acts on: file system and log *)

(** A call of the [logging] module: level, format string and the arguments
    of [format]; [logging.exception] takes the exception. *)
Inductive log_record :=
| LogDebug (fmt : string) (args : list pyval)
| LogInfo (fmt : string) (args : list pyval)
| LogException (e : exn).

(** Directories are named as the program names them (relative to the
    working directory); files are indexed by the absolute path given to
    [open].  File system calls that fail for reasons outside the program
    (permissions, full disk, a name too long) are not modelled: they
    succeed.  What the theorems say is written is what a run writes when
    these calls succeed; [open] can raise after the record that announces
    the write has been logged (lines 121 and 174). *)
Record world := World {
  dirs : gset string;
  files : gmap string string;
  logged : list log_record
}.

(** Computations that act on the world and may raise: what was done before
    an exception stays done. *)
Definition M (A : Type) : Type := world -> result A * world.

Global Instance M_ret : MRet M := fun A a w => (Ok a, w).
Global Instance M_bind : MBind M := fun A B f c w =>
  match c w with
  | (Ok a, w') => f a w'
  | (Raise e, w') => (Raise e, w')
  end.

Definition lift {A} (r : result A) : M A := fun w => (r, w).

(** [try: body / except Exception as e: handler(e)] *)
Definition try_except {A} (body : M A) (handler : exn -> M A) : M A :=
  fun w =>
    match body w with
    | (Ok a, w') => (Ok a, w')
    | (Raise e, w') => handler e w'
    end.

Definition path_exists (p : string) : M bool :=
  fun w => (Ok (bool_decide (p ∈ dirs w)), w).

Definition makedirs (p : string) : M unit :=
  fun w => (Ok (), World ({[p]} ∪ dirs w) (files w) (logged w)).

(** [with open(filename, mode='w', ...) as file: file.write(txt)]: the file
    is created or truncated, then written. *)
Definition write_file (p txt : string) : M unit :=
  fun w => (Ok (), World (dirs w) (<[p := txt]> (files w)) (logged w)).

Definition logging (r : log_record) : M unit :=
  fun w => (Ok (), World (dirs w) (files w) (logged w ++ [r])).

Fixpoint for_each {A} (body : A -> M unit) (l : list A) : M unit :=
  match l with
  | [] => mret ()
  | x :: r => body x;; for_each body r
  end.

(** ** Library functions *)

Record libraries := Libraries {
  (** [json.dumps(item, indent=4)] *)
  json_dumps : pyval -> result string;
  (** [anymarkup.parse(txt)] *)
  anymarkup_parse : string -> result pyval;
  (** [yaml.dump(raw, default_flow_style=False, width=10000)], with the
      representer for [OrderedDict] registered *)
  yaml_dump : pyval -> result string;
  (** [xml.dom.minidom.parseString(txt).toprettyxml(indent='  ',
      encoding='UTF-8').decode()] *)
  toprettyxml : string -> result string;
  (** [os.path.abspath] *)
  abspath : string -> string
}.

(** The Zabbix client library: the constructor [ZabbixAPI(url)] or
    [ZabbixAPI(url, user=..., password=...)], the assignment
    [zbx.session.verify = ...] and [zbx.login(user, password)]; each gives
    the client object as the call leaves it, or raises. *)
Record zabbix_library (api : Type) := ZabbixLibrary {
  ZabbixAPI : string -> option (string * string) -> result api;
  set_session_verify : api -> bool -> result api;
  login : api -> string -> string -> result api
}.
Arguments ZabbixAPI {api}.
Arguments set_session_verify {api}.
Arguments login {api}.

(** ** [get_zabbix_connection], lines 34-65 *)

Definition fatal_message : string :=
  "Some error in pyzabbix or py_zabbix module, see logs".

(** The body of the first [try], lines 48-51 (the pyzabbix interface), and
    of the second, lines 58-60 (the py-zabbix interface). *)
Definition first_attempt {api} (Z : zabbix_library api)
    (zbx_url zbx_user zbx_password : string) : result api :=
  zbx_pyzabbix ← ZabbixAPI Z zbx_url None;
  zbx_pyzabbix ← set_session_verify Z zbx_pyzabbix false;
  login Z zbx_pyzabbix zbx_user zbx_password.

Definition second_attempt {api} (Z : zabbix_library api)
    (zbx_url zbx_user zbx_password : string) : result api :=
  zbx_py_zabbix ← ZabbixAPI Z zbx_url (Some (zbx_user, zbx_password));
  set_session_verify Z zbx_py_zabbix false.

Definition get_zabbix_connection {api} (Z : zabbix_library api)
    (zbx_url zbx_user zbx_password : string) : M api :=
  logging (LogDebug "Try connect to Zabbix by pyzabbix..." []);;
  try_except
    (lift (first_attempt Z zbx_url zbx_user zbx_password))
    (fun e =>
       logging (LogException e);;
       logging (LogDebug "Try connect to Zabbix by py-zabbix..." []);;
       try_except
         (lift (second_attempt Z zbx_url zbx_user zbx_password))
         (fun e =>
            logging (LogException e);;
            lift (Raise (Exception fatal_message)))).

(** ** The serializer *)

(** [obj[key]] *)
Definition getitem (obj key : pyval) : result pyval :=
  match obj with
  | PDict _ kvs =>
      match dict_get key kvs with
      | Some v => Ok v
      | None => Raise (KeyError key)
      end
  | PList _ | PTuple _ =>
      Raise (TypeError "indices must be integers or slices")
  | PStr _ => Raise (TypeError "string indices must be integers")
  | _ => Raise (TypeError "object is not subscriptable")
  end.

(** [re.sub] accepts a string only. *)
Definition re_sub_name (name : pyval) : result string :=
  match name with
  | PStr s => Ok (sanitize s)
  | _ => Raise (TypeError "expected string or bytes-like object")
  end.

Definition extension (save_yaml : bool) (native : string) : string :=
  if save_yaml then "yaml" else native.

(** ['{}/{}.{}'.format(folder, name, ext)] *)
Definition format_filename (folder name ext : string) : string :=
  folder +:+ "/" +:+ name +:+ "." +:+ ext.

(** The list [order_data] makes of a list. *)
Definition order_data_list (data : list pyval) : result (list pyval) :=
  data' ← order_data (PList data);
  match data' with
  | PList l => Ok l
  | _ => Raise (TypeError "object is not iterable")
  end.

Section Serializer.

Context (L : libraries).

(** Lines 130-136. *)
Definition convert_to_object_without_none (txt : string) : result string :=
  raw ← anymarkup_parse L txt;
  let raw := remove_none raw in
  yaml_dump L raw.

(** The body of the loop of [dumps_json], lines 113-127. *)
Definition dumps_json_item (folder key : string) (save_yaml : bool)
    (item : pyval) : M unit :=
  txt ← lift (json_dumps L item);
  name ← lift (getitem item (PStr key));
  name ← lift (re_sub_name name);
  let filename := format_filename folder name (extension save_yaml "json") in
  let filename := abspath L filename in
  logging (LogDebug "Write to file '{}'" [PStr filename]);;
  txt ← (if save_yaml then lift (convert_to_object_without_none txt)
         else mret txt);
  write_file filename txt.

(** Lines 97-127; [data] is a list, as the docstring requires. *)
Definition dumps_json (folder : string) (data : list pyval) (key : string)
    (save_yaml : bool) : M unit :=
  e ← path_exists folder;
  (if negb e then makedirs folder else mret ());;
  data ← lift (order_data_list data);
  for_each (dumps_json_item folder key save_yaml) data.

(** Lines 139-176. *)
Definition dump_xml (folder txt : string) (name : pyval)
    (save_yaml : bool) : M unit :=
  e ← path_exists folder;
  (if negb e then makedirs folder else mret ());;
  name ← lift (re_sub_name name);
  let filename := format_filename folder name (extension save_yaml "xml") in
  let filename := abspath L filename in
  let txt := strip_date txt in
  txt ← lift (toprettyxml L txt);
  let txt := str_replace "&quot;" (String dquote "") txt in
  txt ← (if save_yaml then lift (convert_to_object_without_none txt)
         else mret txt);
  logging (LogDebug "Write to file '{}'" [PStr filename]);;
  write_file filename txt.

(** The body of the loop of [export], lines 195-197: [configuration_export
    type id] is [zabbix_.configuration.export(format='xml', options={type:
    [id]})]. *)
Definition export_item
    (configuration_export : string -> pyval -> result string)
    (save_yaml : bool) (type itemid name : string) (item : pyval) : M unit :=
  n ← lift (getitem item (PStr name));
  logging (LogInfo "Processing {}..." [n]);;
  id ← lift (getitem item (PStr itemid));
  txt ← lift (configuration_export type id);
  n ← lift (getitem item (PStr name));
  dump_xml type txt n save_yaml.

(** The function [export] local to [main], lines 182-197: [get] is
    [zabbix_api.get()]. *)
Definition export (get : result (list pyval))
    (configuration_export : string -> pyval -> result string)
    (save_yaml : bool) (type itemid name : string) : M unit :=
  logging (LogInfo "Export {}" [PStr type]);;
  items ← lift get;
  for_each (export_item configuration_export save_yaml type itemid name) items.

End Serializer.

(** ** Notions used in the statements *)

Fixpoint string_forallb (p : ascii -> bool) (s : string) : bool :=
  match s with
  | EmptyString => true
  | String c t => p c && string_forallb p t
  end.

Definition allowed (c : ascii) : bool := negb (forbidden c).

(** The string is empty or starts with an allowed character. *)
Definition starts_allowed (s : string) : bool :=
  match s with
  | EmptyString => true
  | String c _ => allowed c
  end.

(** The string is empty or ends with an allowed character. *)
Fixpoint ends_allowed (s : string) : bool :=
  match s with
  | EmptyString => true
  | String c EmptyString => allowed c
  | String _ t => ends_allowed t
  end.

Fixpoint string_existsb (p : ascii -> bool) (s : string) : bool :=
  match s with
  | EmptyString => false
  | String c t => p c || string_existsb p t
  end.

Definition is_newline (c : ascii) : bool := Ascii.eqb c Re.newline.

Definition no_newline (s : string) : Prop :=
  string_existsb is_newline s = false.

(** [</date>] occurs in the first line of the text. *)
Definition has_close (s : string) : bool :=
  match Re.find_last date_close (Re.line_prefix s) with
  | Some _ => true
  | None => false
  end.

(** The pattern of [strip_date] matches nowhere in the text. *)
Fixpoint unmatched (s : string) : bool :=
  match s with
  | EmptyString => true
  | String _ t =>
      match Re.enclosed date_open date_close s with
      | Some _ => false
      | None => unmatched t
      end
  end.

(** The scan of [sanitize] as a machine with two states: inside a run of
    forbidden characters, for which the space has been written, or not. *)
Fixpoint scan (in_run : bool) (s : string) : string :=
  match s with
  | EmptyString => EmptyString
  | String c t =>
      if forbidden c
      then (if in_run then scan true t else String " " (scan true t))
      else String c (scan false t)
  end.

(** The name of the example of the specification: [Host: ], a double
    quote, [A], a double quote. *)
Definition host_a : string :=
  "Host: " +:+ String dquote ("A" +:+ String dquote "").

(** Where both paths of the serializer write: the folder, the sanitized
    name and the extension. *)
Definition target (L : libraries) (folder name ext : string) : string :=
  abspath L (format_filename folder (sanitize name) ext).

(** What ends up in the file: the text itself or its conversion. *)
Definition rendered (L : libraries) (save_yaml : bool) (txt : string)
  : result string :=
  if save_yaml then convert_to_object_without_none L txt else Ok txt.

Definition unquote (txt : string) : string :=
  str_replace "&quot;" (String dquote "") txt.

(** The directories once [folder] has been created if it was missing. *)
Definition ensure_dir (folder : string) (ds : gset string) : gset string :=
  if bool_decide (folder ∈ ds) then ds else {[folder]} ∪ ds.

Definition write_message (filename : string) : log_record :=
  LogDebug "Write to file '{}'" [PStr filename].

(** *** Objects *)

Definition not_none (x : pyval) : bool := negb (is_none x).

(** The test of the generator of line 29: [k is not None and v is not
    None]. *)
Definition item_not_none (kv : item) : bool :=
  not_none (fst kv) && not_none (snd kv).

Definition is_str (v : pyval) : bool :=
  match v with PStr _ => true | _ => false end.

Definition is_container (v : pyval) : bool :=
  match v with
  | PList _ | PTuple _ | PSet _ | PDict _ _ => true
  | _ => false
  end.

(** [type(obj)] *)
Inductive pytype :=
| NoneType | TBool | TInt | TStr | TList | TTuple | TSet
| TDict (t : dict_type).

Definition type_of (v : pyval) : pytype :=
  match v with
  | PNone => NoneType
  | PBool _ => TBool
  | PInt _ => TInt
  | PStr _ => TStr
  | PList _ => TList
  | PTuple _ => TTuple
  | PSet _ => TSet
  | PDict t _ => TDict t
  end.

(** [not obj]: the values Python takes for false. *)
Definition falsy (v : pyval) : bool :=
  match v with
  | PNone | PBool false | PInt 0 | PStr EmptyString
  | PList [] | PTuple [] | PSet [] | PDict _ [] => true
  | _ => false
  end.

(** No two objects of the list are equal. *)
Fixpoint distinct (l : list pyval) : bool :=
  match l with
  | [] => true
  | x :: r => forallb (fun y => negb (key_eqb x y)) r && distinct r
  end.

(** [None] occurs nowhere inside the object: not as an element, not as a
    key, not as a value, at any depth. *)
Fixpoint null_free (v : pyval) : bool :=
  match v with
  | PList l | PTuple l | PSet l =>
      forallb (fun x => not_none x && null_free x) l
  | PDict _ kvs =>
      forallb (fun kv => let '(k, x) := kv in
                         not_none k && not_none x
                         && null_free k && null_free x) kvs
  | _ => true
  end.

(** The objects a JSON document stands for, as the API client and the
    parsers return them: scalars, lists, and mappings whose keys are
    strings, no two of them equal. *)
Fixpoint is_json (v : pyval) : bool :=
  match v with
  | PList l => forallb is_json l
  | PDict _ kvs =>
      forallb (fun kv => let '(k, x) := kv in is_str k && is_json x) kvs
      && distinct (map fst kvs)
  | PTuple _ | PSet _ => false
  | _ => true
  end.

(** Following the specification: the object without its null-valued
    entries, at any nesting depth; everything else is retained, in place.
    (In a sequence, the null elements go.) *)
Fixpoint without_nulls (v : pyval) : pyval :=
  match v with
  | PList l =>
      PList ((fix elements (l : list pyval) : list pyval :=
                match l with
                | [] => []
                | x :: r =>
                    if is_none x then elements r
                    else without_nulls x :: elements r
                end) l)
  | PDict t kvs =>
      PDict t ((fix entries (l : list item) : list item :=
                  match l with
                  | [] => []
                  | (k, x) :: r =>
                      if is_none x then entries r
                      else (k, without_nulls x) :: entries r
                  end) kvs)
  | _ => v
  end.

(** An item as [remove_none] rebuilds it. *)
Definition strip_item (kv : item) : item :=
  (remove_none (fst kv), remove_none (snd kv)).

(** The object is not null and holds no null. *)
Definition clean_object (x : pyval) : Prop :=
  not_none x = true /\ null_free x = true.

(** The entries [without_nulls] keeps, and what it makes of them. *)
Definition keep_entry (kv : item) : bool := not_none (snd kv).
Definition strip_value (kv : item) : item := (fst kv, without_nulls (snd kv)).

(** Same data up to the order of the keys of the mappings (and their type,
    [dict] or [OrderedDict]): scalars are equal, lists have pairwise same
    elements in the same order, mappings have the same keys with same
    values. *)
Fixpoint same_data (a b : pyval) : bool :=
  match a, b with
  | PNone, PNone => true
  | PBool x, PBool y => Bool.eqb x y
  | PInt x, PInt y => Z.eqb x y
  | PStr x, PStr y => String.eqb x y
  | PList l, PList m =>
      (fix go (l m : list pyval) : bool :=
         match l, m with
         | [], [] => true
         | x :: l', y :: m' => same_data x y && go l' m'
         | _, _ => false
         end) l m
  | PDict _ kvs, PDict _ kvs' =>
      Nat.eqb (List.length kvs) (List.length kvs')
      && (fix go (l : list item) : bool :=
            match l with
            | [] => true
            | (k, x) :: r =>
                match dict_get k kvs' with
                | Some y => same_data x y
                | None => false
                end && go r
            end) kvs
  | _, _ => false
  end.

(** The keys, all strings, are in strictly ascending order. *)
Fixpoint ascending (keys : list pyval) : bool :=
  match keys with
  | PStr a :: ((PStr b :: _) as r) => String.ltb a b && ascending r
  | [PStr _] | [] => true
  | _ => false
  end.

(** Every mapping inside the object, at any depth, is an [OrderedDict]
    whose keys are in ascending order. *)
Fixpoint keys_sorted (v : pyval) : bool :=
  match v with
  | PList l => forallb keys_sorted l
  | PDict t kvs =>
      match t with OrderedDict => true | Dict => false end
      && ascending (map fst kvs)
      && forallb (fun kv => let '(_, x) := kv in keys_sorted x) kvs
  | _ => true
  end.

(** [a < b] for two strings. *)
Definition str_ltb (a b : pyval) : bool :=
  match a, b with
  | PStr x, PStr y => String.ltb x y
  | _, _ => false
  end.

(** The key of the first item is a string smaller than the key of the
    second. *)
Definition item_lt (x y : item) : Prop := str_ltb (fst x) (fst y) = true.

Definition str_key (kv : item) : Prop := is_str (fst kv) = true.

(** [order_data] returns [o] for [x]: a JSON object with the same data,
    in which the keys of every mapping are sorted. *)
Definition ordered (x o : pyval) : Prop :=
  order_data x = Ok o /\ is_json o = true /\ keys_sorted o = true
  /\ same_data x o = true.

Definition ordered_item (kv kv' : item) : Prop :=
  fst kv = fst kv' /\ ordered (snd kv) (snd kv').

(** The items of a mapping. *)
Definition entries (v : pyval) : list item :=
  match v with PDict _ kvs => kvs | _ => [] end.

(** The file [dumps_json] writes for an item, once the item is ordered:
    its path and its content. *)
Definition item_file (L : libraries) (folder key : string) (save_yaml : bool)
    (item : pyval) : result (string * string) :=
  txt ← json_dumps L item;
  name ← getitem item (PStr key);
  name ← re_sub_name name;
  out ← rendered L save_yaml txt;
  Ok (abspath L (format_filename folder name (extension save_yaml "json")),
      out).

(** The world after the files of a list have been written, in order. *)
Definition write_one (w : world) (f : string * string) : world :=
  World (dirs w) (<[fst f := snd f]> (files w))
        (logged w ++ [write_message (fst f)]).

Definition write_all (fs : list (string * string)) (w : world) : world :=
  fold_left write_one fs w.

Definition with_dir (folder : string) (w : world) : world :=
  World (ensure_dir folder (dirs w)) (files w) (logged w).

(** *** Library instances for the examples *)

(** A compact rendering of an object, without escapes. *)
Fixpoint repr (v : pyval) : string :=
  let sequence :=
    fix sequence (l : list pyval) : string :=
      match l with
      | [] => ""
      | [x] => repr x
      | x :: r => repr x +:+ ", " +:+ sequence r
      end in
  match v with
  | PNone => "null"
  | PBool true => "true"
  | PBool false => "false"
  | PInt n => pretty n
  | PStr s => String dquote (s +:+ String dquote "")
  | PList l | PTuple l | PSet l => "[" +:+ sequence l +:+ "]"
  | PDict _ kvs =>
      "{" +:+
      (fix mapping (l : list item) : string :=
         match l with
         | [] => ""
         | [(k, x)] => repr k +:+ ": " +:+ repr x
         | (k, x) :: r => repr k +:+ ": " +:+ repr x +:+ ", " +:+ mapping r
         end) kvs
      +:+ "}"
  end.

(** Libraries that render with [repr], whose parser returns the object
    [raw] whatever the text, whose XML printer returns the document as it
    is, and with the working directory [/backup]. *)
Definition demo_libraries (raw : pyval) : libraries :=
  Libraries (fun v => Ok (repr v)) (fun _ => Ok raw) (fun v => Ok (repr v))
            (fun txt => Ok txt) (fun p => "/backup/" +:+ p).

Definition demo_action : pyval :=
  PDict Dict
    [(PStr "name", PStr "Report: problems");
     (PStr "esc_period", PNone);
     (PStr "filter",
      PDict Dict [(PStr "formula", PStr ""); (PStr "eval_formula", PNone)]);
     (PStr "actionid", PInt 7)].

(** [p in s] for strings. *)
Fixpoint occurs (p s : string) : bool :=
  Re.starts_with p s
  || match s with
     | EmptyString => false
     | String _ t => occurs p t
     end.

Definition nl : string := String Re.newline "".
Definition quoted (s : string) : string :=
  String dquote (s +:+ String dquote "").

(** An export whose date element holds a line break. *)
Definition dated_document : string :=
  "<zabbix_export><date>2020-01-01T00:00:00Z" +:+ nl
  +:+ "</date><version>4.0</version></zabbix_export>".

(** What [xml.dom.minidom] prints for [dated_document]. *)
Definition dated_document_pretty : string :=
  "<?xml version=" +:+ quoted "1.0" +:+ " encoding=" +:+ quoted "UTF-8"
  +:+ "?>" +:+ nl
  +:+ "<zabbix_export>" +:+ nl
  +:+ "  <date>2020-01-01T00:00:00Z" +:+ nl
  +:+ "</date>" +:+ nl
  +:+ "  <version>4.0</version>" +:+ nl
  +:+ "</zabbix_export>" +:+ nl.

(** The libraries of the examples, with the XML printer as it is on
    [dated_document]. *)
Definition minidom_libraries : libraries :=
  Libraries (fun v => Ok (repr v)) (fun _ => Ok PNone) (fun v => Ok (repr v))
            (fun txt =>
               if String.eqb txt dated_document then Ok dated_document_pretty
               else Raise (LibraryError "document not in the example"))
            (fun p => "/backup/" +:+ p).

(** The same action with its keys in another order. *)
Definition demo_action_reordered : pyval :=
  PDict OrderedDict
    [(PStr "actionid", PInt 7);
     (PStr "filter",
      PDict Dict [(PStr "eval_formula", PNone); (PStr "formula", PStr "")]);
     (PStr "name", PStr "Report: problems");
     (PStr "esc_period", PNone)].

Definition template_a : pyval :=
  PDict Dict [(PStr "templateid", PInt 1); (PStr "name", PStr "Template A")].

Definition template_slash_a : pyval :=
  PDict Dict [(PStr "templateid", PInt 2); (PStr "name", PStr "Template/A")].

(** An item without name. *)
Definition nameless : pyval := PDict Dict [(PStr "templateid", PInt 3)].

Definition ordered_or_none (v : pyval) : pyval := value_or PNone (order_data v).

(** A mapping with values Python takes for false, null values and null
    keys. *)
Definition falsy_values : list item :=
  [(PStr "a", PInt 0); (PStr "b", PNone); (PInt 3, PStr "");
   (PNone, PInt 1); (PTuple [PNone], PList [PNone; PBool false])].

Definition empty_world : world := World ∅ ∅ [].

(** *** The connection resolver *)

Definition try_pyzabbix : log_record :=
  LogDebug "Try connect to Zabbix by pyzabbix..." [].
Definition try_py_zabbix : log_record :=
  LogDebug "Try connect to Zabbix by py-zabbix..." [].

(** The world with more records in the log. *)
Definition with_log (w : world) (rs : list log_record) : world :=
  World (dirs w) (files w) (logged w ++ rs).

(** ** [main], lines 179-218, and the script, lines 221-227 *)

(** The client object [zabbix_] as [main] uses it: [zabbix_.host.get()] and
    the like for templates, value maps and screens,
    [zabbix_.action.get(selectOperations='extend', selectFilter='extend')],
    [zabbix_.mediatype.get(selectUsers='extend')], and
    [zabbix_.configuration.export(format='xml', options={type: [id]})]. *)
Record zabbix_server := ZabbixServer {
  host_get : result (list pyval);
  template_get : result (list pyval);
  valuemap_get : result (list pyval);
  screen_get : result (list pyval);
  action_get : result (list pyval);
  mediatype_get : result (list pyval);
  server_export : string -> pyval -> result string
}.

(** [main].  The test [if yaml:] is on the module [yaml], which Python takes
    for true: the first record is logged whatever [save_yaml] is. *)
Definition main (L : libraries) (zabbix_ : zabbix_server) (save_yaml : bool)
  : M unit :=
  logging (LogInfo "Convert all format to yaml" []);;
  logging (LogInfo "Start export XML part..." []);;
  export L (host_get zabbix_) (server_export zabbix_) save_yaml
    "hosts" "hostid" "name";;
  export L (template_get zabbix_) (server_export zabbix_) save_yaml
    "templates" "templateid" "name";;
  export L (valuemap_get zabbix_) (server_export zabbix_) save_yaml
    "valueMaps" "valuemapid" "name";;
  export L (screen_get zabbix_) (server_export zabbix_) save_yaml
    "screens" "screenid" "name";;
  logging (LogInfo "Start export JSON part..." []);;
  logging (LogInfo "Processing action..." []);;
  actions ← lift (action_get zabbix_);
  dumps_json L "actions" actions "name" save_yaml;;
  logging (LogInfo "Processing mediatypes..." []);;
  mediatypes ← lift (mediatype_get zabbix_);
  dumps_json L "mediatypes" mediatypes "description" save_yaml.

(** The script once the arguments are parsed and logging is set up:
    [server] gives the methods of the client object the resolver returns. *)
Definition script {api} (L : libraries) (Z : zabbix_library api)
    (server : api -> zabbix_server)
    (zabbix_url zabbix_username zabbix_password : string) (save_yaml : bool)
  : M unit :=
  zabbix_ ← get_zabbix_connection Z zabbix_url zabbix_username zabbix_password;
  main L (server zabbix_) save_yaml.

(** *** Notions for the statements about the whole run *)

(** Mappings have pairwise different keys and sets pairwise different
    elements, at every depth: what Python objects are. *)
Fixpoint well_formed (v : pyval) : bool :=
  match v with
  | PList l | PTuple l => forallb well_formed l
  | PSet l => forallb well_formed l && distinct l
  | PDict _ kvs =>
      forallb (fun kv => let '(k, x) := kv in well_formed k && well_formed x)
        kvs
      && distinct (map fst kvs)
  | _ => true
  end.

(** The path of a file of a category: the folder, a name without forbidden
    character, the extension. *)
Definition category_path (L : libraries) (save_yaml : bool)
    (folder native p : string) : Prop :=
  exists name,
    string_forallb allowed name = true /\
    p = abspath L (format_filename folder name (extension save_yaml native)).

(** The paths [main] may write to. *)
Definition export_path (L : libraries) (save_yaml : bool) (p : string)
  : Prop :=
  (exists folder, In folder ["hosts"; "templates"; "valueMaps"; "screens"] /\
                  category_path L save_yaml folder "xml" p) \/
  (exists folder, In folder ["actions"; "mediatypes"] /\
                  category_path L save_yaml folder "json" p).

(** Nothing is lost from [w] to [w']: directories and files are still
    there and the log has only grown. *)
Definition extends (w w' : world) : Prop :=
  dirs w ⊆ dirs w' /\ dom (files w) ⊆ dom (files w') /\
  logged w `prefix_of` logged w'.

(** The six folders of a run. *)
Definition category_folders : list string :=
  ["hosts"; "templates"; "valueMaps"; "screens"; "actions"; "mediatypes"].

(** From [w] to [w'] nothing is lost, the directories that are new satisfy
    [D] and the files that are new or whose content has changed satisfy
    [P]. *)
Definition touches (P D : string -> Prop) (w w' : world) : Prop :=
  extends w w' /\
  (forall d, d ∈ dirs w' -> d ∈ dirs w \/ D d) /\
  (forall p, files w' !! p <> files w !! p -> P p).

Definition confined {A} (P D : string -> Prop) (c : M A) : Prop :=
  forall w, touches P D w (snd (c w)).

(** The file [export] writes for an item, with the name it logs: the item
    has the name and the id, the server exports it, the document is printed
    and, if asked for, converted. *)
Definition xml_file (L : libraries)
    (configuration_export : string -> pyval -> result string)
    (save_yaml : bool) (type itemid name : string) (item : pyval)
  : result (pyval * (string * string)) :=
  n ← getitem item (PStr name);
  id ← getitem item (PStr itemid);
  doc ← configuration_export type id;
  n' ← re_sub_name n;
  pretty ← toprettyxml L (strip_date doc);
  out ← rendered L save_yaml (unquote pretty);
  Ok (n, (abspath L (format_filename type n' (extension save_yaml "xml")),
          out)).

(** The world after [export] has gone through an item with this file. *)
Definition export_one (type : string) (w : world)
    (f : pyval * (string * string)) : world :=
  World (ensure_dir type (dirs w)) (<[fst (snd f) := snd (snd f)]> (files w))
        (logged w ++ [LogInfo "Processing {}..." [fst f];
                      write_message (fst (snd f))]).

Definition export_all (type : string) (fs : list (pyval * (string * string)))
    (w : world) : world :=
  fold_left (export_one type) fs w.

(** What [main] has logged when it reaches the actions, on a server without
    hosts, templates, value maps and screens. *)
Definition log_without_xml : list log_record :=
  [LogInfo "Convert all format to yaml" [];
   LogInfo "Start export XML part..." [];
   LogInfo "Export {}" [PStr "hosts"];
   LogInfo "Export {}" [PStr "templates"];
   LogInfo "Export {}" [PStr "valueMaps"];
   LogInfo "Export {}" [PStr "screens"];
   LogInfo "Start export JSON part..." [];
   LogInfo "Processing action..." []].

(** Libraries whose parser refuses the texts that mention [Template/A]. *)
Definition picky_libraries : libraries :=
  Libraries (fun v => Ok (repr v))
            (fun txt => if occurs "Template/A" txt
                        then Raise (LibraryError "cannot parse")
                        else Ok PNone)
            (fun v => Ok (repr v)) (fun txt => Ok txt)
            (fun p => "/backup/" +:+ p).

(** A media type whose name and description differ. *)
Definition demo_mediatype : pyval :=
  PDict Dict
    [(PStr "mediatypeid", PInt 1); (PStr "name", PStr "unused");
     (PStr "description", PStr "E-mail: ops")].

(** A server with one action and one media type. *)
Definition json_server : zabbix_server :=
  ZabbixServer (Ok []) (Ok []) (Ok []) (Ok [])
    (Ok [demo_action]) (Ok [demo_mediatype])
    (fun _ _ => Raise (LibraryError "no such object")).

(** A server with two templates, the second of which it does not export. *)
Definition template_server : zabbix_server :=
  ZabbixServer (Ok []) (Ok [template_a; template_slash_a]) (Ok []) (Ok [])
    (Ok []) (Ok [])
    (fun _ id => match id with
                 | PInt 1 => Ok "<zabbix_export/>"
                 | _ => Raise (LibraryError "no permissions")
                 end).

(** The entity [str.replace] looks for in [dump_xml]. *)
Definition quot : string := "&quot;".

(** * Proofs *)

(** ** Strings *)

Lemma app_cons (c : ascii) (a b : string) :
  String c a +:+ b = String c (a +:+ b).
Proof. reflexivity. Qed.

Lemma app_nil_l (s : string) : "" +:+ s = s.
Proof. reflexivity. Qed.

Lemma app_nil_r (s : string) : s +:+ "" = s.
Proof.
  induction s as [|c s IH]; [reflexivity|]. now rewrite app_cons, IH.
Qed.

Lemma app_assoc (a b c : string) : (a +:+ b) +:+ c = a +:+ b +:+ c.
Proof.
  induction a as [|x a IH]; [reflexivity|]. now rewrite !app_cons, IH.
Qed.

Lemma length_app (a b : string) :
  String.length (a +:+ b) = String.length a + String.length b.
Proof.
  induction a as [|x a IH]; [reflexivity|]. rewrite app_cons. cbn.
  now rewrite IH.
Qed.

(** ** Sanitization *)

Lemma class_plus_cons (c : ascii) (t : string) :
  Re.class_plus forbidden (String c t)
  = if forbidden c then Some (S (Re.span forbidden t)) else None.
Proof.
  unfold Re.class_plus. cbn [Re.span]. now destruct (forbidden c).
Qed.

Lemma sub_aux_class_scan (s : string) :
  Re.sub_aux (Re.class_plus forbidden) " " 0 s = scan false s /\
  Re.sub_aux (Re.class_plus forbidden) " " (Re.span forbidden s) s
    = scan true s.
Proof.
  induction s as [|c t [IH0 IH1]]; [split; reflexivity|].
  cbn [Re.sub_aux Re.span scan]. rewrite class_plus_cons.
  destruct (forbidden c).
  - rewrite IH1. split; reflexivity.
  - rewrite IH0. split; reflexivity.
Qed.

Lemma sanitize_scan (s : string) : sanitize s = scan false s.
Proof. apply sub_aux_class_scan. Qed.

Lemma allowed_space : allowed " " = true.
Proof. reflexivity. Qed.

Lemma scan_allowed (st : bool) (s : string) :
  string_forallb allowed (scan st s) = true.
Proof.
  revert st. induction s as [|c t IH]; intros st; [reflexivity|].
  cbn [scan]. destruct (forbidden c) eqn:E.
  - destruct st; [apply IH|]. cbn [string_forallb].
    now rewrite allowed_space, IH.
  - cbn [string_forallb]. unfold allowed at 1. now rewrite E, IH.
Qed.

Lemma scan_unchanged (s : string) :
  string_forallb allowed s = true -> scan false s = s.
Proof.
  induction s as [|c t IH]; [reflexivity|]. cbn. unfold allowed at 1.
  destruct (forbidden c); cbn; [discriminate|]. intros H. rewrite IH; auto.
Qed.

Lemma scan_true_start (s : string) :
  starts_allowed s = true -> scan true s = scan false s.
Proof.
  destruct s as [|c t]; [reflexivity|]. cbn. unfold allowed.
  destruct (forbidden c); [discriminate|reflexivity].
Qed.

Lemma scan_run (st : bool) (r b : string) :
  string_forallb forbidden r = true -> starts_allowed b = true ->
  scan true (r +:+ b) = scan false b.
Proof.
  intros Hr Hb. induction r as [|c r IH].
  - now apply scan_true_start.
  - cbn in Hr. apply andb_prop in Hr as [Hc Hr].
    rewrite app_cons. cbn. rewrite Hc. auto.
Qed.

Lemma scan_app (st : bool) (a x : string) :
  a <> "" -> ends_allowed a = true ->
  scan st (a +:+ x) = scan st a +:+ scan false x.
Proof.
  revert st. induction a as [|c a IH]; intros st Hne He; [congruence|].
  destruct a as [|c' a'].
  - cbn in He. unfold allowed in He. rewrite app_cons, app_nil_l. cbn.
    destruct (forbidden c); [discriminate|reflexivity].
  - assert (He' : ends_allowed (String c' a') = true) by exact He.
    assert (Hne' : String c' a' <> "") by congruence.
    rewrite app_cons. cbn [scan].
    destruct (forbidden c); [destruct st|]; rewrite IH by assumption;
      reflexivity.
Qed.

Lemma sanitize_run (a r b : string) :
  r <> "" -> string_forallb forbidden r = true ->
  ends_allowed a = true -> starts_allowed b = true ->
  sanitize (a +:+ r +:+ b) = sanitize a +:+ " " +:+ sanitize b.
Proof.
  intros Hr Hall Ha Hb. rewrite !sanitize_scan.
  assert (Hrun : scan false (r +:+ b) = " " +:+ scan false b).
  { destruct r as [|c r]; [congruence|]. cbn in Hall.
    apply andb_prop in Hall as [Hc Hall]. rewrite app_cons. cbn.
    rewrite Hc. now rewrite (scan_run true). }
  destruct a as [|c a]; [exact Hrun|].
  rewrite scan_app by (auto; congruence). now rewrite Hrun.
Qed.

(** ** One file written *)

Ltac run_M :=
  unfold mbind, M_bind, mret, M_ret, lift, logging, write_file, makedirs,
    path_exists; cbn [fst snd dirs files logged].

Lemma dumps_json_item_writes (L : libraries) (folder key : string)
    (save_yaml : bool) (item : pyval) (n txt out : string) (w : world) :
  json_dumps L item = Ok txt ->
  getitem item (PStr key) = Ok (PStr n) ->
  rendered L save_yaml txt = Ok out ->
  let filename := target L folder n (extension save_yaml "json") in
  dumps_json_item L folder key save_yaml item w
  = (Ok (), World (dirs w) (<[filename := out]> (files w))
              (logged w ++ [write_message filename])).
Proof.
  intros Hj Hg Hr. unfold dumps_json_item, rendered in *. run_M.
  rewrite Hj, Hg. cbn [re_sub_name]. destruct save_yaml.
  - rewrite Hr. reflexivity.
  - injection Hr as <-. reflexivity.
Qed.

Lemma dump_xml_writes (L : libraries) (folder txt n : string)
    (save_yaml : bool) (pretty out : string) (w : world) :
  toprettyxml L (strip_date txt) = Ok pretty ->
  rendered L save_yaml (unquote pretty) = Ok out ->
  let filename := target L folder n (extension save_yaml "xml") in
  dump_xml L folder txt (PStr n) save_yaml w
  = (Ok (), World (ensure_dir folder (dirs w)) (<[filename := out]> (files w))
              (logged w ++ [write_message filename])).
Proof.
  intros Hp Hr. unfold dump_xml, rendered, ensure_dir, unquote in *. run_M.
  destruct (bool_decide (folder ∈ dirs w)); cbn [negb dirs files logged];
    rewrite Hp; cbn [re_sub_name]; destruct save_yaml.
  all: try (rewrite Hr; reflexivity).
  all: injection Hr as <-; reflexivity.
Qed.

(** C1 (as amended). Sanitization, the same function in [dumps_json] and in
    [dump_xml]: the sanitized name contains no character of the class; a
    name without such characters is unchanged; a maximal run of such
    characters (the text before it does not end with one, the text after it
    does not start with one) becomes exactly one space; both paths write to
    the folder, the sanitized name and the extension.  The name [Host: ],
    double quote, [A], double quote, has three runs (the colon and each
    quote; the space between the colon and the first quote is an ordinary
    character), so it becomes [Host], three spaces, [A], one space. *)
Theorem sanitize_filename :
  (forall name, string_forallb allowed (sanitize name) = true) /\
  (forall name, string_forallb allowed name = true -> sanitize name = name) /\
  (forall a r b,
      r <> "" -> string_forallb forbidden r = true ->
      ends_allowed a = true -> starts_allowed b = true ->
      sanitize (a +:+ r +:+ b) = sanitize a +:+ " " +:+ sanitize b) /\
  sanitize host_a = "Host   A " /\
  (forall L folder key save_yaml item n txt out w,
      json_dumps L item = Ok txt ->
      getitem item (PStr key) = Ok (PStr n) ->
      rendered L save_yaml txt = Ok out ->
      files (snd (dumps_json_item L folder key save_yaml item w))
      = <[target L folder n (extension save_yaml "json") := out]> (files w)) /\
  (forall L folder txt n save_yaml pretty out w,
      toprettyxml L (strip_date txt) = Ok pretty ->
      rendered L save_yaml (unquote pretty) = Ok out ->
      files (snd (dump_xml L folder txt (PStr n) save_yaml w))
      = <[target L folder n (extension save_yaml "xml") := out]> (files w)).
Proof.
  split; [|split; [|split; [|split; [|split]]]].
  - intros name. rewrite sanitize_scan. apply scan_allowed.
  - intros name H. rewrite sanitize_scan. now apply scan_unchanged.
  - apply sanitize_run.
  - reflexivity.
  - intros L folder key save_yaml item n txt out w Hj Hg Hr.
    now rewrite (dumps_json_item_writes L folder key save_yaml item n txt out).
  - intros L folder txt n save_yaml pretty out w Hp Hr.
    now rewrite (dump_xml_writes L folder txt n save_yaml pretty out).
Qed.

Lemma sanitize_filename_witness :
  sanitize ("Template" +:+ "\/" +:+ "A") = sanitize "Template" +:+ " " +:+ sanitize "A"
  /\ sanitize "Template A" = "Template A".
Proof.
  destruct sanitize_filename as (_ & H2 & H3 & _). split.
  - apply H3; [discriminate|reflexivity|reflexivity|reflexivity].
  - apply H2. reflexivity.
Defined.

(** As stated C1 fails on its example: the name does not become
    [Host A]. *)
Lemma sanitize_host_a_is_not_Host_A : sanitize host_a <> "Host A".
Proof. discriminate. Qed.

(** ** The connection resolver *)

(** C7. For every URL, user name and password the resolver returns the
    client of the first attempt if that attempt succeeds, and then nothing
    of the second attempt happens; if the first attempt raises, its
    exception is logged and the second attempt is made, whose client is
    returned if it succeeds; if both raise, both exceptions have been logged,
    in order, and one exception, with the fixed message, is raised.  Files
    and directories are not touched. *)
Theorem get_zabbix_connection_first_success :
  forall (api : Type) (Z : zabbix_library api) (url user password : string)
         (w : world),
    get_zabbix_connection Z url user password w =
    match first_attempt Z url user password with
    | Ok zbx => (Ok zbx, with_log w [try_pyzabbix])
    | Raise e1 =>
        match second_attempt Z url user password with
        | Ok zbx =>
            (Ok zbx,
             with_log w [try_pyzabbix; LogException e1; try_py_zabbix])
        | Raise e2 =>
            (Raise (Exception fatal_message),
             with_log w [try_pyzabbix; LogException e1; try_py_zabbix;
                         LogException e2])
        end
    end.
Proof.
  intros api Z url user password w.
  unfold get_zabbix_connection, try_except, with_log. run_M.
  destruct (first_attempt Z url user password) as [zbx|e1]; [reflexivity|].
  destruct (second_attempt Z url user password) as [zbx|e2];
    cbn [dirs files logged]; rewrite <- ?List.app_assoc; reflexivity.
Qed.


(** ** [remove_none] *)

Lemma remove_none_list (l : list pyval) :
  remove_none (PList l) = PList (map remove_none (List.filter not_none l)).
Proof.
  cbn. f_equal. induction l as [|x r IH]; [reflexivity|].
  cbn. unfold not_none in *. destruct (is_none x); cbn; congruence.
Qed.

Lemma remove_none_tuple (l : list pyval) :
  remove_none (PTuple l) = PTuple (map remove_none (List.filter not_none l)).
Proof.
  cbn. f_equal. induction l as [|x r IH]; [reflexivity|].
  cbn. unfold not_none in *. destruct (is_none x); cbn; congruence.
Qed.

Lemma remove_none_set_unfold (l : list pyval) :
  remove_none (PSet l)
  = PSet (set_of_list (map remove_none (List.filter not_none l))).
Proof.
  cbn. do 2 f_equal. induction l as [|x r IH]; [reflexivity|].
  cbn. unfold not_none in *. destruct (is_none x); cbn; congruence.
Qed.


Lemma remove_none_dict_unfold (t : dict_type) (kvs : list item) :
  remove_none (PDict t kvs)
  = PDict t (dict_of_items (map strip_item (List.filter item_not_none kvs))).
Proof.
  cbn. do 2 f_equal. induction kvs as [|[k x] r IH]; [reflexivity|].
  cbn. unfold item_not_none, not_none in *. cbn [fst snd].
  destruct (is_none k), (is_none x); cbn; rewrite IH; reflexivity.
Qed.

Lemma is_none_remove_none (v : pyval) : is_none (remove_none v) = is_none v.
Proof. destruct v; reflexivity. Qed.

Lemma type_of_remove_none (v : pyval) : type_of (remove_none v) = type_of v.
Proof. destruct v; reflexivity. Qed.

Lemma remove_none_scalar (v : pyval) :
  is_container v = false -> remove_none v = v.
Proof. destruct v; try reflexivity; discriminate. Qed.

Lemma remove_none_falsy (v : pyval) : falsy v = true -> remove_none v = v.
Proof.
  destruct v as [| [|] | [| |] | [|] | [|] | [|] | [|] | t [|] ];
    try discriminate; reflexivity.
Qed.

(** Mappings and sets built from items and elements no two of which
    collide are these items and elements. *)

Lemma dict_set_fresh (k v : pyval) (kvs : list item) :
  forallb (fun k' => negb (key_eqb k' k)) (map fst kvs) = true ->
  dict_set k v kvs = kvs ++ [(k, v)].
Proof.
  induction kvs as [|[k' v'] r IH]; [reflexivity|]. cbn.
  intros H. apply andb_prop in H as [H1 H2].
  destruct (key_eqb k' k); [discriminate|]. now rewrite IH.
Qed.

Lemma distinct_app_cons (a : list pyval) (k : pyval) (r : list pyval) :
  distinct (a ++ k :: r) = true ->
  forallb (fun k' => negb (key_eqb k' k)) a = true
  /\ distinct ((a ++ [k]) ++ r) = true.
Proof.
  intros H. split.
  - induction a as [|x a IH]; [reflexivity|]. cbn in *.
    apply andb_prop in H as [H1 H2]. rewrite forallb_app in H1.
    apply andb_prop in H1 as [_ H1]. cbn in H1.
    apply andb_prop in H1 as [H1 _]. rewrite H1. auto.
  - now rewrite <- List.app_assoc.
Qed.

Lemma dict_of_items_distinct (items : list item) :
  distinct (map fst items) = true -> dict_of_items items = items.
Proof.
  unfold dict_of_items. change items with ([] ++ items) at 1 3.
  generalize (@nil item) as acc.
  induction items as [|[k v] r IH]; intros acc H.
  - now rewrite List.app_nil_r.
  - cbn [fold_left fst snd]. rewrite map_app in H. cbn [map fst] in H.
    apply distinct_app_cons in H as [Hk H].
    rewrite dict_set_fresh by exact Hk.
    rewrite IH.
    + now rewrite <- List.app_assoc.
    + now rewrite !map_app in *.
Qed.

Lemma set_of_list_distinct (xs : list pyval) :
  distinct xs = true -> set_of_list xs = xs.
Proof.
  unfold set_of_list. change xs with ([] ++ xs) at 1 3.
  generalize (@nil pyval) as acc.
  induction xs as [|x r IH]; intros acc H.
  - now rewrite List.app_nil_r.
  - cbn [fold_left]. apply distinct_app_cons in H as [Hx H].
    unfold set_add.
    assert (E : existsb (fun y => key_eqb y x) acc = false).
    { clear -Hx. induction acc as [|y acc IH]; [reflexivity|]. cbn in *.
      apply andb_prop in Hx as [H1 H2].
      destruct (key_eqb y x); [discriminate|]. auto. }
    rewrite E, IH by exact H. now rewrite <- List.app_assoc.
Qed.

(** What holds of all keys and of all values of the items holds of the
    keys and values of the mapping built from them. *)

Lemma dict_set_Forall (Pk Pv : pyval -> Prop) (k v : pyval)
    (kvs : list item) :
  Pk k -> Pv v -> Forall (fun kv => Pk (fst kv) /\ Pv (snd kv)) kvs ->
  Forall (fun kv => Pk (fst kv) /\ Pv (snd kv)) (dict_set k v kvs).
Proof.
  intros Hk Hv H. induction H as [|[k' v'] r [H1 H2] Hr IH]; cbn.
  - constructor; [split; assumption|constructor].
  - destruct (key_eqb k' k); constructor; auto.
Qed.

Lemma dict_of_items_Forall (Pk Pv : pyval -> Prop) (items : list item) :
  Forall (fun kv => Pk (fst kv) /\ Pv (snd kv)) items ->
  Forall (fun kv => Pk (fst kv) /\ Pv (snd kv)) (dict_of_items items).
Proof.
  unfold dict_of_items. intros H.
  cut (forall acc, Forall (fun kv => Pk (fst kv) /\ Pv (snd kv)) acc ->
         Forall (fun kv => Pk (fst kv) /\ Pv (snd kv))
           (fold_left (fun d kv => dict_set (fst kv) (snd kv) d) items acc)).
  { intros C. apply C. constructor. }
  induction H as [|[k v] r [H1 H2] Hr IH]; intros acc Hacc; [exact Hacc|].
  cbn [fold_left fst snd]. apply IH. now apply dict_set_Forall.
Qed.

Lemma set_of_list_Forall (P : pyval -> Prop) (xs : list pyval) :
  Forall P xs -> Forall P (set_of_list xs).
Proof.
  unfold set_of_list. intros H.
  cut (forall acc, Forall P acc ->
         Forall P (fold_left (fun s x => set_add x s) xs acc)).
  { intros C. apply C. constructor. }
  induction H as [|x r Hx Hr IH]; intros acc Hacc; [exact Hacc|].
  cbn [fold_left]. apply IH. unfold set_add.
  destruct (existsb _ acc); [exact Hacc|].
  apply Forall_app. split; [exact Hacc|]. constructor; [exact Hx|constructor].
Qed.


Lemma null_free_elements (l : list pyval) :
  Forall clean_object l ->
  forallb (fun x => not_none x && null_free x) l = true.
Proof.
  induction 1 as [|x r [H1 H2] Hr IH]; [reflexivity|]. cbn.
  now rewrite H1, H2, IH.
Qed.

Lemma clean_stripped (l : list pyval) :
  Forall (fun x => null_free (remove_none x) = true) l ->
  Forall clean_object (map remove_none (List.filter not_none l)).
Proof.
  induction 1 as [|x r Hx Hr IH]; [constructor|]. cbn.
  destruct (not_none x) eqn:E; [|exact IH]. cbn. constructor; [|exact IH].
  split; [|exact Hx]. unfold not_none in *. now rewrite is_none_remove_none.
Qed.

Lemma null_free_remove_none (v : pyval) : null_free (remove_none v) = true.
Proof.
  induction v as [| | | |l IH|l IH|l IH|t kvs IH] using pyval_ind;
    try reflexivity.
  - rewrite remove_none_list. cbn [null_free].
    apply null_free_elements, clean_stripped, IH.
  - rewrite remove_none_tuple. cbn [null_free].
    apply null_free_elements, clean_stripped, IH.
  - rewrite remove_none_set_unfold. cbn [null_free].
    apply null_free_elements, set_of_list_Forall, clean_stripped, IH.
  - rewrite remove_none_dict_unfold. cbn [null_free].
    assert (H : Forall (fun kv => clean_object (fst kv) /\ clean_object (snd kv))
                  (dict_of_items (map strip_item (List.filter item_not_none kvs)))).
    { apply dict_of_items_Forall.
      induction IH as [|[k' x'] r [H1 H2] Hr IHr]; [constructor|]. cbn.
      unfold item_not_none at 1. cbn [fst snd].
      destruct (not_none k') eqn:Ek, (not_none x') eqn:Ex; cbn; try exact IHr.
      constructor; [|exact IHr]. unfold clean_object, strip_item. cbn [fst snd].
      unfold not_none in *. rewrite !is_none_remove_none. auto. }
    apply forallb_forall. intros [k x] Hin.
    rewrite List.Forall_forall in H. destruct (H _ Hin) as [[H1 H2] [H3 H4]].
    cbn [fst snd] in *. now rewrite H1, H2, H3, H4.
Qed.

(** *** On JSON objects [remove_none] removes the null-valued entries *)

Lemma without_nulls_list (l : list pyval) :
  without_nulls (PList l) = PList (map without_nulls (List.filter not_none l)).
Proof.
  cbn. f_equal. induction l as [|x r IH]; [reflexivity|].
  cbn. unfold not_none in *. destruct (is_none x); cbn; rewrite IH; reflexivity.
Qed.


Lemma without_nulls_dict (t : dict_type) (kvs : list item) :
  without_nulls (PDict t kvs)
  = PDict t (map strip_value (List.filter keep_entry kvs)).
Proof.
  cbn. f_equal. induction kvs as [|[k x] r IH]; [reflexivity|].
  cbn. unfold keep_entry, not_none in *. cbn [snd].
  destruct (is_none x); cbn; rewrite IH; reflexivity.
Qed.

Lemma forallb_keys_filter (p : pyval -> bool) (f : item -> bool)
    (kvs : list item) :
  forallb p (map fst kvs) = true ->
  forallb p (map fst (List.filter f kvs)) = true.
Proof.
  induction kvs as [|kv r IH]; [reflexivity|]. cbn. intros H.
  apply andb_prop in H as [H1 H2]. destruct (f kv); cbn; [rewrite H1|]; auto.
Qed.

Lemma distinct_keys_filter (f : item -> bool) (kvs : list item) :
  distinct (map fst kvs) = true ->
  distinct (map fst (List.filter f kvs)) = true.
Proof.
  induction kvs as [|kv r IH]; [reflexivity|]. cbn. intros H.
  apply andb_prop in H as [H1 H2]. destruct (f kv); cbn; auto.
  rewrite forallb_keys_filter by exact H1. auto.
Qed.

Lemma remove_none_str_key (k : pyval) :
  is_str k = true -> remove_none k = k /\ not_none k = true.
Proof. destruct k; try discriminate. split; reflexivity. Qed.

Lemma json_entries (kvs : list item) :
  forallb (fun kv => let '(k, x) := kv in is_str k && is_json x) kvs = true ->
  Forall (fun kv => is_str (fst kv) = true /\ is_json (snd kv) = true) kvs.
Proof.
  induction kvs as [|[k x] r IH]; [constructor|]. cbn. intros H.
  apply andb_prop in H as [H1 H2]. apply andb_prop in H1 as [H0 H1].
  constructor; auto.
Qed.

Lemma json_elements (l : list pyval) :
  forallb is_json l = true -> Forall (fun x => is_json x = true) l.
Proof.
  induction l as [|x r IH]; [constructor|]. cbn. intros H.
  apply andb_prop in H as [H1 H2]. constructor; auto.
Qed.

Lemma keys_strip_value (kvs : list item) :
  map fst (map strip_value kvs) = map fst kvs.
Proof. induction kvs as [|kv r IH]; [reflexivity|]. cbn. now rewrite IH. Qed.

Lemma remove_none_json (v : pyval) :
  is_json v = true -> remove_none v = without_nulls v.
Proof.
  induction v as [| | | |l IH|l IH|l IH|t kvs IH] using pyval_ind;
    try reflexivity; try discriminate.
  - intros H. cbn [is_json] in H. apply json_elements in H.
    rewrite remove_none_list, without_nulls_list. f_equal.
    induction IH as [|x r Hx Hr IHr]; [reflexivity|].
    apply Forall_cons in H as [H1 H2]. cbn.
    destruct (not_none x); cbn; [rewrite Hx by exact H1|]; rewrite ?IHr; auto.
  - intros H. cbn [is_json] in H. apply andb_prop in H as [H Hd].
    apply json_entries in H.
    rewrite remove_none_dict_unfold, without_nulls_dict.
    assert (E : map strip_item (List.filter item_not_none kvs)
                = map strip_value (List.filter keep_entry kvs)).
    { clear Hd. induction IH as [|[k x] r [_ Hx] Hr IHr]; [reflexivity|].
      apply Forall_cons in H as [[Hk Hj] H2]. cbn [fst snd] in *.
      destruct (remove_none_str_key k Hk) as [Ek Nk]. cbn [List.filter].
      replace (item_not_none (k, x)) with (not_none x)
        by (unfold item_not_none; cbn [fst snd]; now rewrite Nk).
      replace (keep_entry (k, x)) with (not_none x) by reflexivity.
      destruct (not_none x); cbn [map].
      - unfold strip_item at 1, strip_value at 1. cbn [fst snd].
        rewrite Ek, Hx, IHr by assumption. reflexivity.
      - apply IHr. exact H2. }
    rewrite E, dict_of_items_distinct; [reflexivity|].
    rewrite keys_strip_value. now apply distinct_keys_filter.
Qed.

Lemma key_eqb_str_refl (k : pyval) : is_str k = true -> key_eqb k k = true.
Proof. destruct k; try discriminate. intros _. apply String.eqb_refl. Qed.

(** With distinct keys, of which [k] is a string, [k] has one value. *)
Lemma distinct_keys_functional (kvs : list item) (k x y : pyval) :
  distinct (map fst kvs) = true -> is_str k = true ->
  In (k, x) kvs -> In (k, y) kvs -> x = y.
Proof.
  intros Hd Hk. induction kvs as [|[k' x'] r IH]; [intros []|].
  cbn in Hd. apply andb_prop in Hd as [H1 H2].
  intros [E1|I1] [E2|I2].
  - congruence.
  - injection E1 as -> ->. exfalso.
    assert (Hin : In k (map fst r)) by (apply in_map_iff; exists (k, y); auto).
    rewrite forallb_forall in H1. specialize (H1 _ Hin).
    now rewrite key_eqb_str_refl in H1.
  - injection E2 as -> ->. exfalso.
    assert (Hin : In k (map fst r)) by (apply in_map_iff; exists (k, x); auto).
    rewrite forallb_forall in H1. specialize (H1 _ Hin).
    now rewrite key_eqb_str_refl in H1.
  - now apply IH.
Qed.

Lemma without_nulls_absent (t : dict_type) (kvs : list item) (k y : pyval) :
  is_json (PDict t kvs) = true -> In (k, PNone) kvs ->
  ~ In (k, y) (entries (without_nulls (PDict t kvs))).
Proof.
  intros Hj Hin Hy. rewrite without_nulls_dict in Hy. cbn [entries] in Hy.
  apply in_map_iff in Hy as [[k' x] [E Hx]]. apply filter_In in Hx as [Hx Hk].
  unfold strip_value in E. cbn [fst snd] in E. injection E as -> _.
  cbn [is_json] in Hj. apply andb_prop in Hj as [Hj Hd].
  apply json_entries in Hj. rewrite List.Forall_forall in Hj.
  destruct (Hj _ Hin) as [Hs _]. cbn [fst] in Hs.
  rewrite (distinct_keys_functional kvs k x PNone Hd Hs Hx Hin) in Hk.
  discriminate.
Qed.

Lemma without_nulls_retained (t : dict_type) (kvs : list item) (k x : pyval) :
  In (k, x) kvs -> x <> PNone ->
  In (k, without_nulls x) (entries (without_nulls (PDict t kvs))).
Proof.
  intros Hin Hx. rewrite without_nulls_dict. cbn [entries].
  apply in_map_iff. exists (k, x). split; [reflexivity|].
  apply filter_In. split; [exact Hin|]. destruct x; try reflexivity.
  congruence.
Qed.

(** C3. On the yaml path the text is parsed, [remove_none] is applied and
    the result is rendered.  For the object [raw] the parser returns (a
    JSON object) what is rendered is [raw] without its null-valued entries:
    no null is left at any depth; in every mapping a key whose value is
    null is absent and every other entry is retained, its value stripped in
    turn.  With [save_yaml] unset both paths write the text without parsing
    or stripping it; with [save_yaml] set they write the rendering of the
    stripped object. *)
Theorem null_stripping_on_yaml_path :
  forall (L : libraries) (txt : string) (raw : pyval),
    anymarkup_parse L txt = Ok raw -> is_json raw = true ->
    convert_to_object_without_none L txt = yaml_dump L (without_nulls raw) /\
    null_free (without_nulls raw) = true /\
    (forall t kvs, is_json (PDict t kvs) = true ->
       remove_none (PDict t kvs) = without_nulls (PDict t kvs) /\
       (forall k y, In (k, PNone) kvs ->
          ~ In (k, y) (entries (without_nulls (PDict t kvs)))) /\
       (forall k x, In (k, x) kvs -> x <> PNone ->
          In (k, without_nulls x) (entries (without_nulls (PDict t kvs))))) /\
    (forall folder key item n out w,
       json_dumps L item = Ok out -> getitem item (PStr key) = Ok (PStr n) ->
       files (snd (dumps_json_item L folder key false item w))
       = <[target L folder n "json" := out]> (files w)) /\
    (forall folder doc n pretty w,
       toprettyxml L (strip_date doc) = Ok pretty ->
       files (snd (dump_xml L folder doc (PStr n) false w))
       = <[target L folder n "xml" := unquote pretty]> (files w)) /\
    (forall folder key item n out w,
       json_dumps L item = Ok txt -> getitem item (PStr key) = Ok (PStr n) ->
       yaml_dump L (without_nulls raw) = Ok out ->
       files (snd (dumps_json_item L folder key true item w))
       = <[target L folder n "yaml" := out]> (files w)) /\
    (forall folder doc n pretty out w,
       toprettyxml L (strip_date doc) = Ok pretty -> unquote pretty = txt ->
       yaml_dump L (without_nulls raw) = Ok out ->
       files (snd (dump_xml L folder doc (PStr n) true w))
       = <[target L folder n "yaml" := out]> (files w)).
Proof.
  intros L txt raw Hp Hj.
  assert (Hc : convert_to_object_without_none L txt
               = yaml_dump L (without_nulls raw)).
  { unfold convert_to_object_without_none. rewrite Hp. cbn.
    now rewrite remove_none_json. }
  split; [exact Hc|]. split.
  { rewrite <- remove_none_json by exact Hj. apply null_free_remove_none. }
  split.
  { intros t kvs Hd. split; [now apply remove_none_json|]. split.
    - intros k y. now apply without_nulls_absent.
    - intros k x. apply without_nulls_retained. }
  split.
  { intros folder key item n out w H1 H2.
    now rewrite (dumps_json_item_writes L folder key false item n out out). }
  split.
  { intros folder doc n pretty w H1.
    now rewrite (dump_xml_writes L folder doc n false pretty (unquote pretty)). }
  split.
  { intros folder key item n out w H1 H2 H3.
    rewrite (dumps_json_item_writes L folder key true item n txt out); auto.
    unfold rendered. now rewrite Hc. }
  intros folder doc n pretty out w H1 H2 H3.
  rewrite (dump_xml_writes L folder doc n true pretty out); auto.
  unfold rendered. now rewrite H2, Hc.
Qed.

Lemma null_stripping_on_yaml_path_witness :
  convert_to_object_without_none (demo_libraries demo_action) "{}"
  = Ok (repr (without_nulls demo_action)) /\
  null_free (without_nulls demo_action) = true.
Proof.
  destruct (null_stripping_on_yaml_path (demo_libraries demo_action) "{}"
              demo_action eq_refl eq_refl) as (H1 & H2 & _).
  split; [exact H1|exact H2].
Defined.

(** C10 (as amended).  On the objects built from [None], booleans,
    integers and strings with lists, tuples, sets and mappings of the exact
    builtin types ([dict] and [OrderedDict] for the mappings),
    [remove_none] returns what is not a container unchanged, keeps the type
    of a container, and keeps the values Python takes for false other than
    null (they are their own image).  Of a list or a tuple it removes
    exactly the null elements, and strips the others in turn.  Of a set or
    a mapping it removes exactly the null elements, or the items with a
    null key or a null value, and strips the others in turn, provided no
    two of the stripped elements, or of the stripped keys, are equal. *)
Theorem remove_none_removes_nulls :
  (forall v, is_container v = false -> remove_none v = v) /\
  (forall v, type_of (remove_none v) = type_of v) /\
  (forall v, falsy v = true -> remove_none v = v) /\
  (forall l,
      remove_none (PList l) = PList (map remove_none (List.filter not_none l))) /\
  (forall l,
      remove_none (PTuple l)
      = PTuple (map remove_none (List.filter not_none l))) /\
  (forall l,
      distinct (map remove_none (List.filter not_none l)) = true ->
      remove_none (PSet l) = PSet (map remove_none (List.filter not_none l))) /\
  (forall t kvs,
      distinct (map fst (map strip_item (List.filter item_not_none kvs))) = true ->
      remove_none (PDict t kvs)
      = PDict t (map strip_item (List.filter item_not_none kvs))).
Proof.
  split; [exact remove_none_scalar|]. split; [exact type_of_remove_none|].
  split; [exact remove_none_falsy|].
  split; [exact remove_none_list|]. split; [exact remove_none_tuple|]. split.
  - intros l H. rewrite remove_none_set_unfold. f_equal.
    now apply set_of_list_distinct.
  - intros t kvs H. rewrite remove_none_dict_unfold. f_equal.
    now apply dict_of_items_distinct.
Qed.

Lemma remove_none_removes_nulls_witness :
  remove_none (PDict OrderedDict falsy_values)
  = PDict OrderedDict
      [(PStr "a", PInt 0); (PInt 3, PStr "");
       (PTuple [], PList [PBool false])].
Proof.
  destruct remove_none_removes_nulls as (_ & _ & _ & _ & _ & _ & H).
  exact (H OrderedDict falsy_values eq_refl).
Defined.

(** As stated C10 fails, on these same objects, where stripping makes
    two keys equal: the empty tuple and the tuple that holds only a null are
    different keys of a [dict]; once stripped (line 28 strips the keys too)
    they are the same key, and the value 0 of the first, which Python takes
    for false and which is not null, is lost. *)
Lemma remove_none_loses_falsy_value :
  let d := [(PTuple [], PInt 0); (PTuple [PNone], PInt 1)] in
  distinct (map fst d) = true /\
  dict_get (PTuple []) d = Some (PInt 0) /\
  falsy (PInt 0) = true /\ is_none (PInt 0) = false /\
  remove_none (PDict Dict d) = PDict Dict [(PTuple [], PInt 1)].
Proof. repeat split. Qed.

(** ** [order_data] *)

Lemma order_data_dict (t : dict_type) (kvs : list item) :
  order_data (PDict t kvs)
  = (kvs' ← order_values kvs; s ← sorted_items kvs'; Ok (PDict OrderedDict s)).
Proof. reflexivity. Qed.

Lemma order_data_list_eq (l : list pyval) :
  order_data (PList l) = (l' ← order_elements l; Ok (PList l')).
Proof. reflexivity. Qed.

(** *** The order of strings *)

Lemma ltb_lt (a b : string) : String.ltb a b = true <-> String.compare a b = Lt.
Proof. unfold String.ltb. destruct (String.compare a b); split; congruence. Qed.

Lemma ltb_irrefl (a : string) : String.ltb a a = false.
Proof.
  destruct (String.ltb a a) eqn:E; [|reflexivity]. apply ltb_lt in E.
  pose proof (String.compare_antisym a a) as H. rewrite E in H. discriminate.
Qed.

Lemma ltb_asym (a b : string) :
  String.ltb a b = true -> String.ltb b a = false.
Proof.
  intros H. apply ltb_lt in H. unfold String.ltb.
  rewrite String.compare_antisym, H. reflexivity.
Qed.

Lemma ltb_leb (a b : string) : String.ltb a b = true -> String.leb a b = true.
Proof.
  intros H. apply ltb_lt in H. unfold String.leb. now rewrite H.
Qed.

Lemma leb_ltb (a b : string) :
  String.leb a b = true -> a <> b -> String.ltb a b = true.
Proof.
  intros H Hne. unfold String.leb in H. unfold String.ltb.
  destruct (String.compare a b) eqn:E;
    [apply String.compare_eq_iff in E; congruence|reflexivity|discriminate].
Qed.

Lemma ltb_trans (a b c : string) :
  String.ltb a b = true -> String.ltb b c = true -> String.ltb a c = true.
Proof.
  intros H1 H2. apply leb_ltb.
  - apply Is_true_true. apply (@transitivity _ String.le _ a b c);
      apply Is_true_true; now apply ltb_leb.
  - intros ->. apply ltb_asym in H1. congruence.
Qed.

Lemma ltb_total (a b : string) :
  a <> b -> String.ltb b a = false -> String.ltb a b = true.
Proof.
  intros Hne H. unfold String.ltb in *. rewrite String.compare_antisym in H.
  destruct (String.compare a b) eqn:E;
    [apply String.compare_eq_iff in E; congruence|reflexivity|discriminate].
Qed.

(** *** Sorting items whose keys are strings *)

Lemma key_lt_str (a b : pyval) :
  is_str a = true -> is_str b = true -> key_lt a b = Ok (str_ltb a b).
Proof. destruct a, b; try discriminate. reflexivity. Qed.

Lemma item_lt_trans (x y z : item) : item_lt x y -> item_lt y z -> item_lt x z.
Proof.
  unfold item_lt, str_ltb. destruct (fst x), (fst y), (fst z); try discriminate.
  apply ltb_trans.
Qed.

Lemma item_lt_asym (x y : item) : item_lt x y -> item_lt y x -> False.
Proof.
  unfold item_lt, str_ltb. destruct (fst x), (fst y); try discriminate.
  intros H1 H2. apply ltb_asym in H1. congruence.
Qed.

Lemma item_lt_total (x y : item) :
  str_key x -> str_key y -> fst y <> fst x ->
  str_ltb (fst y) (fst x) = false -> item_lt x y.
Proof.
  unfold item_lt, str_key, str_ltb.
  destruct (fst x), (fst y); try discriminate. intros _ _ Hne H.
  apply ltb_total; congruence.
Qed.

Lemma insert_item_ok (x : item) (l : list item) :
  str_key x -> Forall str_key l ->
  exists r,
    insert_item x l = Ok r /\ Permutation (x :: l) r /\
    (StronglySorted item_lt l -> Forall (fun y => fst y <> fst x) l ->
     StronglySorted item_lt r).
Proof.
  intros Hx Hl. induction Hl as [|y l Hy Hl IH].
  - exists [x]. repeat split; auto. intros _ _. repeat constructor.
  - cbn [insert_item]. rewrite key_lt_str by assumption. cbn.
    destruct (str_ltb (fst y) (fst x)) eqn:E.
    + destruct IH as (r & Hr & Hp & Hs). rewrite Hr. cbn.
      exists (y :: r). split; [reflexivity|]. split.
      * rewrite perm_swap. now constructor.
      * intros Hsort Hne. apply StronglySorted_inv in Hsort as [Hs1 Hs2].
        apply Forall_cons in Hne as [_ Hne]. constructor; [auto|].
        eapply Permutation_Forall; [exact Hp|]. constructor; assumption.
    + exists (x :: y :: l). split; [reflexivity|]. split; [reflexivity|].
      intros Hsort Hne. apply Forall_cons in Hne as [Hne _].
      assert (Hxy : item_lt x y) by now apply item_lt_total.
      constructor; [exact Hsort|]. constructor; [exact Hxy|].
      apply StronglySorted_inv in Hsort as [_ Hs2].
      eapply Forall_impl; [exact Hs2|]. intros z Hz.
      eapply item_lt_trans; eassumption.
Qed.

Lemma distinct_head (k : pyval) (ks : list pyval) :
  is_str k = true -> distinct (k :: ks) = true ->
  Forall (fun k' => k' <> k) ks /\ distinct ks = true.
Proof.
  intros Hk H. cbn in H. apply andb_prop in H as [H1 H2]. split; [|exact H2].
  apply List.Forall_forall. intros k' Hin ->. rewrite forallb_forall in H1.
  specialize (H1 _ Hin). now rewrite key_eqb_str_refl in H1.
Qed.

Lemma sorted_items_ok (l : list item) :
  Forall str_key l -> distinct (map fst l) = true ->
  exists s,
    sorted_items l = Ok s /\ Permutation l s /\ StronglySorted item_lt s.
Proof.
  intros Hl. induction Hl as [|x l Hx Hl IH]; intros Hd.
  - exists []. repeat split; constructor.
  - cbn [map] in Hd. apply distinct_head in Hd as [Hne Hd]; [|exact Hx].
    destruct (IH Hd) as (s & Hs & Hp & Hsort).
    destruct (insert_item_ok x s Hx) as (r & Hr & Hpr & Hsr).
    { eapply Permutation_Forall; eassumption. }
    exists r. cbn [sorted_items]. rewrite Hs. cbn. split; [exact Hr|]. split.
    + rewrite <- Hpr. now constructor.
    + apply Hsr; [exact Hsort|]. eapply Permutation_Forall; [exact Hp|].
      apply List.Forall_forall. intros y Hy.
      rewrite List.Forall_forall in Hne. apply Hne. now apply in_map.
Qed.

(** Two sorted lists with the same items are the same list. *)
Lemma sorted_unique (l1 l2 : list item) :
  StronglySorted item_lt l1 -> StronglySorted item_lt l2 ->
  Permutation l1 l2 -> l1 = l2.
Proof.
  intros H1. revert l2. induction H1 as [|x l1 Hs1 IH Hx]; intros l2 H2 Hp.
  - apply Permutation_nil in Hp. now subst.
  - destruct H2 as [|y l2 Hs2 Hy].
    + apply Permutation_sym, Permutation_nil in Hp. discriminate.
    + assert (E : x = y).
      { assert (Hin1 : In x (y :: l2))
          by (eapply Permutation_in; [exact Hp|now left]).
        assert (Hin2 : In y (x :: l1))
          by (eapply Permutation_in; [symmetry; exact Hp|now left]).
        destruct Hin1 as [->|Hin1]; [reflexivity|].
        destruct Hin2 as [->|Hin2]; [reflexivity|]. exfalso.
        rewrite List.Forall_forall in Hx, Hy.
        exact (item_lt_asym x y (Hx _ Hin2) (Hy _ Hin1)). }
      subst y. f_equal. apply IH; [exact Hs2|].
      eapply Permutation_cons_inv; exact Hp.
Qed.

(** A sorted list is left as it is. *)
Lemma sorted_items_sorted (s : list item) :
  Forall str_key s -> StronglySorted item_lt s -> sorted_items s = Ok s.
Proof.
  intros Hk Hs. induction Hs as [|x s Hs IH Hx]; [reflexivity|].
  apply Forall_cons in Hk as [Hkx Hk]. cbn [sorted_items]. rewrite IH by exact Hk.
  cbn. destruct s as [|y s]; [reflexivity|]. cbn [insert_item].
  apply Forall_cons in Hk as [Hky _]. rewrite key_lt_str by assumption. cbn.
  apply Forall_cons in Hx as [Hxy _].
  destruct (str_ltb (fst y) (fst x)) eqn:E; [|reflexivity].
  exfalso. exact (item_lt_asym x y Hxy E).
Qed.

Lemma ascending_sorted (s : list item) :
  Forall str_key s -> StronglySorted item_lt s -> ascending (map fst s) = true.
Proof.
  intros Hk Hs. induction Hs as [|x s Hs IH Hx]; [reflexivity|].
  apply Forall_cons in Hk as [Hkx Hk]. specialize (IH Hk).
  unfold str_key in Hkx. destruct x as [kx vx]. cbn [fst map] in *.
  destruct kx; try discriminate. destruct s as [|[ky vy] s]; [reflexivity|].
  apply Forall_cons in Hx as [Hxy _]. apply Forall_cons in Hk as [Hky _].
  unfold str_key, item_lt in *. cbn [fst map] in *.
  destruct ky; try discriminate. cbn [str_ltb] in Hxy.
  cbn [ascending]. cbn [ascending] in IH. now rewrite Hxy, IH.
Qed.

Lemma item_lt_neq (x y : item) : item_lt x y -> key_eqb (fst x) (fst y) = false.
Proof.
  unfold item_lt, str_ltb. destruct (fst x), (fst y); try discriminate.
  intros H. cbn. apply String.eqb_neq. intros ->. now rewrite ltb_irrefl in H.
Qed.

Lemma distinct_sorted (s : list item) :
  StronglySorted item_lt s -> distinct (map fst s) = true.
Proof.
  induction 1 as [|x s Hs IH Hx]; [reflexivity|]. cbn. rewrite IH.
  rewrite andb_true_r. apply forallb_forall. intros k Hin.
  apply in_map_iff in Hin as [y [<- Hy]]. rewrite List.Forall_forall in Hx.
  now rewrite item_lt_neq by auto.
Qed.

Lemma dict_get_In (kvs : list item) (k y : pyval) :
  distinct (map fst kvs) = true -> is_str k = true ->
  In (k, y) kvs -> dict_get k kvs = Some y.
Proof.
  intros Hd Hk. induction kvs as [|[k' y'] r IH]; [intros []|].
  cbn [map fst] in Hd. cbn in Hd. apply andb_prop in Hd as [H1 H2].
  intros [E|Hin]; cbn [dict_get].
  - injection E as -> ->. now rewrite key_eqb_str_refl.
  - rewrite forallb_forall in H1.
    assert (Hk' : In k (map fst r)) by (apply in_map_iff; exists (k, y); auto).
    specialize (H1 _ Hk'). destruct (key_eqb k' k); [discriminate|]. auto.
Qed.

Lemma dict_get_Some (kvs : list item) (k y : pyval) :
  Forall str_key kvs -> is_str k = true ->
  dict_get k kvs = Some y -> In (k, y) kvs.
Proof.
  intros Hs Hk. induction Hs as [|[k' y'] r Hk' Hr IH]; [discriminate|].
  cbn [dict_get]. destruct (key_eqb k' k) eqn:E.
  - intros [= ->]. left. unfold str_key in Hk'. cbn [fst] in Hk'.
    destruct k', k; try discriminate. cbn in E.
    apply String.eqb_eq in E. now subst.
  - intros H. right. auto.
Qed.

Lemma same_data_list (l l' : list pyval) :
  Forall2 (fun x o => same_data x o = true) l l' ->
  same_data (PList l) (PList l') = true.
Proof.
  intros H. cbn [same_data]. induction H as [|x o l l' Hx Hl IH]; [reflexivity|].
  now rewrite Hx, IH.
Qed.

Lemma same_data_dict (t t' : dict_type) (kvs kvs' : list item) :
  same_data (PDict t kvs) (PDict t' kvs') = true <->
  List.length kvs = List.length kvs' /\
  Forall (fun kv => exists y,
            dict_get (fst kv) kvs' = Some y /\ same_data (snd kv) y = true) kvs.
Proof.
  cbn [same_data]. rewrite andb_true_iff, Nat.eqb_eq.
  apply and_iff_compat_l.
  induction kvs as [|[k x] r IH].
  - split; [constructor|reflexivity].
  - rewrite andb_true_iff, IH, Forall_cons. cbn [fst snd].
    apply and_iff_compat_r. destruct (dict_get k kvs') as [y|].
    + split; [eauto|]. now intros (y' & [= <-] & H).
    + split; [discriminate|]. now intros (y' & [=] & _).
Qed.

Lemma order_elements_ok (l : list pyval) :
  Forall (fun x => is_json x = true -> exists o, ordered x o) l ->
  Forall (fun x => is_json x = true) l ->
  exists l', order_elements l = Ok l' /\ Forall2 ordered l l'.
Proof.
  induction 1 as [|x r Hx Hr IH]; intros Hj.
  - exists []. split; [reflexivity|constructor].
  - apply Forall_cons in Hj as [Hjx Hj]. destruct (Hx Hjx) as [o Ho].
    destruct (IH Hj) as (r' & Er & Hr'). exists (o :: r').
    cbn [order_elements]. destruct Ho as [Eo Ho]. rewrite Eo, Er.
    split; [reflexivity|]. constructor; [split; assumption|assumption].
Qed.

Lemma order_values_ok (kvs : list item) :
  Forall (fun kv => is_json (snd kv) = true -> exists o, ordered (snd kv) o)
    kvs ->
  Forall (fun kv => is_json (snd kv) = true) kvs ->
  exists kvs', order_values kvs = Ok kvs' /\ Forall2 ordered_item kvs kvs'.
Proof.
  induction 1 as [|[k x] r Hx Hr IH]; intros Hj.
  - exists []. split; [reflexivity|constructor].
  - apply Forall_cons in Hj as [Hjx Hj]. destruct (Hx Hjx) as [o Ho].
    destruct (IH Hj) as (r' & Er & Hr'). exists ((k, o) :: r').
    cbn [order_values]. cbn [snd] in Ho. destruct Ho as [Eo Ho].
    rewrite Eo, Er. split; [reflexivity|].
    constructor; [split; [reflexivity|split; assumption]|assumption].
Qed.

Lemma ordered_items_keys (kvs kvs' : list item) :
  Forall2 ordered_item kvs kvs' -> map fst kvs' = map fst kvs.
Proof.
  induction 1 as [|kv kv' r r' [E _] _ IH]; [reflexivity|]. cbn. congruence.
Qed.

Lemma json_dict_intro (t : dict_type) (s : list item) :
  Forall (fun kv => is_str (fst kv) = true /\ is_json (snd kv) = true) s ->
  distinct (map fst s) = true -> is_json (PDict t s) = true.
Proof.
  intros H Hd. cbn [is_json]. rewrite Hd, andb_true_r. clear Hd.
  induction H as [|[k x] r [H1 H2] Hr IH]; [reflexivity|]. cbn.
  cbn [fst snd] in *. now rewrite H1, H2, IH.
Qed.

Lemma keys_sorted_values (s : list item) :
  Forall (fun kv => keys_sorted (snd kv) = true) s ->
  forallb (fun kv => let '(_, x) := kv in keys_sorted x) s = true.
Proof.
  induction 1 as [|[k x] r H Hr IH]; [reflexivity|]. cbn. cbn [snd] in H.
  now rewrite H, IH.
Qed.

Lemma Forall2_partner {A B} (R : A -> B -> Prop) (l : list A) (l' : list B) :
  Forall2 R l l' -> Forall (fun x => exists y, In y l' /\ R x y) l.
Proof.
  induction 1 as [|x y l l' Hxy Hl IH]; constructor.
  - exists y. split; [now left|exact Hxy].
  - eapply Forall_impl; [exact IH|]. intros x' (y' & Hy' & HR).
    exists y'. split; [now right|exact HR].
Qed.

Lemma Forall_and {A} (P Q : A -> Prop) (l : list A) :
  Forall P l -> Forall Q l -> Forall (fun x => P x /\ Q x) l.
Proof.
  induction 1 as [|x l Hx Hl IH]; intros HQ; [constructor|].
  apply Forall_cons in HQ as [Hq HQ]. constructor; auto.
Qed.

Lemma order_data_json (v : pyval) :
  is_json v = true -> exists o, ordered v o.
Proof.
  induction v as [| |n|s|l IH|l IH|l IH|t kvs IH] using pyval_ind; intros Hj;
    try discriminate.
  - exists PNone. repeat split.
  - exists (PBool b). unfold ordered. cbn. now rewrite Bool.eqb_reflx.
  - exists (PInt n). unfold ordered. cbn. now rewrite Z.eqb_refl.
  - exists (PStr s). unfold ordered. cbn. now rewrite String.eqb_refl.
  - cbn [is_json] in Hj. apply json_elements in Hj.
    destruct (order_elements_ok l IH Hj) as (l' & El & Hl).
    exists (PList l'). unfold ordered. rewrite order_data_list_eq, El.
    split; [reflexivity|].
    assert (H : Forall (fun o => is_json o = true /\ keys_sorted o = true) l').
    { clear El. induction Hl as [|x o r r' (_ & H1 & H2 & _) _ IHr];
        constructor; [split; assumption|apply IHr].
      - now apply Forall_cons in IH as [_ IH].
      - now apply Forall_cons in Hj as [_ Hj]. }
    split; [|split].
    + cbn [is_json]. apply forallb_forall. rewrite List.Forall_forall in H.
      intros o Ho. now apply H.
    + cbn [keys_sorted]. apply forallb_forall. rewrite List.Forall_forall in H.
      intros o Ho. now apply H.
    + apply same_data_list. eapply Forall2_impl; [exact Hl|].
      now intros x o (_ & _ & _ & H4).
  - cbn [is_json] in Hj. apply andb_prop in Hj as [Hj Hd].
    apply json_entries in Hj.
    assert (IH' : Forall (fun kv => is_json (snd kv) = true ->
                            exists o, ordered (snd kv) o) kvs).
    { eapply Forall_impl; [exact IH|]. now intros kv [_ H]. }
    assert (Hj' : Forall (fun kv => is_json (snd kv) = true) kvs).
    { eapply Forall_impl; [exact Hj|]. now intros kv [_ H]. }
    destruct (order_values_ok kvs IH' Hj') as (kvs' & Ev & Hv).
    pose proof (ordered_items_keys _ _ Hv) as Hkeys.
    assert (Hstr' : Forall str_key kvs').
    { clear -Hv Hj. induction Hv as [|kv kv' r r' [E _] _ IHr]; [constructor|].
      apply Forall_cons in Hj as [[Hs _] Hj]. constructor; [|auto].
      unfold str_key. now rewrite <- E. }
    destruct (sorted_items_ok kvs' Hstr') as (s & Es & Hp & Hs).
    { now rewrite Hkeys. }
    exists (PDict OrderedDict s). unfold ordered.
    rewrite order_data_dict, Ev. cbn [mbind result_bind]. rewrite Es.
    split; [reflexivity|].
    assert (Hall : Forall (fun kv => is_str (fst kv) = true
                             /\ is_json (snd kv) = true
                             /\ keys_sorted (snd kv) = true) s).
    { eapply Permutation_Forall; [exact Hp|]. clear -Hv Hstr'.
      induction Hv as [|kv kv' r r' [_ (_ & H1 & H2 & _)] _ IHr];
        [constructor|].
      apply Forall_cons in Hstr' as [Hk Hr]. constructor; auto. }
    assert (Hds : distinct (map fst s) = true) by now apply distinct_sorted.
    split; [|split].
    + apply json_dict_intro; [|exact Hds].
      eapply Forall_impl; [exact Hall|]. now intros kv (H1 & H2 & _).
    + cbn [keys_sorted]. rewrite ascending_sorted.
      * cbn. apply keys_sorted_values.
        eapply Forall_impl; [exact Hall|]. now intros kv (_ & _ & H3).
      * eapply Permutation_Forall; eassumption.
      * exact Hs.
    + apply (proj2 (same_data_dict t OrderedDict kvs s)). split.
      * transitivity (List.length kvs');
          [exact (Forall2_length _ _ _ Hv)|exact (Permutation_length Hp)].
      * eapply Forall_impl;
          [exact (Forall_and _ _ _ Hj (Forall2_partner _ _ _ Hv))|].
        intros kv [[Hk _] (kv' & Hin & E & Ho)]. exists (snd kv').
        split; [|apply Ho]. apply dict_get_In; [exact Hds|exact Hk|].
        eapply Permutation_in; [exact Hp|]. rewrite E. now destruct kv'.
Qed.

(** The steps of [order_data] on a JSON mapping. *)
Lemma order_dict_steps (t : dict_type) (kvs : list item) :
  is_json (PDict t kvs) = true ->
  exists kvs' s,
    order_values kvs = Ok kvs' /\ Forall2 ordered_item kvs kvs' /\
    sorted_items kvs' = Ok s /\ Permutation kvs' s /\
    StronglySorted item_lt s /\ Forall str_key kvs' /\
    order_data (PDict t kvs) = Ok (PDict OrderedDict s).
Proof.
  intros Hj. cbn [is_json] in Hj. apply andb_prop in Hj as [Hj Hd].
  apply json_entries in Hj.
  destruct (order_values_ok kvs) as (kvs' & Ev & Hv).
  { eapply Forall_impl; [exact Hj|]. intros kv [_ H] _.
    now apply order_data_json. }
  { eapply Forall_impl; [exact Hj|]. now intros kv [_ H]. }
  assert (Hstr' : Forall str_key kvs').
  { clear -Hv Hj. induction Hv as [|kv kv' r r' [E _] _ IHr]; [constructor|].
    apply Forall_cons in Hj as [[Hs _] Hj]. constructor; [|auto].
    unfold str_key. now rewrite <- E. }
  destruct (sorted_items_ok kvs' Hstr') as (s & Es & Hp & Hs).
  { now rewrite (ordered_items_keys _ _ Hv). }
  exists kvs', s. repeat split; try assumption.
  rewrite order_data_dict, Ev. cbn [mbind result_bind]. now rewrite Es.
Qed.

Lemma distinct_NoDup (ks : list pyval) :
  Forall (fun k => is_str k = true) ks -> distinct ks = true -> NoDup ks.
Proof.
  induction 1 as [|k ks Hk Hks IH]; intros Hd.
  - pose proof (@NoDup_nil_2 pyval). assumption.
  - apply distinct_head in Hd as [Hne Hd]; [|exact Hk].
    apply NoDup_cons_2; [|auto]. intros Hin%list_elem_of_In.
    rewrite List.Forall_forall in Hne. now apply (Hne k).
Qed.

Lemma same_data_list_inv (l m : list pyval) :
  same_data (PList l) (PList m) = true ->
  Forall2 (fun x y => same_data x y = true) l m.
Proof.
  cbn [same_data]. revert m.
  induction l as [|x l IH]; intros [|y m] H; try discriminate; constructor.
  - now apply andb_prop in H as [H _].
  - apply IH. now apply andb_prop in H as [_ H].
Qed.

Lemma NoDup_keys (kvs : list item) : NoDup (map fst kvs) -> NoDup kvs.
Proof.
  induction kvs as [|kv r IH]; intros H; [constructor|]. cbn in H.
  apply NoDup_cons in H as [H1 H2]. constructor; [|auto].
  intros Hin. apply H1. apply list_elem_of_In, in_map, list_elem_of_In, Hin.
Qed.

Lemma ordered_items_source (kvs kvs' : list item) (k o : pyval) :
  Forall2 ordered_item kvs kvs' -> In (k, o) kvs' ->
  exists x, In (k, x) kvs /\ order_data x = Ok o.
Proof.
  induction 1 as [|kv kv' r r' [E Ho] _ IH]; [intros []|].
  intros [->|Hin].
  - exists (snd kv). cbn [fst snd] in *. split; [|apply Ho].
    left. rewrite <- E. now destruct kv.
  - destruct (IH Hin) as (x & Hx & Eo). exists x. split; [now right|exact Eo].
Qed.

Lemma ordered_items_image (kvs kvs' : list item) (k x o : pyval) :
  Forall2 ordered_item kvs kvs' -> In (k, x) kvs -> order_data x = Ok o ->
  In (k, o) kvs'.
Proof.
  induction 1 as [|kv kv' r r' [E Ho] _ IH]; [intros []|].
  intros [->|Hin] Eo.
  - left. cbn [fst snd] in *. destruct Ho as [Eo' _]. rewrite Eo in Eo'.
    injection Eo' as ->. rewrite E. now destruct kv'.
  - right. now apply IH.
Qed.

(** Objects with the same data up to the order of the keys are ordered
    alike. *)
Lemma order_data_same (a : pyval) :
  forall b, is_json a = true -> is_json b = true -> same_data a b = true ->
            order_data a = order_data b.
Proof.
  induction a as [|b0|n|s|l IH|l IH|l IH|t kvs IH] using pyval_ind;
    intros b Ha Hb Hs; try discriminate.
  - destruct b; try discriminate. reflexivity.
  - destruct b as [|b'| | | | | |]; try discriminate. cbn in Hs.
    apply Bool.eqb_prop in Hs. now subst.
  - destruct b as [| |m| | | | |]; try discriminate. cbn in Hs.
    apply Z.eqb_eq in Hs. now subst.
  - destruct b as [| | |s'| | | |]; try discriminate. cbn in Hs.
    apply String.eqb_eq in Hs. now subst.
  - destruct b as [| | | |m| | |]; try discriminate.
    apply same_data_list_inv in Hs. cbn [is_json] in Ha, Hb.
    apply json_elements in Ha. apply json_elements in Hb.
    rewrite !order_data_list_eq. f_equal.
    induction Hs as [|x y l m Hxy Hlm IHlm]; [reflexivity|].
    apply Forall_cons in IH as [IHx IH]. apply Forall_cons in Ha as [Hax Ha].
    apply Forall_cons in Hb as [Hby Hb]. cbn [order_elements].
    rewrite (IHx y Hax Hby Hxy), (IHlm IH Ha Hb). reflexivity.
  - destruct b as [| | | | | | |t' kvs2]; try discriminate.
    apply same_data_dict in Hs as [Hlen Hs].
    destruct (order_dict_steps t kvs Ha)
      as (kvs' & s & Ev & Hv & Es & Hp & Hsort & Hstr & E).
    destruct (order_dict_steps t' kvs2 Hb)
      as (kvs2' & s2 & Ev2 & Hv2 & Es2 & Hp2 & Hsort2 & Hstr2 & E2).
    rewrite E, E2. do 2 f_equal.
    apply sorted_unique; [exact Hsort|exact Hsort2|].
    rewrite <- Hp, <- Hp2.
    cbn [is_json] in Ha, Hb. apply andb_prop in Ha as [Ha Hda].
    apply andb_prop in Hb as [Hb Hdb].
    apply json_entries in Ha. apply json_entries in Hb.
    apply submseteq_length_Permutation.
    + apply NoDup_submseteq.
      * apply NoDup_keys. rewrite (ordered_items_keys _ _ Hv).
        apply distinct_NoDup; [|exact Hda]. apply List.Forall_forall.
        intros k Hk. apply in_map_iff in Hk as [kv [<- Hkv]].
        rewrite List.Forall_forall in Ha. now apply Ha.
      * intros [k o] Hin%list_elem_of_In. apply list_elem_of_In.
        destruct (ordered_items_source _ _ _ _ Hv Hin) as (x & Hx & Eo).
        rewrite List.Forall_forall in IH, Hs, Ha, Hb.
        destruct (Hs _ Hx) as (y & Hy & Hxy). cbn [fst snd] in *.
        destruct (Ha _ Hx) as [Hk Hjx]. cbn [fst snd] in *.
        assert (Hiny : In (k, y) kvs2).
        { apply dict_get_Some; [|exact Hk|exact Hy].
          apply List.Forall_forall. intros kv Hkv. now apply Hb. }
        destruct (Hb _ Hiny) as [_ Hjy]. cbn [snd] in Hjy.
        destruct (IH _ Hx) as [_ IHx]. cbn [snd] in IHx.
        rewrite (IHx y Hjx Hjy Hxy) in Eo.
        exact (ordered_items_image _ _ _ _ _ Hv2 Hiny Eo).
    + rewrite <- (Forall2_length _ _ _ Hv), <- (Forall2_length _ _ _ Hv2).
      now rewrite Hlen.
Qed.

Lemma ascending_inv (s : list item) :
  ascending (map fst s) = true ->
  Forall str_key s /\ StronglySorted item_lt s.
Proof.
  induction s as [|[k x] s IH]; [split; constructor|].
  cbn [map fst]. destruct k as [| | |a| | | |]; try discriminate.
  destruct s as [|[k' x'] s].
  - intros _. split; repeat constructor.
  - cbn [map fst] in *. destruct k' as [| | |b| | | |]; try discriminate.
    cbn [ascending]. intros H. apply andb_prop in H as [Hab H].
    destruct (IH H) as [Hk Hs]. split; [constructor; [reflexivity|exact Hk]|].
    constructor; [exact Hs|]. constructor; [exact Hab|].
    apply StronglySorted_inv in Hs as [_ Hs].
    eapply Forall_impl; [exact Hs|]. intros z Hz.
    eapply (item_lt_trans (PStr a, x) (PStr b, x') z); [exact Hab|exact Hz].
Qed.

(** An object that is ordered is left as it is. *)
Lemma order_data_idem (o : pyval) :
  is_json o = true -> keys_sorted o = true -> order_data o = Ok o.
Proof.
  induction o as [| | | |l IH|l IH|l IH|t kvs IH] using pyval_ind;
    intros Hj Hk; try reflexivity; try discriminate.
  - cbn [is_json keys_sorted] in Hj, Hk. rewrite order_data_list_eq.
    assert (E : order_elements l = Ok l).
    { induction IH as [|x r Hx Hr IHr]; [reflexivity|]. cbn in Hj, Hk.
      apply andb_prop in Hj as [Hj1 Hj2]. apply andb_prop in Hk as [Hk1 Hk2].
      cbn [order_elements]. now rewrite Hx, IHr. }
    now rewrite E.
  - cbn [is_json keys_sorted] in Hj, Hk. apply andb_prop in Hj as [Hj _].
    apply andb_prop in Hk as [Hk Hv]. apply andb_prop in Hk as [Ht Ha].
    destruct t; [discriminate|]. apply ascending_inv in Ha as [Hstr Hs].
    rewrite order_data_dict.
    assert (E : order_values kvs = Ok kvs).
    { clear Hstr Hs. induction IH as [|[k x] r [_ Hx] Hr IHr]; [reflexivity|].
      cbn in Hj, Hv. apply andb_prop in Hj as [Hj1 Hj2].
      apply andb_prop in Hj1 as [_ Hj1]. apply andb_prop in Hv as [Hv1 Hv2].
      cbn [order_values]. cbn [snd] in Hx. now rewrite Hx, IHr. }
    rewrite E. cbn [mbind result_bind]. now rewrite sorted_items_sorted.
Qed.

(** A second call on the argument of a first call returns the same. *)
Lemma order_data_after (d : pyval) :
  is_json d = true -> order_data (after_order_data d) = order_data d.
Proof.
  induction d as [| | | |l IH|l IH|l IH|t kvs IH] using pyval_ind;
    intros Hj; try reflexivity; try discriminate.
  - cbn [after_order_data]. rewrite !order_data_list_eq. f_equal.
    cbn [is_json] in Hj. apply json_elements in Hj.
    induction IH as [|x r Hx Hr IHr]; [reflexivity|].
    apply Forall_cons in Hj as [Hj1 Hj2]. cbn [map order_elements].
    now rewrite Hx, IHr.
  - cbn [after_order_data]. rewrite !order_data_dict. f_equal.
    cbn [is_json] in Hj. apply andb_prop in Hj as [Hj _].
    apply json_entries in Hj. clear IH.
    induction Hj as [|[k x] r [_ Hx] Hr IHr]; [reflexivity|].
    cbn [map order_values fst snd] in *.
    destruct (order_data_json x Hx) as (o & Eo & Ho1 & Ho2 & _).
    rewrite Eo. cbn [value_or]. rewrite (order_data_idem o Ho1 Ho2).
    now rewrite IHr.
Qed.

Lemma order_data_list_json (l : list pyval) :
  is_json (PList l) = true ->
  exists l', order_data (PList l) = Ok (PList l') /\
             Forall2 (fun x o => order_data x = Ok o) l l'.
Proof.
  intros Hj. cbn [is_json] in Hj. apply json_elements in Hj.
  destruct (order_elements_ok l) as (l' & El & Hl); [|exact Hj|].
  - eapply Forall_impl; [exact Hj|]. intros x Hx _.
    now apply order_data_json.
  - exists l'. rewrite order_data_list_eq, El. split; [reflexivity|].
    eapply Forall2_impl; [exact Hl|]. now intros x o [H _].
Qed.

(** C6. On the data of the structured-data path (JSON objects)
    [order_data] returns; it returns a scalar as it is; of a list it
    returns the list of the ordered elements, in the same order; and what it
    returns has the same data as its argument (same scalars, lists with the
    same elements in the same order, mappings with the same keys and
    values), with the keys of every mapping, at every depth, in ascending
    order of their characters. *)
Theorem order_data_sorts_keys :
  (forall v, is_container v = false -> order_data v = Ok v) /\
  (forall l, is_json (PList l) = true ->
     exists l', order_data (PList l) = Ok (PList l') /\
                Forall2 (fun x o => order_data x = Ok o) l l') /\
  (forall v, is_json v = true ->
     exists o, order_data v = Ok o /\ is_json o = true /\
               keys_sorted o = true /\ same_data v o = true).
Proof.
  split; [|split].
  - intros v H. destruct v; try discriminate; reflexivity.
  - exact order_data_list_json.
  - exact order_data_json.
Qed.

Lemma order_data_sorts_keys_witness :
  exists o, order_data demo_action = Ok o /\ is_json o = true /\
            keys_sorted o = true /\ same_data demo_action o = true.
Proof.
  exact (proj2 (proj2 order_data_sorts_keys) demo_action eq_refl).
Defined.

Lemma order_data_list_same (data1 data2 : list pyval) :
  is_json (PList data1) = true -> is_json (PList data2) = true ->
  same_data (PList data1) (PList data2) = true ->
  order_data_list data1 = order_data_list data2.
Proof.
  intros H1 H2 Hs. unfold order_data_list.
  now rewrite (order_data_same _ _ H1 H2 Hs).
Qed.

(** C4. Two runs of [dumps_json] on the same data, whatever the order of
    the keys of the mappings in either (and whether they are [dict] or
    [OrderedDict]), end alike: same files with the same bytes, same log,
    same outcome.  So does a second run on the very objects of a first run,
    which [order_data] has updated in place. *)
Theorem dumps_json_deterministic :
  forall (L : libraries) (folder key : string) (save_yaml : bool)
         (data1 data2 : list pyval),
    is_json (PList data1) = true -> is_json (PList data2) = true ->
    same_data (PList data1) (PList data2) = true ->
    (forall w, dumps_json L folder data1 key save_yaml w
               = dumps_json L folder data2 key save_yaml w) /\
    (forall w, dumps_json L folder (map after_order_data data1) key save_yaml w
               = dumps_json L folder data1 key save_yaml w).
Proof.
  intros L folder key save_yaml data1 data2 H1 H2 Hs. split; intros w.
  - unfold dumps_json. now rewrite (order_data_list_same data1 data2).
  - unfold dumps_json, order_data_list.
    change (PList (map after_order_data data1))
      with (after_order_data (PList data1)).
    now rewrite order_data_after.
Qed.

(** ** The loop of [dumps_json] *)

Lemma dumps_json_item_ok (L : libraries) (folder key : string)
    (save_yaml : bool) (o : pyval) (f : string * string) (w : world) :
  item_file L folder key save_yaml o = Ok f ->
  dumps_json_item L folder key save_yaml o w = (Ok (), write_one w f).
Proof.
  unfold item_file, dumps_json_item, write_one, rendered. run_M.
  destruct (json_dumps L o) as [txt|]; [|discriminate]. cbn.
  destruct (getitem o (PStr key)) as [n|]; [|discriminate]. cbn.
  destruct (re_sub_name n) as [name|]; [|discriminate]. cbn.
  destruct save_yaml.
  - destruct (convert_to_object_without_none L txt) as [out|]; [|discriminate].
    cbn. intros [= <-]. reflexivity.
  - cbn. intros [= <-]. reflexivity.
Qed.

Lemma dumps_json_item_lacks_key (L : libraries) (folder key : string)
    (save_yaml : bool) (o : pyval) (e : exn) (w : world) :
  getitem o (PStr key) = Raise e ->
  exists e', dumps_json_item L folder key save_yaml o w = (Raise e', w) /\
             (forall txt, json_dumps L o = Ok txt -> e' = e).
Proof.
  intros Hg. unfold dumps_json_item. run_M.
  destruct (json_dumps L o) as [txt|e0].
  - rewrite Hg. exists e. split; [reflexivity|auto].
  - exists e0. split; [reflexivity|discriminate].
Qed.

Lemma for_each_ok (L : libraries) (folder key : string) (save_yaml : bool)
    (os : list pyval) (fs : list (string * string)) :
  Forall2 (fun o f => item_file L folder key save_yaml o = Ok f) os fs ->
  forall w, for_each (dumps_json_item L folder key save_yaml) os w
            = (Ok (), write_all fs w).
Proof.
  induction 1 as [|o f os fs Hf _ IH]; intros w; [reflexivity|].
  cbn [for_each]. unfold mbind, M_bind.
  rewrite (dumps_json_item_ok _ _ _ _ _ _ _ Hf). apply IH.
Qed.

Lemma for_each_raise (L : libraries) (folder key : string) (save_yaml : bool)
    (pre : list pyval) (fs : list (string * string)) (o : pyval)
    (post : list pyval) (e : exn) :
  Forall2 (fun o f => item_file L folder key save_yaml o = Ok f) pre fs ->
  forall w,
    dumps_json_item L folder key save_yaml o (write_all fs w)
    = (Raise e, write_all fs w) ->
    for_each (dumps_json_item L folder key save_yaml) (pre ++ o :: post) w
    = (Raise e, write_all fs w).
Proof.
  induction 1 as [|o' f os fs Hf _ IH]; intros w Ho.
  - cbn [app for_each]. unfold mbind, M_bind. cbn [write_all fold_left] in Ho.
    now rewrite Ho.
  - cbn [app for_each]. unfold mbind, M_bind.
    rewrite (dumps_json_item_ok _ _ _ _ _ _ _ Hf). now apply IH.
Qed.

Lemma files_write_all (fs : list (string * string)) (w : world) :
  files (write_all fs w)
  = fold_left (fun m f => <[fst f := snd f]> m) fs (files w).
Proof.
  revert w. induction fs as [|f fs IH]; intros w; [reflexivity|].
  cbn [write_all fold_left]. unfold write_all in IH. now rewrite IH.
Qed.

Lemma dirs_write_all (fs : list (string * string)) (w : world) :
  dirs (write_all fs w) = dirs w.
Proof.
  revert w. induction fs as [|f fs IH]; intros w; [reflexivity|].
  cbn [write_all fold_left]. unfold write_all in IH. now rewrite IH.
Qed.

Lemma elem_of_ensure_dir (folder : string) (ds : gset string) :
  folder ∈ ensure_dir folder ds.
Proof.
  unfold ensure_dir. case_bool_decide; [assumption|]. set_solver.
Qed.

(** The beginning of [dumps_json] creates the folder if it is missing. *)
Lemma dumps_json_unfold (L : libraries) (folder key : string)
    (save_yaml : bool) (data : list pyval) (w : world) :
  dumps_json L folder data key save_yaml w =
  match order_data_list data with
  | Ok os =>
      for_each (dumps_json_item L folder key save_yaml) os (with_dir folder w)
  | Raise e => (Raise e, with_dir folder w)
  end.
Proof.
  unfold dumps_json, with_dir, ensure_dir. run_M.
  destruct (bool_decide (folder ∈ dirs w)); cbn [negb];
    destruct (order_data_list data); destruct w; reflexivity.
Qed.

(** *** Looking up the name of an ordered item *)

Lemma getitem_ordered (x o : pyval) (key n : string) :
  is_json x = true -> order_data x = Ok o ->
  getitem x (PStr key) = Ok (PStr n) -> getitem o (PStr key) = Ok (PStr n).
Proof.
  intros Hj Eo Hg. destruct (order_data_json x Hj) as (o' & Eo' & _ & _ & Hs).
  rewrite Eo in Eo'. injection Eo' as <-.
  destruct x as [| | | | | | |t kvs]; try discriminate.
  destruct (order_dict_steps t kvs Hj) as (kvs' & s & _ & _ & _ & _ & _ & _ & E).
  rewrite Eo in E. injection E as ->.
  apply same_data_dict in Hs as [_ Hs]. cbn [getitem] in *.
  destruct (dict_get (PStr key) kvs) as [v|] eqn:Ev; [|discriminate].
  injection Hg as ->. cbn [is_json] in Hj. apply andb_prop in Hj as [Hj _].
  apply json_entries in Hj.
  assert (Hin : In (PStr key, PStr n) kvs).
  { apply dict_get_Some; [|reflexivity|exact Ev].
    eapply Forall_impl; [exact Hj|]. now intros kv [H _]. }
  rewrite List.Forall_forall in Hs. destruct (Hs _ Hin) as (y & Hy & Hsy).
  cbn [fst snd] in *. rewrite Hy. destruct y; try discriminate.
  cbn in Hsy. apply String.eqb_eq in Hsy. now subst.
Qed.

Lemma getitem_ordered_missing (x o : pyval) (key : string) (e : exn) :
  is_json x = true -> order_data x = Ok o ->
  getitem x (PStr key) = Raise e -> getitem o (PStr key) = Raise e.
Proof.
  intros Hj Eo Hg.
  destruct x as [| | | | | | |t kvs]; try discriminate;
    try (cbn in Eo; injection Eo as <-; exact Hg).
  { rewrite order_data_list_eq in Eo.
    destruct (order_elements l); [|discriminate]. cbn in Eo.
    injection Eo as <-. exact Hg. }
  destruct (order_dict_steps t kvs Hj)
    as (kvs' & s & _ & Hv & _ & Hp & Hsort & Hstr & E).
  rewrite Eo in E. injection E as ->. cbn [getitem] in *.
  destruct (dict_get (PStr key) kvs) as [v|] eqn:Ev; [discriminate|].
  destruct (dict_get (PStr key) s) as [y|] eqn:Ey; [exfalso|exact Hg].
  apply dict_get_Some in Ey; [|eapply Permutation_Forall; eassumption|reflexivity].
  apply (Permutation_in _ (Permutation_sym Hp)) in Ey.
  destruct (ordered_items_source _ _ _ _ Hv Ey) as (x & Hx & _).
  cbn [is_json] in Hj. apply andb_prop in Hj as [_ Hd].
  rewrite (dict_get_In kvs (PStr key) x Hd eq_refl Hx) in Ev. discriminate.
Qed.

Lemma export_item_writes (L : libraries)
    (configuration_export : string -> pyval -> result string)
    (save_yaml : bool) (type itemid name : string) (item : pyval)
    (n : string) (id : pyval) (doc pretty out : string) (w : world) :
  getitem item (PStr name) = Ok (PStr n) ->
  getitem item (PStr itemid) = Ok id ->
  configuration_export type id = Ok doc ->
  toprettyxml L (strip_date doc) = Ok pretty ->
  rendered L save_yaml (unquote pretty) = Ok out ->
  let filename := target L type n (extension save_yaml "xml") in
  export_item L configuration_export save_yaml type itemid name item w
  = (Ok (), World (ensure_dir type (dirs w)) (<[filename := out]> (files w))
              (logged w ++ [LogInfo "Processing {}..." [PStr n];
                            write_message filename])).
Proof.
  intros Hn Hi Hd Hp Hr filename. unfold export_item.
  unfold mbind, M_bind, lift, logging. rewrite Hn, Hi, Hd.
  rewrite (dump_xml_writes L type doc n save_yaml pretty out) by assumption.
  cbn [dirs files logged]. now rewrite <- List.app_assoc.
Qed.

Lemma ensure_dir_idem (folder : string) (ds : gset string) :
  ensure_dir folder (ensure_dir folder ds) = ensure_dir folder ds.
Proof.
  unfold ensure_dir at 1. case_bool_decide as H; [reflexivity|].
  destruct H. apply elem_of_ensure_dir.
Qed.

Lemma sanitize_template_names :
  sanitize "Template A" = "Template A" /\ sanitize "Template/A" = "Template A".
Proof. split; reflexivity. Qed.

(** C5. The names [Template A] and [Template/A] both sanitize to
    [Template A].  When [dumps_json] is given
    two items with these names, in this order, or [dump_xml] is called for
    two documents with these names, in this order, or [export] goes through
    a category of two items with these names, in this order, both writes go
    to the same path (the folder, the name [Template A] and the extension):
    after the run the files are those there were before and this one file,
    which holds what was rendered for the second item. *)
Theorem colliding_names_overwrite :
  forall (L : libraries) (folder : string) (save_yaml : bool) (w : world),
    (sanitize "Template A" = "Template A" /\
     sanitize "Template/A" = "Template A") /\
    (forall key item1 item2 o1 o2 txt1 txt2 out1 out2,
        is_json item1 = true -> is_json item2 = true ->
        getitem item1 (PStr key) = Ok (PStr "Template A") ->
        getitem item2 (PStr key) = Ok (PStr "Template/A") ->
        order_data item1 = Ok o1 -> order_data item2 = Ok o2 ->
        json_dumps L o1 = Ok txt1 -> json_dumps L o2 = Ok txt2 ->
        rendered L save_yaml txt1 = Ok out1 ->
        rendered L save_yaml txt2 = Ok out2 ->
        let p := target L folder "Template A" (extension save_yaml "json") in
        dumps_json L folder [item1; item2] key save_yaml w
        = (Ok (), World (ensure_dir folder (dirs w))
                    (<[p := out2]> (files w))
                    (logged w ++ [write_message p; write_message p]))) /\
    (forall doc1 doc2 pretty1 pretty2 out1 out2,
        toprettyxml L (strip_date doc1) = Ok pretty1 ->
        toprettyxml L (strip_date doc2) = Ok pretty2 ->
        rendered L save_yaml (unquote pretty1) = Ok out1 ->
        rendered L save_yaml (unquote pretty2) = Ok out2 ->
        let p := target L folder "Template A" (extension save_yaml "xml") in
        (dump_xml L folder doc1 (PStr "Template A") save_yaml;;
         dump_xml L folder doc2 (PStr "Template/A") save_yaml) w
        = (Ok (), World (ensure_dir folder (dirs w))
                    (<[p := out2]> (files w))
                    (logged w ++ [write_message p; write_message p]))) /\
    (forall configuration_export itemid name item1 item2 id1 id2
            doc1 doc2 pretty1 pretty2 out1 out2,
        getitem item1 (PStr name) = Ok (PStr "Template A") ->
        getitem item2 (PStr name) = Ok (PStr "Template/A") ->
        getitem item1 (PStr itemid) = Ok id1 ->
        getitem item2 (PStr itemid) = Ok id2 ->
        configuration_export folder id1 = Ok doc1 ->
        configuration_export folder id2 = Ok doc2 ->
        toprettyxml L (strip_date doc1) = Ok pretty1 ->
        toprettyxml L (strip_date doc2) = Ok pretty2 ->
        rendered L save_yaml (unquote pretty1) = Ok out1 ->
        rendered L save_yaml (unquote pretty2) = Ok out2 ->
        let p := target L folder "Template A" (extension save_yaml "xml") in
        export L (Ok [item1; item2]) configuration_export save_yaml folder
          itemid name w
        = (Ok (), World (ensure_dir folder (dirs w))
                    (<[p := out2]> (files w))
                    (logged w ++
                     [LogInfo "Export {}" [PStr folder];
                      LogInfo "Processing {}..." [PStr "Template A"];
                      write_message p;
                      LogInfo "Processing {}..." [PStr "Template/A"];
                      write_message p]))).
Proof.
  intros L folder save_yaml w. split; [exact sanitize_template_names|].
  split; [|split].
  - intros key item1 item2 o1 o2 txt1 txt2 out1 out2 Hj1 Hj2 Hg1 Hg2
      Eo1 Eo2 Ht1 Ht2 Hr1 Hr2 p.
    rewrite dumps_json_unfold. unfold order_data_list.
    rewrite order_data_list_eq. cbn [order_elements].
    rewrite Eo1, Eo2. cbn [mbind result_bind for_each]. unfold mbind, M_bind.
    rewrite (dumps_json_item_writes L folder key save_yaml o1 "Template A"
               txt1 out1), 
            (dumps_json_item_writes L folder key save_yaml o2 "Template/A"
               txt2 out2);
      eauto using getitem_ordered.
    unfold mret, M_ret, with_dir. cbn [dirs files logged].
    unfold target. rewrite (proj2 sanitize_template_names),
      (proj1 sanitize_template_names).
    now rewrite insert_insert_eq, <- List.app_assoc.
  - intros doc1 doc2 pretty1 pretty2 out1 out2 Hp1 Hp2 Hr1 Hr2 p.
    unfold mbind, M_bind.
    rewrite (dump_xml_writes L folder doc1 "Template A" save_yaml pretty1 out1),
      (dump_xml_writes L folder doc2 "Template/A" save_yaml pretty2 out2)
      by assumption.
    cbn [dirs files logged]. unfold target.
    rewrite (proj2 sanitize_template_names), (proj1 sanitize_template_names).
    now rewrite ensure_dir_idem, insert_insert_eq, <- List.app_assoc.
  - intros configuration_export itemid name item1 item2 id1 id2 doc1 doc2
      pretty1 pretty2 out1 out2 Hn1 Hn2 Hi1 Hi2 Hd1 Hd2 Hp1 Hp2 Hr1 Hr2 p.
    subst p. unfold export. unfold mbind at 1 2, M_bind at 1 2.
    unfold logging at 1, lift at 1. cbn [for_each].
    unfold mbind at 1 2, M_bind at 1 2.
    rewrite (export_item_writes L configuration_export save_yaml folder itemid
               name item1 "Template A" id1 doc1 pretty1 out1) by assumption.
    rewrite (export_item_writes L configuration_export save_yaml folder itemid
               name item2 "Template/A" id2 doc2 pretty2 out2) by assumption.
    cbn [dirs files logged snd mret M_ret]. unfold target.
    rewrite (proj2 sanitize_template_names), (proj1 sanitize_template_names).
    rewrite ensure_dir_idem, insert_insert_eq, <- !List.app_assoc.
    reflexivity.
Qed.

Lemma colliding_names_overwrite_witness :
  let L := demo_libraries PNone in
  let p := "/backup/templates/Template A.json" in
  dumps_json L "templates" [template_a; template_slash_a] "name" false
    empty_world
  = (Ok (), World {["templates"]}
              {[p := repr (ordered_or_none template_slash_a)]}
              [write_message p; write_message p]).
Proof.
  cbv zeta.
  destruct (colliding_names_overwrite (demo_libraries PNone) "templates" false
              empty_world) as (_ & H & _ & _).
  rewrite (H "name" template_a template_slash_a
             (ordered_or_none template_a) (ordered_or_none template_slash_a)
             (repr (ordered_or_none template_a))
             (repr (ordered_or_none template_slash_a))
             (repr (ordered_or_none template_a))
             (repr (ordered_or_none template_slash_a))
             eq_refl eq_refl eq_refl eq_refl eq_refl eq_refl eq_refl eq_refl
             eq_refl eq_refl).
  reflexivity.
Defined.

Lemma dumps_json_deterministic_witness :
  dumps_json (demo_libraries PNone) "actions" [demo_action] "name" true
    empty_world
  = dumps_json (demo_libraries PNone) "actions" [demo_action_reordered]
      "name" true empty_world.
Proof.
  exact (proj1 (dumps_json_deterministic (demo_libraries PNone) "actions"
                  "name" true [demo_action] [demo_action_reordered]
                  eq_refl eq_refl eq_refl) empty_world).
Defined.

Lemma ordered_files (L : libraries) (folder key : string) (save_yaml : bool)
    (pre pre' : list pyval) (fs : list (string * string)) :
  Forall2 (fun x o => order_data x = Ok o) pre pre' ->
  Forall2 (fun x f => exists o, order_data x = Ok o /\
                        item_file L folder key save_yaml o = Ok f) pre fs ->
  Forall2 (fun o f => item_file L folder key save_yaml o = Ok f) pre' fs.
Proof.
  intros H. revert fs. induction H as [|x o pre pre' Ho _ IH]; intros fs Hf.
  - apply Forall2_nil_inv_l in Hf as ->. constructor.
  - apply Forall2_cons_inv_l in Hf as (f & fs' & (o' & Eo' & Hf) & Hfs & ->).
    rewrite Ho in Eo'. injection Eo' as <-. constructor; auto.
Qed.

(** C9. When an item of the sequence is a mapping without the name field,
    and the items before it can be written (each has, once ordered, a file:
    [json.dumps] returns, the name is a string, the conversion, if any,
    returns), [dumps_json] raises at that item: [KeyError] for the name
    field, given that [json.dumps] returns for the item.  The folder exists
    then, the files of the items before have been written, in order, and
    nothing else has: nothing is undone, nothing of the items after is
    written. *)
Theorem dumps_json_missing_key :
  forall (L : libraries) (folder key : string) (save_yaml : bool)
         (pre : list pyval) (item : pyval) (post : list pyval)
         (fs : list (string * string)) (w : world),
    is_json (PList (pre ++ item :: post)) = true ->
    getitem item (PStr key) = Raise (KeyError (PStr key)) ->
    Forall2 (fun x f => exists o, order_data x = Ok o /\
                          item_file L folder key save_yaml o = Ok f) pre fs ->
    exists e w',
      dumps_json L folder (pre ++ item :: post) key save_yaml w
      = (Raise e, w') /\
      folder ∈ dirs w' /\
      files w' = fold_left (fun m f => <[fst f := snd f]> m) fs (files w) /\
      (forall o txt, order_data item = Ok o -> json_dumps L o = Ok txt ->
                     e = KeyError (PStr key)).
Proof.
  intros L folder key save_yaml pre item post fs w Hj Hg Hfs.
  destruct (order_data_list_json _ Hj) as (l' & El & Hl).
  apply Forall2_app_inv_l in Hl as (pre' & rest & Hpre & Hrest & ->).
  apply Forall2_cons_inv_l in Hrest as (o & post' & Eo & Hpost & ->).
  assert (Hji : is_json item = true).
  { cbn [is_json] in Hj. rewrite forallb_app in Hj.
    apply andb_prop in Hj as [_ Hj]. cbn in Hj.
    now apply andb_prop in Hj as [Hj _]. }
  pose proof (getitem_ordered_missing item o key _ Hji Eo Hg) as Hgo.
  pose proof (ordered_files L folder key save_yaml pre pre' fs Hpre Hfs) as Hw.
  destruct (dumps_json_item_lacks_key L folder key save_yaml o _
              (write_all fs (with_dir folder w)) Hgo) as (e & He & Hkey).
  exists e, (write_all fs (with_dir folder w)).
  split; [|split; [|split]].
  - rewrite dumps_json_unfold. unfold order_data_list. rewrite El.
    cbn [mbind result_bind]. now apply for_each_raise.
  - rewrite dirs_write_all. apply elem_of_ensure_dir.
  - now rewrite files_write_all.
  - intros o' txt Eo' Ht. rewrite Eo in Eo'. injection Eo' as <-. eauto.
Qed.

Lemma dumps_json_missing_key_witness :
  exists e w',
    dumps_json (demo_libraries PNone) "templates"
      ([template_a] ++ nameless :: [template_slash_a]) "name" false empty_world
    = (Raise e, w') /\
    "templates" ∈ dirs w' /\
    files w'
    = fold_left (fun m f => <[fst f := snd f]> m)
        [("/backup/templates/Template A.json",
          repr (ordered_or_none template_a))] ∅ /\
    (forall o txt, order_data nameless = Ok o ->
                   json_dumps (demo_libraries PNone) o = Ok txt ->
                   e = KeyError (PStr "name")).
Proof.
  apply (dumps_json_missing_key (demo_libraries PNone) "templates" "name"
           false [template_a] nameless [template_slash_a]
           [("/backup/templates/Template A.json",
             repr (ordered_or_none template_a))] empty_world eq_refl eq_refl).
  constructor; [|constructor].
  exists (ordered_or_none template_a). split; reflexivity.
Defined.

(** ** Stripping the date *)

Lemma strip_prefix_Some (p s r : string) :
  Re.strip_prefix p s = Some r -> s = p +:+ r.
Proof.
  revert s. induction p as [|a p IH]; intros s H.
  - cbn in H. now injection H as ->.
  - destruct s as [|b s]; [discriminate|]. cbn in H.
    destruct (Ascii.eqb_spec a b) as [->|]; [|discriminate].
    rewrite app_cons. f_equal. auto.
Qed.

Lemma strip_prefix_app (p r : string) : Re.strip_prefix p (p +:+ r) = Some r.
Proof.
  induction p as [|a p IH]; [reflexivity|]. rewrite app_cons. cbn.
  now rewrite Ascii.eqb_refl.
Qed.

Lemma find_last_suffix (p u v : string) :
  Re.find_last p (u +:+ v) = None -> Re.find_last p v = None.
Proof.
  induction u as [|c u IH]; [auto|]. rewrite app_cons. cbn [Re.find_last].
  destruct (Re.find_last p (u +:+ v)); [discriminate|]. auto.
Qed.

Lemma find_last_Some (c0 : ascii) (p' s : string) (i : nat) :
  Re.find_last (String c0 p') s = Some i ->
  exists x y, s = x +:+ String c0 p' +:+ y /\ String.length x = i /\
              Re.find_last (String c0 p') y = None.
Proof.
  revert i. induction s as [|c t IH]; intros i H; [discriminate|].
  cbn [Re.find_last] in H.
  destruct (Re.find_last (String c0 p') t) as [j|] eqn:E.
  - injection H as <-. destruct (IH j eq_refl) as (x & y & -> & <- & Hy).
    exists (String c x), y. repeat split; auto.
  - unfold Re.starts_with in H.
    destruct (Re.strip_prefix (String c0 p') (String c t)) as [y|] eqn:Ey;
      [|discriminate].
    injection H as <-. apply strip_prefix_Some in Ey.
    exists "", y. rewrite app_nil_l. repeat split; auto.
    rewrite app_cons in Ey. injection Ey as -> ->.
    now apply find_last_suffix in E.
Qed.

Lemma find_last_app (c0 : ascii) (p' x y : string) :
  Re.find_last (String c0 p') (x +:+ String c0 p' +:+ y) <> None.
Proof.
  induction x as [|c x IH].
  - rewrite app_nil_l, app_cons. cbn [Re.find_last].
    destruct (Re.find_last _ _); [discriminate|].
    unfold Re.starts_with. rewrite <- app_cons, strip_prefix_app. discriminate.
  - rewrite app_cons. cbn [Re.find_last].
    destruct (Re.find_last _ _); [discriminate|contradiction].
Qed.

Lemma line_prefix_app (x y : string) :
  no_newline x -> Re.line_prefix (x +:+ y) = x +:+ Re.line_prefix y.
Proof.
  unfold no_newline. induction x as [|c x IH]; [reflexivity|]. cbn.
  unfold is_newline at 1. rewrite !app_cons. cbn [Re.line_prefix].
  destruct (Ascii.eqb c Re.newline); [discriminate|]. intros H.
  now rewrite IH.
Qed.

Lemma line_prefix_app_inv (r x y : string) :
  Re.line_prefix r = x +:+ y ->
  exists b, r = x +:+ b /\ Re.line_prefix b = y /\ no_newline x.
Proof.
  revert r. induction x as [|c x IH]; intros r H.
  - exists r. repeat split; auto.
  - destruct r as [|c' r]; [discriminate|]. cbn [Re.line_prefix] in H.
    destruct (Ascii.eqb c' Re.newline) eqn:E; [discriminate|].
    rewrite app_cons in H. injection H as -> H.
    destruct (IH r H) as (b & -> & Hb & Hx). exists b.
    repeat split; auto. unfold no_newline in *. cbn.
    unfold is_newline at 1. now rewrite E.
Qed.

Lemma sub_aux_skip (m : Re.matcher) (x y : string) :
  Re.sub_aux m "" (String.length x) (x +:+ y) = Re.sub m "" y.
Proof.
  induction x as [|c x IH]; [reflexivity|]. rewrite app_cons. cbn. exact IH.
Qed.

Lemma starts_with_line_prefix (p s : string) :
  no_newline p ->
  Re.starts_with p (Re.line_prefix s) = Re.starts_with p s.
Proof.
  unfold Re.starts_with, no_newline. revert s.
  induction p as [|a p IH]; intros s H; [reflexivity|].
  cbn in H. apply orb_false_elim in H as [Ha H].
  destruct s as [|b s]; [reflexivity|]. cbn [Re.line_prefix].
  destruct (Ascii.eqb b Re.newline) eqn:Eb.
  - apply Ascii.eqb_eq in Eb. subst b. cbn [Re.strip_prefix].
    unfold is_newline in Ha. rewrite Ha. reflexivity.
  - cbn [Re.strip_prefix]. destruct (Ascii.eqb a b); [|reflexivity].
    now apply IH.
Qed.

Lemma has_close_cons (c : ascii) (t : string) :
  is_newline c = false ->
  has_close (String c t)
  = Re.starts_with date_close (String c t) || has_close t.
Proof.
  intros Hc. unfold has_close. cbn [Re.line_prefix].
  unfold is_newline in Hc. rewrite Hc. cbn [Re.find_last].
  destruct (Re.find_last date_close (Re.line_prefix t));
    [now rewrite orb_true_r|]. rewrite orb_false_r.
  assert (E : Re.starts_with date_close (String c (Re.line_prefix t))
              = Re.starts_with date_close (String c t)).
  { rewrite <- (starts_with_line_prefix date_close (String c t)) by reflexivity.
    cbn [Re.line_prefix]. now rewrite Hc. }
  rewrite E. now destruct (Re.starts_with date_close (String c t)).
Qed.

Lemma has_close_newline (t : string) : has_close (String Re.newline t) = false.
Proof. reflexivity. Qed.

Lemma has_close_app (x y : string) :
  no_newline x -> has_close y = true -> has_close (x +:+ y) = true.
Proof.
  unfold no_newline. induction x as [|c x IH]; [auto|]. cbn. intros H Hy.
  apply orb_false_elim in H as [Hc H]. rewrite app_cons.
  rewrite has_close_cons by exact Hc. rewrite IH by assumption.
  apply orb_true_r.
Qed.

Lemma has_close_starts (y : string) :
  has_close (date_close +:+ y) = true.
Proof.
  unfold has_close. rewrite line_prefix_app by reflexivity.
  pose proof (find_last_app "<" "/date>" "" (Re.line_prefix y)) as H.
  rewrite app_nil_l in H. unfold date_close.
  destruct (Re.find_last _ _); [reflexivity|contradiction].
Qed.

Lemma has_close_open (rest : string) :
  has_close (date_open +:+ rest) = has_close rest.
Proof.
  unfold date_open. rewrite !app_cons, app_nil_l.
  now rewrite !has_close_cons by reflexivity.
Qed.

Lemma enclosed_Some (s : string) (n : nat) :
  Re.enclosed date_open date_close s = Some n ->
  exists x b,
    s = date_open +:+ x +:+ date_close +:+ b /\ no_newline x /\
    n = 6 + String.length x + 7 /\ has_close b = false.
Proof.
  unfold Re.enclosed.
  destruct (Re.strip_prefix date_open s) as [rest|] eqn:Er; [|discriminate].
  apply strip_prefix_Some in Er.
  destruct (Re.find_last date_close (Re.line_prefix rest)) as [i|] eqn:Ei;
    [|discriminate].
  intros [= <-]. apply find_last_Some in Ei as (x & y & Ey & <- & Hy).
  apply line_prefix_app_inv in Ey as (b' & -> & Eb' & Hx).
  apply line_prefix_app_inv in Eb' as (b & -> & Eb & _).
  exists x, b. repeat split; auto. unfold has_close. rewrite Eb.
  change date_close with (String "<" "/date>"). now rewrite Hy.
Qed.

Lemma enclosed_matches (s : string) :
  Re.starts_with date_open s = true -> has_close s = true ->
  Re.enclosed date_open date_close s <> None.
Proof.
  unfold Re.starts_with, Re.enclosed.
  destruct (Re.strip_prefix date_open s) as [rest|] eqn:Er; [|discriminate].
  intros _ H. apply strip_prefix_Some in Er. subst s.
  rewrite has_close_open in H. unfold has_close in H.
  destruct (Re.find_last date_close (Re.line_prefix rest)); [|discriminate].
  discriminate.
Qed.

Lemma strip_date_cons (c : ascii) (t : string) :
  Re.enclosed date_open date_close (String c t) = None ->
  strip_date (String c t) = String c (strip_date t).
Proof. unfold strip_date, Re.sub. cbn [Re.sub_aux]. now intros ->. Qed.

Lemma strip_date_match (c : ascii) (t : string) (n : nat) :
  Re.enclosed date_open date_close (String c t) = Some n ->
  exists n' b,
    n = S n' /\ Re.sub_aux (Re.enclosed date_open date_close) "" n' t
               = strip_date b /\
    has_close b = false /\ has_close (String c t) = true.
Proof.
  intros H. apply enclosed_Some in H as (x & b & Es & Hx & -> & Hb).
  exists (5 + String.length x + 7), b. split; [reflexivity|].
  unfold date_open in Es. rewrite app_cons in Es. injection Es as -> ->.
  split; [|split; [exact Hb|]].
  - rewrite <- !app_assoc.
    replace (5 + String.length x + 7)
      with (String.length (("date>" +:+ x) +:+ date_close))
      by (rewrite !length_app; reflexivity).
    apply sub_aux_skip.
  - rewrite <- app_cons. change (String "<" "date>") with date_open.
    rewrite has_close_open. apply has_close_app; [exact Hx|].
    apply has_close_starts.
Qed.

Lemma starts_with_cons (a : ascii) (w : string) (c : ascii) (s : string) :
  Re.starts_with (String a w) (String c s) = true ->
  a = c /\ Re.starts_with w s = true.
Proof.
  unfold Re.starts_with. cbn [Re.strip_prefix].
  destruct (Ascii.eqb_spec a c); [auto|discriminate].
Qed.

Lemma starts_with_cons_intro (a : ascii) (w s : string) :
  Re.starts_with w s = true -> Re.starts_with (String a w) (String a s) = true.
Proof.
  unfold Re.starts_with. cbn [Re.strip_prefix]. now rewrite Ascii.eqb_refl.
Qed.

(** A prefix of a line of the result is a prefix of the text, unless a
    match was removed, and then the line of the text has a closing tag. *)
Lemma starts_with_strip_date (w : string) :
  no_newline w ->
  forall u, Re.starts_with w (strip_date u) = true ->
            Re.starts_with w u = true \/ has_close u = true.
Proof.
  unfold no_newline. induction w as [|a w IH]; intros Hw u H; [now left|].
  cbn in Hw. apply orb_false_elim in Hw as [Ha Hw].
  destruct u as [|c u]; [discriminate|].
  destruct (Re.enclosed date_open date_close (String c u)) as [n|] eqn:E.
  - right. now apply strip_date_match in E as (_ & _ & _ & _ & _ & E).
  - rewrite strip_date_cons in H by exact E.
    apply starts_with_cons in H as [<- H].
    destruct (IH Hw u H) as [H1|H1].
    + left. now apply starts_with_cons_intro.
    + right. rewrite has_close_cons by exact Ha. rewrite H1. apply orb_true_r.
Qed.

(** A closing tag in the first line of the result comes from the first
    line of the text. *)
Lemma has_close_strip_date (s : string) :
  has_close (strip_date s) = true -> has_close s = true.
Proof.
  induction s as [|c t IH]; [auto|].
  destruct (Re.enclosed date_open date_close (String c t)) as [n|] eqn:E.
  - intros _. now apply strip_date_match in E as (_ & _ & _ & _ & _ & E).
  - rewrite strip_date_cons by exact E.
    destruct (is_newline c) eqn:Ec.
    + apply Ascii.eqb_eq in Ec. subst c. discriminate.
    + rewrite !has_close_cons by exact Ec. intros H.
      apply orb_prop in H as [H|H].
      * unfold date_close in H. apply starts_with_cons in H as [<- H].
        destruct (starts_with_strip_date "/date>" eq_refl t H) as [H1|H1].
        -- unfold date_close. rewrite starts_with_cons_intro by exact H1.
           reflexivity.
        -- rewrite H1. apply orb_true_r.
      * rewrite IH by exact H. apply orb_true_r.
Qed.

Lemma starts_with_close_lt (a : ascii) (s : string) :
  Ascii.eqb a "<" = false ->
  Re.starts_with date_close (String a s) = false.
Proof.
  intros H. unfold Re.starts_with, date_close. cbn [Re.strip_prefix].
  rewrite Ascii.eqb_sym, H. reflexivity.
Qed.

Lemma strip_date_jump (c : ascii) (t : string) (n : nat) :
  Re.enclosed date_open date_close (String c t) = Some n ->
  exists b, strip_date (String c t) = strip_date b /\ has_close b = false.
Proof.
  intros E. destruct (strip_date_match c t n E) as (n' & b & -> & Eb & Hb & _).
  exists b. split; [|exact Hb]. unfold strip_date at 1, Re.sub.
  cbn [Re.sub_aux]. rewrite E, app_nil_l. exact Eb.
Qed.

(** Where the first line of the result has a closing tag, a prefix of the
    result without less-than sign is a prefix of the text. *)
Lemma starts_with_strip_date_close (w : string) :
  no_newline w -> string_existsb (fun c => Ascii.eqb c "<") w = false ->
  forall u, Re.starts_with w (strip_date u) = true ->
            has_close (strip_date u) = true -> Re.starts_with w u = true.
Proof.
  unfold no_newline. induction w as [|a w IH]; intros Hw Hlt u H Hc;
    [reflexivity|].
  cbn in Hw, Hlt. apply orb_false_elim in Hw as [Ha Hw].
  apply orb_false_elim in Hlt as [Hal Hlt].
  destruct u as [|c u]; [discriminate|].
  destruct (Re.enclosed date_open date_close (String c u)) as [n|] eqn:E.
  - exfalso. destruct (strip_date_jump c u n E) as (b & Eb & Hb).
    rewrite Eb in Hc. apply has_close_strip_date in Hc. congruence.
  - rewrite strip_date_cons in H, Hc by exact E.
    apply starts_with_cons in H as [<- H].
    rewrite has_close_cons in Hc by exact Ha.
    rewrite starts_with_close_lt in Hc by exact Hal. cbn in Hc.
    apply starts_with_cons_intro. now apply IH.
Qed.

Lemma enclosed_positive (s : string) :
  Re.enclosed date_open date_close s <> Some 0.
Proof.
  intros H. apply enclosed_Some in H as (x & b & _ & _ & H & _). discriminate.
Qed.

(** The pattern matches nowhere in what [re.sub] returns. *)
Lemma unmatched_sub_aux (s : string) :
  forall n,
    unmatched (Re.sub_aux (Re.enclosed date_open date_close) "" n s) = true.
Proof.
  induction s as [|c t IH]; intros n; [reflexivity|]. cbn [Re.sub_aux].
  destruct n as [|k]; [|apply IH].
  destruct (Re.enclosed date_open date_close (String c t)) as [[|n']|] eqn:E.
  - now apply enclosed_positive in E.
  - rewrite app_nil_l. apply IH.
  - cbn [unmatched]. fold (Re.sub (Re.enclosed date_open date_close) "" t).
    fold (strip_date t).
    destruct (Re.enclosed date_open date_close (String c (strip_date t)))
      as [n2|] eqn:E2; [exfalso|apply IH].
    apply enclosed_Some in E2 as (x & b & Es & Hx & _ & _).
    unfold date_open in Es. rewrite app_cons in Es. injection Es as -> Es.
    assert (Hc : has_close (strip_date t) = true).
    { rewrite Es, <- app_assoc. apply has_close_app.
      - unfold no_newline in *. cbn. exact Hx.
      - apply has_close_starts. }
    assert (Hw : Re.starts_with "date>" (strip_date t) = true).
    { rewrite Es. unfold Re.starts_with. now rewrite strip_prefix_app. }
    apply (starts_with_strip_date_close "date>" eq_refl eq_refl) in Hw;
      [|exact Hc].
    apply has_close_strip_date in Hc.
    apply (enclosed_matches (String "<" t)); [| |exact E].
    + unfold date_open. now apply starts_with_cons_intro.
    + rewrite has_close_cons by reflexivity. rewrite Hc. apply orb_true_r.
Qed.

Lemma unmatched_suffix (a y : string) :
  unmatched (a +:+ y) = true -> unmatched y = true.
Proof.
  induction a as [|c a IH]; [auto|]. rewrite app_cons. cbn [unmatched].
  destruct (Re.enclosed _ _ _); [discriminate|]. exact IH.
Qed.

Lemma existsb_newline (s : string) :
  string_existsb is_newline s = true \/ no_newline s.
Proof. unfold no_newline. destruct (string_existsb is_newline s); auto. Qed.

Lemma strip_date_leaves_no_line_element (txt a m b : string) :
  strip_date txt = a +:+ date_open +:+ m +:+ date_close +:+ b ->
  string_existsb is_newline m = true.
Proof.
  intros E. destruct (existsb_newline m) as [H|H]; [exact H|exfalso].
  pose proof (unmatched_sub_aux txt 0) as U.
  fold (Re.sub (Re.enclosed date_open date_close) "" txt) in U.
  fold (strip_date txt) in U. rewrite E in U. apply unmatched_suffix in U.
  unfold date_open in U at 1. rewrite app_cons in U. cbn [unmatched] in U.
  rewrite <- app_cons in U. change (String "<" "date>") with date_open in U.
  destruct (Re.enclosed date_open date_close
              (date_open +:+ m +:+ date_close +:+ b)) eqn:Em; [discriminate|].
  revert Em. apply enclosed_matches.
  - unfold Re.starts_with. now rewrite strip_prefix_app.
  - rewrite has_close_open. apply has_close_app; [exact H|].
    apply has_close_starts.
Qed.

(** C2 (as amended). Whatever the document, the text [dump_xml] hands to
    the XML library holds no date element written on one line: where an
    opening tag of a date element is followed by a closing tag, there is a
    line break between the two.  What [dump_xml] writes is what the
    libraries make of this text. *)
Theorem dump_xml_strips_date_of_one_line :
  (forall txt a m b,
      strip_date txt = a +:+ date_open +:+ m +:+ date_close +:+ b ->
      string_existsb is_newline m = true) /\
  (forall L folder txt n save_yaml pretty out w,
      toprettyxml L (strip_date txt) = Ok pretty ->
      rendered L save_yaml (unquote pretty) = Ok out ->
      files (snd (dump_xml L folder txt (PStr n) save_yaml w))
      = <[target L folder n (extension save_yaml "xml") := out]> (files w)).
Proof.
  split.
  - exact strip_date_leaves_no_line_element.
  - intros L folder txt n save_yaml pretty out w Hp Hr.
    now rewrite (dump_xml_writes L folder txt n save_yaml pretty out).
Qed.

Lemma dump_xml_strips_date_of_one_line_witness :
  string_existsb is_newline ("2020-01-01T00:00:00Z" +:+ nl) = true.
Proof.
  exact (proj1 dump_xml_strips_date_of_one_line dated_document
           "<zabbix_export>" ("2020-01-01T00:00:00Z" +:+ nl)
           "<version>4.0</version></zabbix_export>" eq_refl).
Defined.

(** As stated C2 fails for a date element whose content holds a line
    break: the pattern does not match it, the document goes to the XML
    library as it is, and the file written has the date element. *)
Lemma dump_xml_keeps_date_with_line_break :
  strip_date dated_document = dated_document /\
  dump_xml minidom_libraries "hosts" dated_document (PStr "Zabbix server")
    false empty_world
  = (Ok (), World {["hosts"]}
              {["/backup/hosts/Zabbix server.xml" := dated_document_pretty]}
              [write_message "/backup/hosts/Zabbix server.xml"]) /\
  occurs "<date>" dated_document_pretty = true /\
  occurs "</date>" dated_document_pretty = true.
Proof. repeat split. Qed.

(** * Further properties of the code *)

(** ** [sanitize] *)

Lemma length_scan (st : bool) (s : string) :
  String.length (scan st s) <= String.length s.
Proof.
  revert st. induction s as [|c t IH]; intros st; [reflexivity|].
  cbn [scan]. destruct (forbidden c); [destruct st|]; cbn [String.length].
  - specialize (IH true). lia.
  - specialize (IH true). lia.
  - specialize (IH false). lia.
Qed.

(** X1. Sanitizing a sanitized name changes nothing, and the sanitized name
    is never longer than the name. *)
Theorem sanitize_idempotent :
  forall name,
    sanitize (sanitize name) = sanitize name /\
    String.length (sanitize name) <= String.length name.
Proof.
  intros name. split.
  - rewrite (sanitize_scan (sanitize name)). apply scan_unchanged.
    rewrite sanitize_scan. apply scan_allowed.
  - rewrite sanitize_scan. apply length_scan.
Qed.

(** ** [strip_date] *)

Lemma occurs_cons (p : string) (c : ascii) (t : string) :
  occurs p t = true -> occurs p (String c t) = true.
Proof. intros H. cbn [occurs]. rewrite H. apply orb_true_r. Qed.

Lemma occurs_app (p x y : string) : occurs p (x +:+ p +:+ y) = true.
Proof.
  induction x as [|c x IH].
  - rewrite app_nil_l. destruct (p +:+ y) eqn:E; cbn [occurs];
      unfold Re.starts_with; rewrite <- E, strip_prefix_app; reflexivity.
  - rewrite app_cons. now apply occurs_cons.
Qed.

Lemma enclosed_occurs (s : string) (n : nat) :
  Re.enclosed date_open date_close s = Some n ->
  occurs date_open s = true /\ occurs date_close s = true.
Proof.
  intros H. apply enclosed_Some in H as (x & b & -> & _ & _ & _). split.
  - apply (occurs_app date_open "").
  - rewrite <- app_assoc. apply occurs_app.
Qed.

Lemma occurs_tail (p : string) (c : ascii) (t : string) :
  occurs p (String c t) = false -> occurs p t = false.
Proof. cbn [occurs]. intros H. now apply orb_false_elim in H as [_ H]. Qed.

Lemma unmatched_no_close (s : string) :
  occurs date_close s = false -> unmatched s = true.
Proof.
  induction s as [|c t IH]; intros H; [reflexivity|]. cbn [unmatched].
  destruct (Re.enclosed date_open date_close (String c t)) as [n|] eqn:E.
  - apply enclosed_occurs in E as [_ E]. congruence.
  - apply IH. now apply occurs_tail in H.
Qed.

Lemma unmatched_no_open (s : string) :
  occurs date_open s = false -> unmatched s = true.
Proof.
  induction s as [|c t IH]; intros H; [reflexivity|]. cbn [unmatched].
  destruct (Re.enclosed date_open date_close (String c t)) as [n|] eqn:E.
  - apply enclosed_occurs in E as [E _]. congruence.
  - apply IH. now apply occurs_tail in H.
Qed.

Lemma strip_date_unmatched (s : string) :
  unmatched s = true -> strip_date s = s.
Proof.
  induction s as [|c t IH]; [reflexivity|]. cbn [unmatched].
  destruct (Re.enclosed date_open date_close (String c t)) eqn:E;
    [discriminate|].
  intros H. rewrite strip_date_cons by exact E. now rewrite IH.
Qed.

Lemma unmatched_strip_date (s : string) : unmatched (strip_date s) = true.
Proof. apply (unmatched_sub_aux s 0). Qed.

(** X2. Stripping the date of a stripped text changes nothing, and a text
    in which no opening tag, or no closing tag, of a date element occurs is
    left as it is. *)
Theorem strip_date_idempotent :
  forall txt,
    strip_date (strip_date txt) = strip_date txt /\
    (occurs date_open txt = false \/ occurs date_close txt = false ->
     strip_date txt = txt).
Proof.
  intros txt. split.
  - apply strip_date_unmatched, unmatched_strip_date.
  - intros [H|H]; apply strip_date_unmatched;
      [now apply unmatched_no_open|now apply unmatched_no_close].
Qed.

Lemma strip_date_idempotent_witness :
  strip_date "<zabbix_export><version>4.0</version></zabbix_export>"
  = "<zabbix_export><version>4.0</version></zabbix_export>".
Proof.
  apply (proj2 (strip_date_idempotent
                  "<zabbix_export><version>4.0</version></zabbix_export>")).
  left. reflexivity.
Defined.

Lemma find_last_close_tail (y : string) :
  Re.find_last date_close y = None ->
  Re.find_last date_close ("/date>" +:+ y) = None.
Proof.
  intros H. rewrite !app_cons, app_nil_l. cbn [Re.find_last].
  now rewrite H.
Qed.

Lemma find_last_close_at (x y : string) :
  Re.find_last date_close y = None ->
  Re.find_last date_close (x +:+ date_close +:+ y) = Some (String.length x).
Proof.
  intros H. induction x as [|c x IH].
  - rewrite app_nil_l. unfold date_close at 2. rewrite app_cons.
    cbn [Re.find_last]. rewrite find_last_close_tail by exact H.
    rewrite <- app_cons. change (String "<" "/date>") with date_close.
    unfold Re.starts_with. now rewrite strip_prefix_app.
  - rewrite app_cons. cbn [Re.find_last String.length]. now rewrite IH.
Qed.

Lemma enclosed_exact (m b : string) :
  no_newline m -> has_close b = false ->
  Re.enclosed date_open date_close
    (date_open +:+ m +:+ date_close +:+ b)
  = Some (6 + String.length m + 7).
Proof.
  intros Hm Hb. unfold Re.enclosed. rewrite strip_prefix_app.
  rewrite line_prefix_app by exact Hm.
  rewrite line_prefix_app by reflexivity.
  unfold has_close in Hb.
  destruct (Re.find_last date_close (Re.line_prefix b)) eqn:E; [discriminate|].
  now rewrite find_last_close_at.
Qed.

Lemma strip_date_at_match (c : ascii) (t : string) (n : nat) :
  Re.enclosed date_open date_close (String c t) = Some (S n) ->
  strip_date (String c t)
  = Re.sub_aux (Re.enclosed date_open date_close) "" n t.
Proof.
  intros E. unfold strip_date, Re.sub. cbn [Re.sub_aux].
  now rewrite E, app_nil_l.
Qed.

Lemma strip_date_first_match (m b : string) :
  no_newline m -> has_close b = false ->
  strip_date (date_open +:+ m +:+ date_close +:+ b) = strip_date b.
Proof.
  intros Hm Hb. pose proof (enclosed_exact m b Hm Hb) as E.
  change (date_open +:+ m +:+ date_close +:+ b)
    with (String "<" ("date>" +:+ m +:+ date_close +:+ b)) in *.
  cbn [Nat.add] in E. rewrite (strip_date_at_match _ _ _ E).
  rewrite <- !app_assoc.
  replace (S (S (S (S (S (String.length m + 7))))))
    with (String.length (("date>" +:+ m) +:+ date_close))
    by (rewrite !length_app; reflexivity).
  apply (sub_aux_skip (Re.enclosed date_open date_close)).
Qed.

(** An opening tag at the start of [x] followed by an opening tag starts
    in [x] itself: the tag does not overlap itself. *)
Lemma starts_with_open_app (x r : string) :
  x <> "" ->
  Re.starts_with date_open (x +:+ date_open +:+ r) = true ->
  Re.starts_with date_open x = true.
Proof.
  intros Hx H. unfold date_open in *.
  destruct x as [|c1 x]; [congruence|]. rewrite app_cons in H.
  apply starts_with_cons in H as [<- H].
  destruct x as [|c2 x];
    [rewrite app_nil_l, app_cons in H; now apply starts_with_cons in H|].
  rewrite app_cons in H. apply starts_with_cons in H as [<- H].
  destruct x as [|c3 x];
    [rewrite app_nil_l, app_cons in H; now apply starts_with_cons in H|].
  rewrite app_cons in H. apply starts_with_cons in H as [<- H].
  destruct x as [|c4 x];
    [rewrite app_nil_l, app_cons in H; now apply starts_with_cons in H|].
  rewrite app_cons in H. apply starts_with_cons in H as [<- H].
  destruct x as [|c5 x];
    [rewrite app_nil_l, app_cons in H; now apply starts_with_cons in H|].
  rewrite app_cons in H. apply starts_with_cons in H as [<- H].
  destruct x as [|c6 x];
    [rewrite app_nil_l, app_cons in H; now apply starts_with_cons in H|].
  rewrite app_cons in H. apply starts_with_cons in H as [<- H].
  reflexivity.
Qed.

(** X3. The match is greedy within the line.  When the text before the
    first opening tag of a date element holds no such tag, and the closing
    tag is the last one of its line, everything from the opening tag to
    that closing tag goes, whatever stands in between on the line (other
    elements and other date elements included), and the text before is
    kept as it is. *)
Theorem strip_date_greedy :
  forall a m b,
    occurs date_open a = false -> no_newline m -> has_close b = false ->
    strip_date (a +:+ date_open +:+ m +:+ date_close +:+ b)
    = a +:+ strip_date b.
Proof.
  intros a m b Ha Hm Hb. induction a as [|c a IH].
  - rewrite !app_nil_l. now apply strip_date_first_match.
  - rewrite !app_cons.
    destruct (Re.enclosed date_open date_close
                (String c (a +:+ date_open +:+ m +:+ date_close +:+ b)))
      as [n|] eqn:E.
    + exfalso. apply enclosed_Some in E as (x & b' & E & _).
      assert (H : Re.starts_with date_open
                    (String c a +:+ date_open +:+ m +:+ date_close +:+ b)
                  = true).
      { rewrite app_cons, E. unfold Re.starts_with.
        now rewrite strip_prefix_app. }
      apply starts_with_open_app in H; [|discriminate].
      cbn [occurs] in Ha. now rewrite H in Ha.
    + rewrite strip_date_cons by exact E. f_equal. apply IH.
      now apply occurs_tail in Ha.
Qed.

Lemma strip_date_greedy_witness :
  strip_date ("<x>" +:+ date_open +:+ "1</date><n>host</n><date>2"
              +:+ date_close +:+ "</x>")
  = "<x>" +:+ strip_date "</x>".
Proof.
  apply strip_date_greedy; reflexivity.
Defined.

(** ** The replacement of the quote entity *)

Lemma unquote_cons_match (c : ascii) (t : string) :
  Re.starts_with quot (String c t) = true ->
  unquote (String c t)
  = String dquote (Re.sub_aux (Re.literal quot) (String dquote "") 5 t).
Proof.
  intros H. unfold unquote, str_replace, Re.sub. cbn [Re.sub_aux].
  unfold Re.literal at 1. fold quot. now rewrite H.
Qed.

Lemma unquote_cons (c : ascii) (t : string) :
  Re.starts_with quot (String c t) = false ->
  unquote (String c t) = String c (unquote t).
Proof.
  intros H. unfold unquote, str_replace, Re.sub. cbn [Re.sub_aux].
  unfold Re.literal at 1. fold quot. now rewrite H.
Qed.

(** A prefix without double quote of the result is a prefix of the text. *)
Lemma starts_with_unquote (w : string) :
  string_existsb (Ascii.eqb dquote) w = false ->
  forall u, Re.starts_with w (unquote u) = true -> Re.starts_with w u = true.
Proof.
  induction w as [|a w IH]; intros Hw u H; [reflexivity|].
  cbn [string_existsb] in Hw. apply orb_false_elim in Hw as [Ha Hw].
  destruct u as [|c u]; [discriminate|].
  destruct (Re.starts_with quot (String c u)) eqn:E.
  - rewrite unquote_cons_match in H by exact E.
    apply starts_with_cons in H as [-> _]. now rewrite Ascii.eqb_refl in Ha.
  - rewrite unquote_cons in H by exact E.
    apply starts_with_cons in H as [<- H]. apply starts_with_cons_intro.
    now apply IH.
Qed.

Lemma no_quot_sub_aux (s : string) :
  forall n,
    occurs quot (Re.sub_aux (Re.literal quot) (String dquote "") n s) = false.
Proof.
  induction s as [|c t IH]; intros n; [reflexivity|]. cbn [Re.sub_aux].
  destruct n as [|k]; [|apply IH].
  destruct (Re.starts_with quot (String c t)) eqn:E.
  - unfold Re.literal at 1. rewrite E. cbn [String.length quot].
    rewrite app_cons, app_nil_l. cbn [occurs]. now rewrite IH.
  - unfold Re.literal at 1. rewrite E.
    change (Re.sub_aux (Re.literal quot) (String dquote "") 0 t)
      with (unquote t).
    pose proof (IH 0) as IH0.
    change (Re.sub_aux (Re.literal quot) (String dquote "") 0 t)
      with (unquote t) in IH0.
    cbn [occurs]. rewrite IH0, orb_false_r.
    destruct (Re.starts_with quot (String c (unquote t))) eqn:E2;
      [|reflexivity].
    rewrite <- (unquote_cons c t E) in E2.
    apply (starts_with_unquote quot eq_refl) in E2. congruence.
Qed.

Lemma unquote_no_quot (s : string) : occurs quot s = false -> unquote s = s.
Proof.
  induction s as [|c t IH]; intros H; [reflexivity|]. cbn [occurs] in H.
  apply orb_false_elim in H as [H1 H2].
  rewrite unquote_cons by exact H1. now rewrite IH.
Qed.

(** X4. After the replacement of line 169 the text holds no quote entity
    any more (the quotes written do not form a new one with the text
    around), and a text without the entity is left as it is; so replacing
    twice is replacing once. *)
Theorem unquote_leaves_no_entity :
  forall txt,
    occurs quot (unquote txt) = false /\
    (occurs quot txt = false -> unquote txt = txt) /\
    unquote (unquote txt) = unquote txt.
Proof.
  intros txt.
  assert (H : occurs quot (unquote txt) = false) by apply (no_quot_sub_aux txt 0).
  split; [exact H|]. split; [apply unquote_no_quot|].
  now apply unquote_no_quot.
Qed.

Lemma unquote_leaves_no_entity_witness : unquote "<name>db</name>" = "<name>db</name>".
Proof.
  apply (proj1 (proj2 (unquote_leaves_no_entity "<name>db</name>"))).
  reflexivity.
Defined.

(** ** [remove_none] once more *)

Lemma distinct_snoc (l : list pyval) (x : pyval) :
  distinct l = true -> forallb (fun y => negb (key_eqb y x)) l = true ->
  distinct (l ++ [x]) = true.
Proof.
  induction l as [|y l IH]; [reflexivity|]. cbn. intros Hd Hx.
  apply andb_prop in Hd as [H1 H2]. apply andb_prop in Hx as [H3 H4].
  rewrite forallb_app, H1, IH by assumption. cbn. now rewrite H3.
Qed.

Lemma distinct_set_of_list (xs : list pyval) : distinct (set_of_list xs) = true.
Proof.
  unfold set_of_list.
  cut (forall acc, distinct acc = true ->
         distinct (fold_left (fun s x => set_add x s) xs acc) = true).
  { intros C. now apply C. }
  induction xs as [|x xs IH]; intros acc Hacc; [exact Hacc|].
  cbn [fold_left]. apply IH. unfold set_add.
  destruct (existsb (fun y => key_eqb y x) acc) eqn:E; [exact Hacc|].
  apply distinct_snoc; [exact Hacc|].
  clear -E. induction acc as [|y acc IH]; [reflexivity|]. cbn in *.
  apply orb_false_elim in E as [E1 E2]. now rewrite E1, IH.
Qed.

Lemma keys_dict_set (k v : pyval) (kvs : list item) :
  map fst (dict_set k v kvs)
  = if existsb (fun k' => key_eqb k' k) (map fst kvs) then map fst kvs
    else map fst kvs ++ [k].
Proof.
  induction kvs as [|[k' v'] r IH]; [reflexivity|]. cbn.
  destruct (key_eqb k' k); [reflexivity|]. cbn. rewrite IH.
  now destruct (existsb _ (map fst r)).
Qed.

Lemma distinct_dict_of_items (items : list item) :
  distinct (map fst (dict_of_items items)) = true.
Proof.
  unfold dict_of_items.
  cut (forall acc, distinct (map fst acc) = true ->
         distinct (map fst (fold_left
                              (fun d kv => dict_set (fst kv) (snd kv) d)
                              items acc)) = true).
  { intros C. now apply C. }
  induction items as [|[k v] r IH]; intros acc Hacc; [exact Hacc|].
  cbn [fold_left fst snd]. apply IH. rewrite keys_dict_set.
  destruct (existsb (fun k' => key_eqb k' k) (map fst acc)) eqn:E;
    [exact Hacc|].
  apply distinct_snoc; [exact Hacc|].
  clear -E. induction (map fst acc) as [|y l IH]; [reflexivity|]. cbn in *.
  apply orb_false_elim in E as [E1 E2]. now rewrite E1, IH.
Qed.

Lemma forallb_Forall_true {A} (f : A -> bool) (l : list A) :
  Forall (fun x => f x = true) l -> forallb f l = true.
Proof.
  induction 1 as [|x l Hx Hl IH]; [reflexivity|]. cbn. now rewrite Hx, IH.
Qed.

Lemma well_formed_stripped (l : list pyval) :
  Forall (fun x => well_formed (remove_none x) = true) l ->
  Forall (fun x => well_formed x = true)
    (map remove_none (List.filter not_none l)).
Proof.
  induction 1 as [|x r Hx Hr IH]; [constructor|]. cbn.
  destruct (not_none x); [constructor; assumption|exact IH].
Qed.

Lemma well_formed_remove_none (v : pyval) :
  well_formed (remove_none v) = true.
Proof.
  induction v as [| | | |l IH|l IH|l IH|t kvs IH] using pyval_ind;
    try reflexivity.
  - rewrite remove_none_list. cbn [well_formed].
    apply forallb_Forall_true, well_formed_stripped, IH.
  - rewrite remove_none_tuple. cbn [well_formed].
    apply forallb_Forall_true, well_formed_stripped, IH.
  - rewrite remove_none_set_unfold. cbn [well_formed].
    rewrite distinct_set_of_list, andb_true_r.
    apply forallb_Forall_true, set_of_list_Forall, well_formed_stripped, IH.
  - rewrite remove_none_dict_unfold. cbn [well_formed].
    rewrite distinct_dict_of_items, andb_true_r.
    assert (H : Forall (fun kv => well_formed (fst kv) = true
                                  /\ well_formed (snd kv) = true)
                  (dict_of_items
                     (map strip_item (List.filter item_not_none kvs)))).
    { apply (dict_of_items_Forall (fun k => well_formed k = true)
               (fun x => well_formed x = true)).
      induction IH as [|[k x] r [H1 H2] Hr IHr]; [constructor|].
      cbn [List.filter].
      destruct (item_not_none (k, x)); [|exact IHr].
      constructor; [split; assumption|exact IHr]. }
    apply forallb_forall. intros [k x] Hin.
    rewrite List.Forall_forall in H. destruct (H _ Hin) as [H1 H2].
    cbn [fst snd] in *. now rewrite H1, H2.
Qed.

Lemma filter_all {A} (f : A -> bool) (l : list A) :
  forallb f l = true -> List.filter f l = l.
Proof.
  induction l as [|x l IH]; [reflexivity|]. cbn. intros H.
  apply andb_prop in H as [H1 H2]. now rewrite H1, IH.
Qed.

Lemma map_fixed {A} (f : A -> A) (l : list A) :
  Forall (fun x => f x = x) l -> map f l = l.
Proof.
  induction 1 as [|x l Hx Hl IH]; [reflexivity|]. cbn. now rewrite Hx, IH.
Qed.

Lemma stripped_fixed (l : list pyval) :
  Forall (fun x => well_formed x = true -> null_free x = true ->
                   remove_none x = x) l ->
  forallb well_formed l = true ->
  forallb (fun x => not_none x && null_free x) l = true ->
  map remove_none (List.filter not_none l) = l.
Proof.
  induction 1 as [|x r Hx Hr IH]; [reflexivity|]. cbn. intros Hw Hn.
  apply andb_prop in Hw as [Hw1 Hw2]. apply andb_prop in Hn as [Hn1 Hn2].
  apply andb_prop in Hn1 as [Hn0 Hn1]. rewrite Hn0. cbn.
  now rewrite Hx, IH.
Qed.

(** An object without null is left as it is. *)
Lemma remove_none_fixed (v : pyval) :
  well_formed v = true -> null_free v = true -> remove_none v = v.
Proof.
  induction v as [| | | |l IH|l IH|l IH|t kvs IH] using pyval_ind;
    intros Hw Hn; try reflexivity.
  - rewrite remove_none_list. f_equal. now apply stripped_fixed.
  - rewrite remove_none_tuple. f_equal. now apply stripped_fixed.
  - cbn [well_formed null_free] in Hw, Hn. apply andb_prop in Hw as [Hw Hd].
    rewrite remove_none_set_unfold. f_equal.
    rewrite stripped_fixed by assumption. now apply set_of_list_distinct.
  - cbn [well_formed null_free] in Hw, Hn. apply andb_prop in Hw as [Hw Hd].
    rewrite remove_none_dict_unfold. f_equal.
    assert (E : map strip_item (List.filter item_not_none kvs) = kvs).
    { clear Hd. induction IH as [|[k x] r [Hk Hx] Hr IHr]; [reflexivity|].
      cbn in Hw, Hn. apply andb_prop in Hw as [Hw1 Hw2].
      apply andb_prop in Hw1 as [Hwk Hwx]. apply andb_prop in Hn as [Hn1 Hn2].
      apply andb_prop in Hn1 as [Hn1 Hnx]. apply andb_prop in Hn1 as [Hn1 Hnk].
      apply andb_prop in Hn1 as [Hk0 Hx0]. cbn [fst snd] in *.
      cbn [List.filter]. unfold item_not_none at 1. cbn [fst snd].
      rewrite Hk0, Hx0. cbn [andb map]. unfold strip_item at 1.
      cbn [fst snd]. now rewrite Hk, Hx, IHr. }
    rewrite E. now apply dict_of_items_distinct.
Qed.

(** X5. On the objects built from [None], booleans, integers and strings
    with lists, tuples, sets and mappings of the exact builtin types ([dict]
    and [OrderedDict] for the mappings), stripping the nulls of a stripped
    object changes nothing. *)
Theorem remove_none_idempotent :
  forall obj, remove_none (remove_none obj) = remove_none obj.
Proof.
  intros obj. apply remove_none_fixed.
  - apply well_formed_remove_none.
  - apply null_free_remove_none.
Qed.

(** X6. On the objects built from [None], booleans, integers and strings
    with lists, tuples, sets and mappings of the exact builtin types ([dict]
    and [OrderedDict] for the mappings), mappings having pairwise different
    keys and sets pairwise different elements: [remove_none] returns its
    argument as it is exactly when the argument holds no null, at any
    depth. *)
Theorem remove_none_fixed_iff_null_free :
  forall obj, well_formed obj = true ->
              (remove_none obj = obj <-> null_free obj = true).
Proof.
  intros obj Hw. split.
  - intros E. rewrite <- E. apply null_free_remove_none.
  - now apply remove_none_fixed.
Qed.

Lemma remove_none_fixed_iff_null_free_witness :
  remove_none (PDict Dict [(PStr "a", PList [PInt 0]); (PInt 3, PStr "")])
  = PDict Dict [(PStr "a", PList [PInt 0]); (PInt 3, PStr "")].
Proof.
  apply (remove_none_fixed_iff_null_free
           (PDict Dict [(PStr "a", PList [PInt 0]); (PInt 3, PStr "")])
           eq_refl).
  reflexivity.
Defined.

(** ** [order_data] once more *)

(** X7. Ordering what [order_data] returned for a JSON object returns it
    as it is. *)
Theorem order_data_idempotent :
  forall data o,
    is_json data = true -> order_data data = Ok o -> order_data o = Ok o.
Proof.
  intros data o Hj Eo.
  destruct (order_data_json data Hj) as (o' & Eo' & Ho1 & Ho2 & _).
  rewrite Eo in Eo'. injection Eo' as <-. now apply order_data_idem.
Qed.

Lemma order_data_idempotent_witness :
  order_data (ordered_or_none demo_action) = Ok (ordered_or_none demo_action).
Proof.
  exact (order_data_idempotent demo_action (ordered_or_none demo_action)
           eq_refl eq_refl).
Defined.

Lemma sorted_stripped (l : list item) :
  StronglySorted item_lt l ->
  StronglySorted item_lt (map strip_value (List.filter keep_entry l)).
Proof.
  induction 1 as [|x l Hs IH Hx]; [constructor|]. cbn [List.filter].
  destruct (keep_entry x); [|exact IH]. cbn [map]. constructor; [exact IH|].
  apply List.Forall_forall. intros y Hy.
  apply in_map_iff in Hy as (z & <- & Hz). apply filter_In in Hz as [Hz _].
  rewrite List.Forall_forall in Hx. exact (Hx z Hz).
Qed.

Lemma without_nulls_sorted (o : pyval) :
  is_json o = true -> keys_sorted o = true ->
  is_json (without_nulls o) = true /\ keys_sorted (without_nulls o) = true.
Proof.
  induction o as [| | | |l IH|l IH|l IH|t kvs IH] using pyval_ind;
    intros Hj Hk; try (split; reflexivity); try discriminate.
  - rewrite without_nulls_list. cbn [is_json keys_sorted] in *.
    assert (H : Forall (fun x => is_json x = true /\ keys_sorted x = true)
                  (map without_nulls (List.filter not_none l))).
    { induction IH as [|x r Hx Hr IHr]; [constructor|]. cbn in Hj, Hk.
      apply andb_prop in Hj as [Hj1 Hj2]. apply andb_prop in Hk as [Hk1 Hk2].
      cbn [List.filter]. destruct (not_none x); [|auto].
      cbn [map]. constructor; auto. }
    split; apply forallb_Forall_true; (eapply Forall_impl; [exact H|]);
      now intros x [H1 H2].
  - cbn [is_json keys_sorted] in Hj, Hk. apply andb_prop in Hj as [Hj Hd].
    apply andb_prop in Hk as [Hk Hv]. apply andb_prop in Hk as [Ht Ha].
    destruct t; [discriminate|]. apply ascending_inv in Ha as [Hstr Hs].
    rewrite without_nulls_dict.
    pose proof (sorted_stripped kvs Hs) as Hs'.
    assert (H : Forall (fun kv => is_str (fst kv) = true
                                  /\ is_json (snd kv) = true
                                  /\ keys_sorted (snd kv) = true)
                  (map strip_value (List.filter keep_entry kvs))).
    { clear Hd Hs Hs'. induction IH as [|[k x] r [_ Hx] Hr IHr];
        [constructor|].
      cbn in Hj, Hv. apply andb_prop in Hj as [Hj1 Hj2].
      apply andb_prop in Hj1 as [Hk1 Hj1]. apply andb_prop in Hv as [Hv1 Hv2].
      apply Forall_cons in Hstr as [_ Hstr].
      cbn [List.filter]. destruct (keep_entry (k, x)); [|auto].
      cbn [map]. constructor; [|auto]. unfold strip_value. cbn [fst snd] in *.
      destruct (Hx Hj1 Hv1) as [H1 H2]. auto. }
    split.
    + apply json_dict_intro; [|now apply distinct_sorted].
      eapply Forall_impl; [exact H|]. now intros kv (H1 & H2 & _).
    + cbn [keys_sorted]. rewrite ascending_sorted; [| |exact Hs'].
      * cbn. apply keys_sorted_values.
        eapply Forall_impl; [exact H|]. now intros kv (_ & _ & H3).
      * eapply Forall_impl; [exact H|]. now intros kv (H1 & _).
Qed.

(** X8. Stripping the nulls keeps the order: of a JSON object whose
    mappings all have their keys in ascending order, [remove_none] returns
    such an object.  So what [dumps_json] has ordered stays ordered on the
    yaml path. *)
Theorem remove_none_keeps_order :
  forall o,
    is_json o = true -> keys_sorted o = true ->
    is_json (remove_none o) = true /\ keys_sorted (remove_none o) = true.
Proof.
  intros o Hj Hk. rewrite remove_none_json by exact Hj.
  now apply without_nulls_sorted.
Qed.

Lemma remove_none_keeps_order_witness :
  is_json (remove_none (ordered_or_none demo_action)) = true /\
  keys_sorted (remove_none (ordered_or_none demo_action)) = true.
Proof.
  exact (remove_none_keeps_order (ordered_or_none demo_action)
           eq_refl eq_refl).
Defined.

(** ** Failures of the serializer *)

(** X9. When the name is not a string, when the printer rejects the
    document, or when the conversion to yaml fails, [dump_xml] raises
    before it reaches line 174: it has written no file and logged nothing,
    no directory is gone, and the only directory it can have made is the
    folder.  (A failure of [open], line 175, would come after the record of
    line 174; it is not one of these three.) *)
Theorem dump_xml_failure :
  forall (L : libraries) (folder txt : string) (name : pyval)
         (save_yaml : bool) (w : world),
    is_str name = false \/
    (exists e, toprettyxml L (strip_date txt) = Raise e) \/
    (save_yaml = true /\
     exists pretty e,
       toprettyxml L (strip_date txt) = Ok pretty /\
       convert_to_object_without_none L (unquote pretty) = Raise e) ->
    let r := dump_xml L folder txt name save_yaml w in
    (exists e, fst r = Raise e) /\
    files (snd r) = files w /\
    logged (snd r) = logged w /\
    dirs w ⊆ dirs (snd r) /\
    (forall d, d ∈ dirs (snd r) -> d ∈ dirs w \/ d = folder).
Proof.
  intros L folder txt name save_yaml w H r.
  assert (Hr : exists e, r = (Raise e, with_dir folder w)).
  { subst r. unfold dump_xml, with_dir, ensure_dir, unquote in *. run_M.
    destruct w as [ds fs lg]. cbn [dirs files logged].
    destruct H as [Hn|[[e He]|[-> (pretty & e & Hp & Hc)]]].
    - destruct (bool_decide (folder ∈ ds)); cbn [negb dirs files logged];
        destruct name; try discriminate; cbn [re_sub_name]; eauto.
    - destruct (bool_decide (folder ∈ ds)); cbn [negb dirs files logged];
        destruct name; cbn [re_sub_name]; eauto; rewrite He; eauto.
    - destruct (bool_decide (folder ∈ ds)); cbn [negb dirs files logged];
        destruct name; cbn [re_sub_name]; eauto; rewrite Hp, Hc; eauto. }
  destruct Hr as [e ->]. cbn [fst snd with_dir dirs files logged].
  split; [eauto|]. split; [reflexivity|]. split; [reflexivity|].
  unfold ensure_dir. destruct (bool_decide (folder ∈ dirs w)).
  - split; [reflexivity|auto].
  - split; [apply union_subseteq_r|]. intros d Hd.
    apply elem_of_union in Hd as [Hd|Hd]; [right|now left].
    now apply elem_of_singleton in Hd.
Qed.

Lemma dump_xml_failure_witness :
  let r := dump_xml minidom_libraries "hosts" "<zabbix_export>"
             (PStr "Host A") false empty_world in
  (exists e, fst r = Raise e) /\
  files (snd r) = files empty_world /\
  logged (snd r) = logged empty_world /\
  dirs empty_world ⊆ dirs (snd r) /\
  (forall d, d ∈ dirs (snd r) -> d ∈ dirs empty_world \/ d = "hosts").
Proof.
  apply (dump_xml_failure minidom_libraries "hosts" "<zabbix_export>"
           (PStr "Host A") false empty_world).
  right. left. exists (LibraryError "document not in the example").
  vm_compute. reflexivity.
Defined.

Lemma for_each_stop (L : libraries) (folder key : string) (save_yaml : bool)
    (pre : list pyval) (fs : list (string * string)) (o : pyval)
    (post : list pyval) (e : exn) :
  Forall2 (fun o f => item_file L folder key save_yaml o = Ok f) pre fs ->
  forall w w',
    dumps_json_item L folder key save_yaml o (write_all fs w) = (Raise e, w') ->
    for_each (dumps_json_item L folder key save_yaml) (pre ++ o :: post) w
    = (Raise e, w').
Proof.
  induction 1 as [|o' f os fs Hf _ IH]; intros w w' Ho.
  - cbn [app for_each]. unfold mbind, M_bind. cbn [write_all fold_left] in Ho.
    now rewrite Ho.
  - cbn [app for_each]. unfold mbind, M_bind.
    rewrite (dumps_json_item_ok _ _ _ _ _ _ _ Hf). now apply IH.
Qed.

(** X10. With [save_yaml], [dumps_json] logs that it writes the file before
    it converts the text.  When the conversion of an item fails, the items
    before it being written, [dumps_json] raises the error of the
    conversion; the last record of the log announces the file of that item,
    which has not been written. *)
Theorem dumps_json_logs_before_converting :
  forall (L : libraries) (folder key : string)
         (pre : list pyval) (item : pyval) (post : list pyval)
         (fs : list (string * string)) (o : pyval) (n txt : string)
         (e : exn) (w : world),
    is_json (PList (pre ++ item :: post)) = true ->
    Forall2 (fun x f => exists o, order_data x = Ok o /\
                          item_file L folder key true o = Ok f) pre fs ->
    order_data item = Ok o ->
    json_dumps L o = Ok txt ->
    getitem item (PStr key) = Ok (PStr n) ->
    convert_to_object_without_none L txt = Raise e ->
    dumps_json L folder (pre ++ item :: post) key true w
    = (Raise e,
       with_log (write_all fs (with_dir folder w))
         [write_message (target L folder n "yaml")]).
Proof.
  intros L folder key pre item post fs o n txt e w Hj Hfs Eo Ht Hg Hc.
  destruct (order_data_list_json _ Hj) as (l' & El & Hl).
  apply Forall2_app_inv_l in Hl as (pre' & rest & Hpre & Hrest & ->).
  apply Forall2_cons_inv_l in Hrest as (o' & post' & Eo' & Hpost & ->).
  rewrite Eo in Eo'. injection Eo' as <-.
  assert (Hji : is_json item = true).
  { cbn [is_json] in Hj. rewrite forallb_app in Hj.
    apply andb_prop in Hj as [_ Hj]. cbn in Hj.
    now apply andb_prop in Hj as [Hj _]. }
  pose proof (getitem_ordered item o key n Hji Eo Hg) as Hgo.
  pose proof (ordered_files L folder key true pre pre' fs Hpre Hfs) as Hw.
  rewrite dumps_json_unfold. unfold order_data_list. rewrite El.
  cbn [mbind result_bind]. apply (for_each_stop _ _ _ _ pre' fs); [exact Hw|].
  unfold dumps_json_item. run_M. rewrite Ht, Hgo. cbn [re_sub_name].
  rewrite Hc. reflexivity.
Qed.

Lemma dumps_json_logs_before_converting_witness :
  dumps_json picky_libraries "templates"
    ([template_a] ++ template_slash_a :: []) "name" true empty_world
  = (Raise (LibraryError "cannot parse"),
     with_log
       (write_all [("/backup/templates/Template A.yaml", "null")]
          (with_dir "templates" empty_world))
       [write_message (target picky_libraries "templates" "Template/A"
                         "yaml")]).
Proof.
  apply (dumps_json_logs_before_converting picky_libraries "templates" "name"
           [template_a] template_slash_a []
           [("/backup/templates/Template A.yaml", "null")]
           (ordered_or_none template_slash_a) "Template/A"
           (repr (ordered_or_none template_slash_a))).
  - reflexivity.
  - constructor; [|constructor].
    exists (ordered_or_none template_a). split; reflexivity.
  - reflexivity.
  - reflexivity.
  - reflexivity.
  - reflexivity.
Defined.

(** ** The whole run *)

Lemma dumps_json_ok (L : libraries) (folder key : string) (save_yaml : bool)
    (data : list pyval) (fs : list (string * string)) (w : world) :
  is_json (PList data) = true ->
  Forall2 (fun x f => exists o, order_data x = Ok o /\
                        item_file L folder key save_yaml o = Ok f) data fs ->
  dumps_json L folder data key save_yaml w
  = (Ok (), write_all fs (with_dir folder w)).
Proof.
  intros Hj Hfs. destruct (order_data_list_json _ Hj) as (l' & El & Hl).
  rewrite dumps_json_unfold. unfold order_data_list. rewrite El.
  cbn [mbind result_bind]. apply for_each_ok.
  now apply (ordered_files L folder key save_yaml data l' fs).
Qed.

Lemma export_nothing (L : libraries)
    (configuration_export : string -> pyval -> result string)
    (save_yaml : bool) (type itemid name : string) (w : world) :
  export L (Ok []) configuration_export save_yaml type itemid name w
  = (Ok (), with_log w [LogInfo "Export {}" [PStr type]]).
Proof. reflexivity. Qed.

(** X11. On a server without hosts, templates, value maps and screens,
    whose actions and media types are JSON objects that each have a file
    (the action under its [name], the media type under its [description]),
    [main] returns; it has created no folder for the four empty categories,
    has made sure of the folders [actions] and [mediatypes], has written the
    files of the actions, then those of the media types, each in the order
    of the listing, and its first record in the log is the one about yaml,
    whatever [save_yaml] is. *)
Theorem main_json_part :
  forall (L : libraries) (zabbix_ : zabbix_server) (save_yaml : bool)
         (actions mediatypes : list pyval)
         (fas fms : list (string * string)) (w : world),
    host_get zabbix_ = Ok [] -> template_get zabbix_ = Ok [] ->
    valuemap_get zabbix_ = Ok [] -> screen_get zabbix_ = Ok [] ->
    action_get zabbix_ = Ok actions ->
    mediatype_get zabbix_ = Ok mediatypes ->
    is_json (PList actions) = true -> is_json (PList mediatypes) = true ->
    Forall2 (fun x f => exists o, order_data x = Ok o /\
                          item_file L "actions" "name" save_yaml o = Ok f)
      actions fas ->
    Forall2 (fun x f => exists o, order_data x = Ok o /\
                          item_file L "mediatypes" "description" save_yaml o
                          = Ok f)
      mediatypes fms ->
    main L zabbix_ save_yaml w
    = (Ok (),
       write_all fms
         (with_dir "mediatypes"
            (with_log
               (write_all fas
                  (with_dir "actions" (with_log w log_without_xml)))
               [LogInfo "Processing mediatypes..." []]))).
Proof.
  intros L S save_yaml actions mediatypes fas fms w Hh Ht Hv Hs Ha Hm
    Hja Hjm Hfa Hfm.
  unfold main. rewrite Hh, Ht, Hv, Hs, Ha, Hm.
  unfold mbind at 1 2 3 4 5 6 7 8 9 10 11 12. unfold M_bind.
  cbn [logging]. rewrite !export_nothing. cbn [logging lift].
  rewrite (dumps_json_ok L "actions" "name" save_yaml actions fas _ Hja Hfa).
  rewrite (dumps_json_ok L "mediatypes" "description" save_yaml mediatypes fms
             _ Hjm Hfm).
  unfold with_log. cbn [dirs files logged]. rewrite <- !List.app_assoc.
  reflexivity.
Qed.

Lemma main_json_part_witness :
  main (demo_libraries PNone) json_server false empty_world
  = (Ok (),
     write_all
       [("/backup/mediatypes/E-mail  ops.json",
         repr (ordered_or_none demo_mediatype))]
       (with_dir "mediatypes"
          (with_log
             (write_all
                [("/backup/actions/Report  problems.json",
                  repr (ordered_or_none demo_action))]
                (with_dir "actions" (with_log empty_world log_without_xml)))
             [LogInfo "Processing mediatypes..." []]))).
Proof.
  apply (main_json_part (demo_libraries PNone) json_server false
           [demo_action] [demo_mediatype]);
    try reflexivity.
  - constructor; [|constructor].
    exists (ordered_or_none demo_action). split; reflexivity.
  - constructor; [|constructor].
    exists (ordered_or_none demo_mediatype). split; reflexivity.
Defined.

Lemma bind_ok {A B} (c : M A) (f : A -> M B) (w : world) (b : B) :
  fst ((c ≫= f) w) = Ok b ->
  exists a w', c w = (Ok a, w') /\ fst (f a w') = Ok b.
Proof.
  unfold mbind, M_bind. destruct (c w) as [[a|e] w']; [eauto|discriminate].
Qed.

Lemma export_ok_listing (L : libraries) (get : result (list pyval))
    (configuration_export : string -> pyval -> result string)
    (save_yaml : bool) (type itemid name : string) (w : world) (u : unit) :
  fst (export L get configuration_export save_yaml type itemid name w) = Ok u ->
  exists items, get = Ok items.
Proof.
  unfold export. intros H. apply bind_ok in H as (_ & w1 & _ & H).
  apply bind_ok in H as (items & w2 & H & _). unfold lift in H.
  exists items. congruence.
Qed.

(** X12. No failure of a listing is swallowed: when [main] returns, each
    of the six listings (hosts, templates, value maps, screens, actions,
    media types) has returned. *)
Theorem main_fetch_errors_propagate :
  forall (L : libraries) (zabbix_ : zabbix_server) (save_yaml : bool)
         (w : world),
    fst (main L zabbix_ save_yaml w) = Ok () ->
    (exists l, host_get zabbix_ = Ok l) /\
    (exists l, template_get zabbix_ = Ok l) /\
    (exists l, valuemap_get zabbix_ = Ok l) /\
    (exists l, screen_get zabbix_ = Ok l) /\
    (exists l, action_get zabbix_ = Ok l) /\
    (exists l, mediatype_get zabbix_ = Ok l).
Proof.
  intros L S save_yaml w H. unfold main in H.
  apply bind_ok in H as (_ & w1 & _ & H).
  apply bind_ok in H as (_ & w2 & _ & H).
  apply bind_ok in H as (u1 & w3 & H1 & H).
  apply bind_ok in H as (u2 & w4 & H2 & H).
  apply bind_ok in H as (u3 & w5 & H3 & H).
  apply bind_ok in H as (u4 & w6 & H4 & H).
  apply bind_ok in H as (_ & w7 & _ & H).
  apply bind_ok in H as (_ & w8 & _ & H).
  apply bind_ok in H as (actions & w9 & H5 & H).
  apply bind_ok in H as (_ & w10 & _ & H).
  apply bind_ok in H as (_ & w11 & _ & H).
  apply bind_ok in H as (mediatypes & w12 & H6 & _).
  repeat split.
  - eapply export_ok_listing. rewrite H1. reflexivity.
  - eapply export_ok_listing. rewrite H2. reflexivity.
  - eapply export_ok_listing. rewrite H3. reflexivity.
  - eapply export_ok_listing. rewrite H4. reflexivity.
  - exists actions. unfold lift in H5. congruence.
  - exists mediatypes. unfold lift in H6. congruence.
Qed.

Lemma main_fetch_errors_propagate_witness :
  (exists l, host_get json_server = Ok l) /\
  (exists l, template_get json_server = Ok l) /\
  (exists l, valuemap_get json_server = Ok l) /\
  (exists l, screen_get json_server = Ok l) /\
  (exists l, action_get json_server = Ok l) /\
  (exists l, mediatype_get json_server = Ok l).
Proof.
  apply (main_fetch_errors_propagate (demo_libraries PNone) json_server false
           empty_world).
  vm_compute. reflexivity.
Defined.

(** *** What a run touches *)

Lemma touches_refl (P D : string -> Prop) (w : world) : touches P D w w.
Proof.
  split; [|split].
  - split; [|split]; reflexivity.
  - auto.
  - congruence.
Qed.

Lemma touches_trans (P D : string -> Prop) (w1 w2 w3 : world) :
  touches P D w1 w2 -> touches P D w2 w3 -> touches P D w1 w3.
Proof.
  intros ((Hd1 & Hf1 & Hl1) & Hn1 & Hc1) ((Hd2 & Hf2 & Hl2) & Hn2 & Hc2).
  split; [|split].
  - split; [|split]; etrans; eassumption.
  - intros d Hd. destruct (Hn2 d Hd) as [H|H]; auto.
  - intros p Hp. destruct (decide (files w2 !! p = files w1 !! p)) as [E|N].
    + apply Hc2. now rewrite E.
    + now apply Hc1.
Qed.

Lemma touches_weaken (P P' D D' : string -> Prop) (w w' : world) :
  (forall p, P p -> P' p) -> (forall d, D d -> D' d) ->
  touches P D w w' -> touches P' D' w w'.
Proof.
  intros HP HD (He & Hn & Hc). split; [exact He|]. split.
  - intros d Hd. destruct (Hn d Hd); auto.
  - auto.
Qed.

Section Confined.

Context (P D : string -> Prop).

Lemma confined_ret {A} (a : A) : confined P D (mret a).
Proof. intros w. apply touches_refl. Qed.

Lemma confined_lift {A} (r : result A) : confined P D (lift r).
Proof. intros w. apply touches_refl. Qed.

Lemma confined_path_exists (p : string) : confined P D (path_exists p).
Proof. intros w. apply touches_refl. Qed.

Lemma confined_logging (r : log_record) : confined P D (logging r).
Proof.
  intros w. unfold logging. cbn [snd]. split; [|split]; cbn [dirs files logged].
  - split; [|split]; cbn [dirs files logged]; try reflexivity.
    now exists [r].
  - auto.
  - congruence.
Qed.

Lemma confined_makedirs (p : string) : D p -> confined P D (makedirs p).
Proof.
  intros Hp w. unfold makedirs. cbn [snd].
  split; [|split]; cbn [dirs files logged].
  - split; [|split]; cbn [dirs files logged]; try reflexivity. set_solver.
  - intros d Hd. apply elem_of_union in Hd as [Hd|Hd]; [|auto].
    apply elem_of_singleton in Hd as ->. auto.
  - congruence.
Qed.

Lemma confined_write_file (p txt : string) :
  P p -> confined P D (write_file p txt).
Proof.
  intros Hp w. unfold write_file. cbn [snd].
  split; [|split]; cbn [dirs files logged].
  - split; [|split]; cbn [dirs files logged]; try reflexivity.
    rewrite dom_insert_L. set_solver.
  - auto.
  - intros q Hq. destruct (decide (p = q)) as [<-|Hne]; [exact Hp|].
    now rewrite lookup_insert_ne in Hq.
Qed.

Lemma confined_bind {A B} (c : M A) (f : A -> M B) :
  confined P D c -> (forall a, confined P D (f a)) -> confined P D (c ≫= f).
Proof.
  intros Hc Hf w. unfold mbind, M_bind. specialize (Hc w).
  destruct (c w) as [[a|e] w']; cbn [snd] in *; [|exact Hc].
  eapply touches_trans; [exact Hc|apply Hf].
Qed.

Lemma confined_bind_lift {A B} (r : result A) (f : A -> M B) :
  (forall a, r = Ok a -> confined P D (f a)) -> confined P D (lift r ≫= f).
Proof.
  intros Hf w. unfold mbind, M_bind, lift. destruct r as [a|e]; cbn [snd].
  - now apply Hf.
  - apply touches_refl.
Qed.

Lemma confined_for_each {A} (body : A -> M unit) (l : list A) :
  (forall x, confined P D (body x)) -> confined P D (for_each body l).
Proof.
  intros Hb. induction l as [|x r IH]; cbn [for_each].
  - apply confined_ret.
  - apply confined_bind; [apply Hb|]. intros _. exact IH.
Qed.

End Confined.

Lemma confined_weaken {A} (P P' D D' : string -> Prop) (c : M A) :
  (forall p, P p -> P' p) -> (forall d, D d -> D' d) ->
  confined P D c -> confined P' D' c.
Proof. intros HP HD Hc w. eapply touches_weaken; eauto. Qed.

Lemma sanitized_name (n : pyval) (name : string) :
  re_sub_name n = Ok name -> string_forallb allowed name = true.
Proof.
  destruct n; try discriminate. cbn [re_sub_name]. intros [= <-].
  rewrite sanitize_scan. apply scan_allowed.
Qed.

Lemma dumps_json_item_confined (L : libraries) (folder key : string)
    (save_yaml : bool) (item : pyval) :
  confined (category_path L save_yaml folder "json") (eq folder)
    (dumps_json_item L folder key save_yaml item).
Proof.
  unfold dumps_json_item.
  apply confined_bind_lift. intros txt _.
  apply confined_bind_lift. intros n _.
  apply confined_bind_lift. intros name Hn.
  apply confined_bind; [apply confined_logging|]. intros _.
  apply confined_bind.
  { destruct save_yaml; [apply confined_lift|apply confined_ret]. }
  intros out. apply confined_write_file. exists name.
  split; [|reflexivity]. eapply sanitized_name, Hn.
Qed.

Lemma dumps_json_confined (L : libraries) (folder key : string)
    (save_yaml : bool) (data : list pyval) :
  confined (category_path L save_yaml folder "json") (eq folder)
    (dumps_json L folder data key save_yaml).
Proof.
  unfold dumps_json.
  apply confined_bind; [apply confined_path_exists|]. intros e.
  apply confined_bind.
  { destruct (negb e); [now apply confined_makedirs|apply confined_ret]. }
  intros _. apply confined_bind_lift. intros os _.
  apply confined_for_each. intros x. apply dumps_json_item_confined.
Qed.

Lemma dump_xml_confined (L : libraries) (folder txt : string) (name : pyval)
    (save_yaml : bool) :
  confined (category_path L save_yaml folder "xml") (eq folder)
    (dump_xml L folder txt name save_yaml).
Proof.
  unfold dump_xml.
  apply confined_bind; [apply confined_path_exists|]. intros e.
  apply confined_bind.
  { destruct (negb e); [now apply confined_makedirs|apply confined_ret]. }
  intros _. apply confined_bind_lift. intros n Hn.
  apply confined_bind_lift. intros pretty _.
  apply confined_bind.
  { destruct save_yaml; [apply confined_lift|apply confined_ret]. }
  intros out. apply confined_bind; [apply confined_logging|]. intros _.
  apply confined_write_file. exists n.
  split; [|reflexivity]. eapply sanitized_name, Hn.
Qed.

Lemma export_confined (L : libraries) (get : result (list pyval))
    (configuration_export : string -> pyval -> result string)
    (save_yaml : bool) (type itemid name : string) :
  confined (category_path L save_yaml type "xml") (eq type)
    (export L get configuration_export save_yaml type itemid name).
Proof.
  unfold export.
  apply confined_bind; [apply confined_logging|]. intros _.
  apply confined_bind_lift. intros items _.
  apply confined_for_each. intros item. unfold export_item.
  apply confined_bind_lift. intros n _.
  apply confined_bind; [apply confined_logging|]. intros _.
  apply confined_bind_lift. intros id _.
  apply confined_bind_lift. intros doc _.
  apply confined_bind_lift. intros n' _.
  apply dump_xml_confined.
Qed.

(** X13. A run of [main] stays within its six folders.  Whatever the
    server and the libraries return, and whether [main] returns or raises:
    no directory and no file that was there is gone, and the log has only
    grown; the only directories [main] creates are [hosts], [templates],
    [valueMaps], [screens], [actions] and [mediatypes]; and every file it
    creates or changes has the path [abspath] gives for
    [folder/name.extension], with one of these folders, a name without any
    of the forbidden characters (so without a slash or a backslash) and the
    extension of the category ([yaml] with [save_yaml]). *)
Theorem main_confined :
  forall (L : libraries) (zabbix_ : zabbix_server) (save_yaml : bool)
         (w : world),
    touches (export_path L save_yaml) (fun d => In d category_folders)
      w (snd (main L zabbix_ save_yaml w)).
Proof.
  intros L S save_yaml. change (confined (export_path L save_yaml)
    (fun d => In d category_folders) (main L S save_yaml)).
  assert (Hx : forall get type itemid name,
             In type ["hosts"; "templates"; "valueMaps"; "screens"] ->
             confined (export_path L save_yaml)
               (fun d => In d category_folders)
               (export L get (server_export S) save_yaml type itemid name)).
  { intros get type itemid name Hin.
    eapply confined_weaken; [| |apply export_confined].
    - intros p Hp. left. eauto.
    - intros d <-. cbn in Hin |- *. tauto. }
  assert (Hj : forall folder data key,
             In folder ["actions"; "mediatypes"] ->
             confined (export_path L save_yaml)
               (fun d => In d category_folders)
               (dumps_json L folder data key save_yaml)).
  { intros folder data key Hin.
    eapply confined_weaken; [| |apply dumps_json_confined].
    - intros p Hp. right. eauto.
    - intros d <-. cbn in Hin |- *. tauto. }
  unfold main.
  apply confined_bind; [apply confined_logging|]. intros _.
  apply confined_bind; [apply confined_logging|]. intros _.
  apply confined_bind; [apply Hx; cbn; tauto|]. intros _.
  apply confined_bind; [apply Hx; cbn; tauto|]. intros _.
  apply confined_bind; [apply Hx; cbn; tauto|]. intros _.
  apply confined_bind; [apply Hx; cbn; tauto|]. intros _.
  apply confined_bind; [apply confined_logging|]. intros _.
  apply confined_bind; [apply confined_logging|]. intros _.
  apply confined_bind_lift. intros actions _.
  apply confined_bind; [apply Hj; cbn; tauto|]. intros _.
  apply confined_bind; [apply confined_logging|]. intros _.
  apply confined_bind_lift. intros mediatypes _.
  apply Hj; cbn; tauto.
Qed.

(** *** [export] stops at the first item that fails *)

Lemma export_item_ok (L : libraries)
    (configuration_export : string -> pyval -> result string)
    (save_yaml : bool) (type itemid name : string) (item : pyval)
    (f : pyval * (string * string)) (w : world) :
  xml_file L configuration_export save_yaml type itemid name item = Ok f ->
  export_item L configuration_export save_yaml type itemid name item w
  = (Ok (), export_one type w f).
Proof.
  unfold xml_file. intros H.
  destruct (getitem item (PStr name)) as [n|] eqn:Hn; [|discriminate].
  destruct (getitem item (PStr itemid)) as [id|] eqn:Hi; [|discriminate].
  cbn [mbind result_bind] in H.
  destruct (configuration_export type id) as [doc|] eqn:Hd; [|discriminate].
  cbn [mbind result_bind] in H.
  destruct n as [| | |s| | | |]; try discriminate.
  cbn [re_sub_name mbind result_bind] in H.
  destruct (toprettyxml L (strip_date doc)) as [pretty|] eqn:Hp;
    [|discriminate].
  cbn [mbind result_bind] in H.
  destruct (rendered L save_yaml (unquote pretty)) as [out|] eqn:Hr;
    [|discriminate].
  cbn [mbind result_bind] in H. injection H as <-.
  now apply (export_item_writes L configuration_export save_yaml type itemid
               name item s id doc pretty out).
Qed.

Lemma for_each_export_stop (L : libraries)
    (configuration_export : string -> pyval -> result string)
    (save_yaml : bool) (type itemid name : string)
    (pre : list pyval) (fs : list (pyval * (string * string)))
    (item : pyval) (post : list pyval) (e : exn) :
  Forall2 (fun x f => xml_file L configuration_export save_yaml type itemid
                        name x = Ok f) pre fs ->
  forall w w',
    export_item L configuration_export save_yaml type itemid name item
      (export_all type fs w) = (Raise e, w') ->
    for_each (export_item L configuration_export save_yaml type itemid name)
      (pre ++ item :: post) w
    = (Raise e, w').
Proof.
  induction 1 as [|x f pre fs Hf _ IH]; intros w w' Hi.
  - cbn [app for_each]. unfold mbind, M_bind.
    cbn [export_all fold_left] in Hi. now rewrite Hi.
  - cbn [app for_each]. unfold mbind, M_bind.
    rewrite (export_item_ok _ _ _ _ _ _ _ _ _ Hf). now apply IH.
Qed.

(** X14. [export] goes through the items in order and stops at the first
    one the server does not export.  When the items before it each have a
    file and the server raises for the item, [export] raises that error;
    the files of the items before have been written, in order (and the
    folder made for the first of them), the last record of the log is the
    one that names the item, and nothing is written for it nor for the
    items after it.  Nothing is undone. *)
Theorem export_stops_at_failure :
  forall (L : libraries)
         (configuration_export : string -> pyval -> result string)
         (save_yaml : bool) (type itemid name : string)
         (pre : list pyval) (item : pyval) (post : list pyval)
         (fs : list (pyval * (string * string))) (n id : pyval) (e : exn)
         (w : world),
    Forall2 (fun x f => xml_file L configuration_export save_yaml type itemid
                          name x = Ok f) pre fs ->
    getitem item (PStr name) = Ok n ->
    getitem item (PStr itemid) = Ok id ->
    configuration_export type id = Raise e ->
    export L (Ok (pre ++ item :: post)) configuration_export save_yaml
      type itemid name w
    = (Raise e,
       with_log
         (export_all type fs (with_log w [LogInfo "Export {}" [PStr type]]))
         [LogInfo "Processing {}..." [n]]).
Proof.
  intros L ce save_yaml type itemid name pre item post fs n id e w
    Hfs Hn Hi He.
  unfold export. unfold mbind at 1 2. unfold M_bind. cbn [logging lift].
  apply (for_each_export_stop _ _ _ _ _ _ pre fs); [exact Hfs|].
  unfold export_item. run_M. rewrite Hn, Hi, He. reflexivity.
Qed.

Lemma export_stops_at_failure_witness :
  export (demo_libraries PNone) (Ok ([template_a] ++ template_slash_a :: []))
    (server_export template_server) false "templates" "templateid" "name"
    empty_world
  = (Raise (LibraryError "no permissions"),
     with_log
       (export_all "templates"
          [(PStr "Template A",
            ("/backup/templates/Template A.xml", "<zabbix_export/>"))]
          (with_log empty_world [LogInfo "Export {}" [PStr "templates"]]))
       [LogInfo "Processing {}..." [PStr "Template/A"]]).
Proof.
  apply (export_stops_at_failure (demo_libraries PNone)
           (server_export template_server) false "templates" "templateid"
           "name" [template_a] template_slash_a [] _ _ (PInt 2)).
  - constructor; [reflexivity|constructor].
  - reflexivity.
  - reflexivity.
  - reflexivity.
Defined.

(** *** The script *)

(** X15. The script runs [main] with the client the resolver returns: the
    one of the first attempt if it connects, else the one of the second;
    and when neither connects it raises the fatal error without calling
    [main], so that no listing is fetched, no folder made and no file
    written. *)
Theorem script_runs_main_on_the_connection :
  forall (api : Type) (L : libraries) (Z : zabbix_library api)
         (server : api -> zabbix_server) (url user password : string)
         (save_yaml : bool) (w : world),
    script L Z server url user password save_yaml w =
    match first_attempt Z url user password with
    | Ok zbx => main L (server zbx) save_yaml (with_log w [try_pyzabbix])
    | Raise e1 =>
        match second_attempt Z url user password with
        | Ok zbx =>
            main L (server zbx) save_yaml
              (with_log w [try_pyzabbix; LogException e1; try_py_zabbix])
        | Raise e2 =>
            (Raise (Exception fatal_message),
             with_log w [try_pyzabbix; LogException e1; try_py_zabbix;
                         LogException e2])
        end
    end.
Proof.
  intros api L Z server url user password save_yaml w.
  unfold script, get_zabbix_connection, try_except, with_log, try_pyzabbix,
    try_py_zabbix.
  unfold mbind at 1 2. unfold M_bind at 1 2. cbn [logging lift].
  destruct (first_attempt Z url user password) as [zbx|e1]; [reflexivity|].
  unfold mbind at 1 2. unfold M_bind at 1 2. cbn [logging lift].
  cbn [dirs files logged].
  destruct (second_attempt Z url user password) as [zbx|e2].
  - now rewrite <- !List.app_assoc.
  - unfold mbind, M_bind. cbn [logging lift dirs files logged].
    now rewrite <- !List.app_assoc.
Qed.

(** ** Keys that cannot be compared *)

Lemma key_lt_raise (a : pyval) :
  forall b e, key_lt a b = Raise e -> exists msg, e = TypeError msg.
Proof.
  induction a as [|b0|n0|s0|l IH|l IH|l IH|t kvs IH] using pyval_ind;
    intros b e; destruct b as [|b|n|s|m|m|m|t' kvs'];
    try (cbn; intros [= <-]; now eauto); try (cbn; discriminate).
  - revert m. induction IH as [|x r Hx _ IHr]; intros [|y m]; cbn;
      try discriminate.
    destruct (key_eqb x y); [apply IHr|apply Hx].
Qed.

Lemma insert_item_raise (x : item) (l : list item) (e : exn) :
  insert_item x l = Raise e -> exists msg, e = TypeError msg.
Proof.
  induction l as [|y r IH]; cbn [insert_item]; [discriminate|].
  destruct (key_lt (fst y) (fst x)) as [[|]|e'] eqn:E; cbn.
  - destruct (insert_item x r); cbn; [discriminate|].
    intros [= <-]. now apply IH.
  - discriminate.
  - intros [= <-]. eapply key_lt_raise, E.
Qed.

Lemma sorted_items_raise (l : list item) (e : exn) :
  sorted_items l = Raise e -> exists msg, e = TypeError msg.
Proof.
  induction l as [|x r IH]; cbn [sorted_items]; [discriminate|].
  destruct (sorted_items r) as [s|e']; cbn.
  - apply insert_item_raise.
  - intros [= <-]. now apply IH.
Qed.

Lemma order_data_raise (v : pyval) :
  forall e, order_data v = Raise e -> exists msg, e = TypeError msg.
Proof.
  induction v as [| | | |l IH|l IH|l IH|t kvs IH] using pyval_ind;
    intros e; try (cbn; discriminate).
  - rewrite order_data_list_eq.
    assert (H : forall e, order_elements l = Raise e ->
                          exists msg, e = TypeError msg).
    { induction IH as [|x r Hx _ IHr]; intros e'; cbn [order_elements];
        [discriminate|].
      destruct (order_data x) as [o|e1] eqn:E1; cbn.
      - destruct (order_elements r) as [r'|e2]; cbn; [discriminate|].
        intros [= <-]. now apply IHr.
      - intros [= <-]. now apply Hx. }
    destruct (order_elements l) as [l'|e']; cbn; [discriminate|].
    intros [= <-]. now apply H.
  - rewrite order_data_dict.
    assert (H : forall e, order_values kvs = Raise e ->
                          exists msg, e = TypeError msg).
    { induction IH as [|[k x] r [_ Hx] _ IHr]; intros e';
        cbn [order_values]; [discriminate|]. cbn [snd] in Hx.
      destruct (order_data x) as [o|e1] eqn:E1; cbn.
      - destruct (order_values r) as [r'|e2]; cbn; [discriminate|].
        intros [= <-]. now apply IHr.
      - intros [= <-]. now apply Hx. }
    destruct (order_values kvs) as [kvs'|e']; cbn.
    + destruct (sorted_items kvs') as [s|e'] eqn:Es; cbn; [discriminate|].
      intros [= <-]. eapply sorted_items_raise, Es.
    + intros [= <-]. now apply H.
Qed.

Lemma key_lt_str_l (s : string) (b : pyval) (r : bool) :
  key_lt (PStr s) b = Ok r -> is_str b = true.
Proof. destruct b; cbn; try discriminate; reflexivity. Qed.

Lemma key_lt_str_r (a : pyval) (s : string) (r : bool) :
  key_lt a (PStr s) = Ok r -> is_str a = true.
Proof.
  destruct a; cbn; try discriminate; reflexivity.
Qed.

Lemma key_lt_same_kind (a b : pyval) (r : bool) :
  key_lt a b = Ok r -> is_str a = is_str b.
Proof.
  intros H. destruct (is_str a) eqn:Ea.
  - destruct a; try discriminate. symmetry. eapply key_lt_str_l, H.
  - destruct (is_str b) eqn:Eb; [|reflexivity].
    destruct b; try discriminate. apply key_lt_str_r in H. congruence.
Qed.

Lemma insert_item_perm (x : item) (l s : list item) :
  insert_item x l = Ok s -> Permutation (x :: l) s.
Proof.
  revert s. induction l as [|y r IH]; intros s; cbn [insert_item].
  - intros [= <-]. reflexivity.
  - destruct (key_lt (fst y) (fst x)) as [[|]|]; cbn; try discriminate.
    + destruct (insert_item x r) as [r'|]; cbn; [|discriminate].
      intros [= <-]. rewrite perm_swap. constructor. now apply IH.
    + intros [= <-]. reflexivity.
Qed.

Lemma sorted_items_perm (l s : list item) :
  sorted_items l = Ok s -> Permutation l s.
Proof.
  revert s. induction l as [|x r IH]; intros s; cbn [sorted_items].
  - intros [= <-]. reflexivity.
  - destruct (sorted_items r) as [r'|]; cbn; [|discriminate].
    intros H. apply insert_item_perm in H. rewrite <- H.
    constructor. now apply IH.
Qed.

(** The keys a sort has compared are all strings or none is. *)
Lemma sorted_items_one_kind (l s : list item) :
  sorted_items l = Ok s ->
  forall x y, In x l -> In y l -> is_str (fst x) = is_str (fst y).
Proof.
  revert s. induction l as [|x r IH]; intros s; cbn [sorted_items];
    [intros _ ? ? []|].
  destruct (sorted_items r) as [r'|] eqn:Er; cbn; [|discriminate].
  intros Hi. pose proof (sorted_items_perm _ _ Er) as Hp.
  specialize (IH r' eq_refl).
  assert (Hx : forall y, In y r -> is_str (fst x) = is_str (fst y)).
  { destruct r' as [|z t].
    - symmetry in Hp. apply Permutation_nil in Hp. subst r. intros y [].
    - cbn [insert_item] in Hi.
      destruct (key_lt (fst z) (fst x)) as [b|] eqn:Ez; [|discriminate].
      apply key_lt_same_kind in Ez. intros y Hy. rewrite <- Ez. apply IH; [|exact Hy].
      eapply Permutation_in; [symmetry; exact Hp|now left]. }
  intros a b [<-|Ha] [<-|Hb]; auto. symmetry. auto.
Qed.

Lemma order_values_keys (kvs kvs' : list item) :
  order_values kvs = Ok kvs' -> map fst kvs' = map fst kvs.
Proof.
  revert kvs'. induction kvs as [|[k x] r IH]; intros kvs';
    cbn [order_values].
  - intros [= <-]. reflexivity.
  - destruct (order_data x) as [o|]; cbn; [|discriminate].
    destruct (order_values r) as [r'|]; cbn; [|discriminate].
    intros [= <-]. cbn. f_equal. now apply IH.
Qed.

(** X16. [order_data] raises [TypeError] on a mapping that has a string
    among its keys and a key that is not a string: [sorted] cannot compare
    the two. *)
Theorem order_data_mixed_keys :
  forall (t : dict_type) (kvs : list item) (s : string) (k : pyval),
    In (PStr s) (map fst kvs) -> In k (map fst kvs) -> is_str k = false ->
    exists msg, order_data (PDict t kvs) = Raise (TypeError msg).
Proof.
  intros t kvs s k Hs Hk Hn.
  destruct (order_data (PDict t kvs)) as [o|e] eqn:E.
  - exfalso. rewrite order_data_dict in E.
    destruct (order_values kvs) as [kvs'|] eqn:Ev; [|discriminate].
    cbn [mbind result_bind] in E.
    destruct (sorted_items kvs') as [s'|] eqn:Es; [|discriminate].
    apply order_values_keys in Ev. rewrite <- Ev in Hs, Hk.
    apply in_map_iff in Hs as (x & Hx & Hxin).
    apply in_map_iff in Hk as (y & Hy & Hyin).
    pose proof (sorted_items_one_kind _ _ Es x y Hxin Hyin) as H.
    rewrite Hx, Hy, Hn in H. discriminate.
  - destruct (order_data_raise _ _ E) as [msg ->]. eauto.
Qed.

Lemma order_data_mixed_keys_witness :
  exists msg,
    order_data (PDict Dict [(PInt 1, PStr "a"); (PStr "b", PInt 2)])
    = Raise (TypeError msg).
Proof.
  apply (order_data_mixed_keys Dict [(PInt 1, PStr "a"); (PStr "b", PInt 2)]
           "b" (PInt 1)).
  - cbn. tauto.
  - cbn. tauto.
  - reflexivity.
Defined.

(** ** The file [dump_xml] writes *)

(** X17. [dump_xml] returns only for a name that is a string and a
    document that the printer accepts.  It has then written one file and
    logged one record: the file is in the folder, under the sanitized name,
    with the extension [yaml] when [save_yaml] is set and [xml] otherwise;
    it holds the printed document with the quote entities replaced, or the
    conversion of that; and without [save_yaml] it holds no quote
    entity. *)
Theorem dump_xml_success :
  forall (L : libraries) (folder txt : string) (name : pyval)
         (save_yaml : bool) (w : world),
    fst (dump_xml L folder txt name save_yaml w) = Ok () ->
    exists n pretty out,
      name = PStr n /\
      toprettyxml L (strip_date txt) = Ok pretty /\
      rendered L save_yaml (unquote pretty) = Ok out /\
      (save_yaml = false -> out = unquote pretty /\ occurs quot out = false) /\
      let filename :=
        abspath L (format_filename folder (sanitize n)
                     (if save_yaml then "yaml" else "xml")) in
      snd (dump_xml L folder txt name save_yaml w)
      = World (ensure_dir folder (dirs w)) (<[filename := out]> (files w))
              (logged w ++ [write_message filename]).
Proof.
  intros L folder txt name save_yaml w H.
  assert (Hn : exists n, name = PStr n).
  { revert H. unfold dump_xml. run_M.
    destruct (bool_decide (folder ∈ dirs w)); cbn [negb];
      destruct name; cbn [re_sub_name]; try discriminate; eauto. }
  destruct Hn as [n ->].
  destruct (toprettyxml L (strip_date txt)) as [pretty|e] eqn:Hp.
  2:{ revert H. unfold dump_xml. run_M.
      destruct (bool_decide (folder ∈ dirs w)); cbn [negb re_sub_name];
        rewrite Hp; discriminate. }
  destruct (rendered L save_yaml (unquote pretty)) as [out|e] eqn:Hr.
  2:{ revert H. unfold dump_xml. unfold rendered, unquote in Hr. run_M.
      destruct (bool_decide (folder ∈ dirs w)); cbn [negb re_sub_name];
        rewrite Hp; destruct save_yaml; try discriminate;
        rewrite Hr; discriminate. }
  exists n, pretty, out.
  split; [reflexivity|]. split; [reflexivity|]. split; [exact Hr|]. split.
  - intros ->. cbn in Hr. injection Hr as <-.
    split; [reflexivity|apply (no_quot_sub_aux pretty 0)].
  - cbv zeta.
    rewrite (dump_xml_writes L folder txt n save_yaml pretty out w Hp Hr).
    unfold target, extension. reflexivity.
Qed.

Lemma dump_xml_success_witness :
  exists n pretty out,
    PStr "Zabbix server" = PStr n /\
    toprettyxml minidom_libraries (strip_date dated_document) = Ok pretty /\
    rendered minidom_libraries false (unquote pretty) = Ok out /\
    (false = false -> out = unquote pretty /\ occurs quot out = false) /\
    let filename :=
      abspath minidom_libraries
        (format_filename "hosts" (sanitize n) "xml") in
    snd (dump_xml minidom_libraries "hosts" dated_document
           (PStr "Zabbix server") false empty_world)
    = World (ensure_dir "hosts" (dirs empty_world))
            (<[filename := out]> (files empty_world))
            (logged empty_world ++ [write_message filename]).
Proof.
  apply (dump_xml_success minidom_libraries "hosts" dated_document
           (PStr "Zabbix server") false empty_world).
  vm_compute. reflexivity.
Defined.

(** ** The first record of the log *)

Lemma export_in_run (L : libraries) (get : result (list pyval))
    (configuration_export : string -> pyval -> result string)
    (save_yaml : bool) (type itemid name : string) :
  In type ["hosts"; "templates"; "valueMaps"; "screens"] ->
  confined (export_path L save_yaml) (fun d => In d category_folders)
    (export L get configuration_export save_yaml type itemid name).
Proof.
  intros Hin. eapply confined_weaken; [| |apply export_confined].
  - intros p Hp. left. eauto.
  - intros d <-. cbn in Hin |- *. tauto.
Qed.

Lemma dumps_json_in_run (L : libraries) (folder key : string)
    (save_yaml : bool) (data : list pyval) :
  In folder ["actions"; "mediatypes"] ->
  confined (export_path L save_yaml) (fun d => In d category_folders)
    (dumps_json L folder data key save_yaml).
Proof.
  intros Hin. eapply confined_weaken; [| |apply dumps_json_confined].
  - intros p Hp. right. eauto.
  - intros d <-. cbn in Hin |- *. tauto.
Qed.

Lemma export_item_confined (L : libraries)
    (configuration_export : string -> pyval -> result string)
    (save_yaml : bool) (type itemid name : string) (item : pyval) :
  confined (category_path L save_yaml type "xml") (eq type)
    (export_item L configuration_export save_yaml type itemid name item).
Proof.
  unfold export_item.
  apply confined_bind_lift. intros n _.
  apply confined_bind; [apply confined_logging|]. intros _.
  apply confined_bind_lift. intros id _.
  apply confined_bind_lift. intros doc _.
  apply confined_bind_lift. intros n' _.
  apply dump_xml_confined.
Qed.

Lemma export_log (L : libraries) (get : result (list pyval))
    (configuration_export : string -> pyval -> result string)
    (save_yaml : bool) (type itemid name : string) (w : world) :
  exists k,
    logged (snd (export L get configuration_export save_yaml type itemid
                   name w))
    = logged w ++ LogInfo "Export {}" [PStr type] :: k.
Proof.
  unfold export. unfold mbind at 1. unfold M_bind at 1. cbn [logging].
  match goal with
  | |- context [snd (?c ?w2)] =>
      assert (H : confined (category_path L save_yaml type "xml") (eq type) c)
  end.
  { apply confined_bind_lift. intros items _. apply confined_for_each.
    intros item. apply export_item_confined. }
  match goal with
  | |- context [snd (?c ?w2)] => destruct (H w2) as ((_ & _ & [k Hk]) & _)
  end.
  exists k. rewrite Hk. cbn [logged]. now rewrite <- List.app_assoc.
Qed.

(** X18. The test of line 198 is on the module [yaml], not on the flag:
    whatever [save_yaml] is, and whatever happens afterwards, the first
    record [main] adds to the log is the one that announces the conversion
    to yaml, followed by the one that starts the XML part and by the one
    for the hosts. *)
Theorem main_always_logs_yaml :
  forall (L : libraries) (zabbix_ : zabbix_server) (save_yaml : bool)
         (w : world),
    exists rest,
      logged (snd (main L zabbix_ save_yaml w))
      = logged w ++ LogInfo "Convert all format to yaml" []
                 :: LogInfo "Start export XML part..." []
                 :: LogInfo "Export {}" [PStr "hosts"] :: rest.
Proof.
  intros L S save_yaml w. unfold main.
  unfold mbind at 1 2. unfold M_bind at 1 2. cbn [logging].
  cbn [dirs files logged]. unfold mbind at 1. unfold M_bind at 1.
  match goal with
  | |- context [export L (host_get S) (server_export S) save_yaml "hosts"
                  "hostid" "name" ?w2] =>
      destruct (export_log L (host_get S) (server_export S) save_yaml "hosts"
                  "hostid" "name" w2) as [k Hk];
      destruct (export L (host_get S) (server_export S) save_yaml "hosts"
                  "hostid" "name" w2) as [[u|e] w3]
  end; cbn [snd logged] in Hk |- *.
  - match goal with
    | |- context [snd (?c w3)] =>
        assert (H : confined (export_path L save_yaml)
                      (fun d => In d category_folders) c)
    end.
    { apply confined_bind; [apply export_in_run; cbn; tauto|]. intros _.
      apply confined_bind; [apply export_in_run; cbn; tauto|]. intros _.
      apply confined_bind; [apply export_in_run; cbn; tauto|]. intros _.
      apply confined_bind; [apply confined_logging|]. intros _.
      apply confined_bind; [apply confined_logging|]. intros _.
      apply confined_bind_lift. intros actions _.
      apply confined_bind; [apply dumps_json_in_run; cbn; tauto|]. intros _.
      apply confined_bind; [apply confined_logging|]. intros _.
      apply confined_bind_lift. intros mediatypes _.
      apply dumps_json_in_run; cbn; tauto. }
    destruct (H w3) as ((_ & _ & [k' Hk']) & _).
    exists (k ++ k'). rewrite Hk', Hk. rewrite <- !List.app_assoc. reflexivity.
  - exists k. rewrite Hk. rewrite <- !List.app_assoc. reflexivity.
Qed.
